(** * matbits/counter: a shallow embedding of the counter service

    The development follows the three packages of the repository:

    - [pkg/fhandler] : [Rename], [CopyFile], [CopyDir] and the atomic writer
      [WriteAtomic] / [writeTmpFile];
    - [pkg/lockfile] : the [FcntlLockfile] handle over POSIX record locks;
    - [cmd/counter]  : the start-up sequence of [main] and the two HTTP
      handlers [hostname] and [latestCounter].

    The operating system is an explicit [World]: a flat name space of files,
    directories and symbolic links, the table of open descriptors, the
    kernel's record locks, and a script of environment faults that the system
    calls consume one by one.  Go functions become state-passing functions
    over the world; a Go [error] result is an [option error] ([None] is
    [nil]), a [(T, error)] result is a [result T]. *)

From Stdlib Require Import ZArith String Ascii List Lia Bool.
From Stdlib Require Import DecimalString DecimalZ DecimalPos DecimalFacts SpecFloat.
From stdpp Require Import gmap strings list fin_maps sorting.

Open Scope Z_scope.

(* ===================================================================== *)
(** * Go values: errors, strings, byte slices                             *)
(* ===================================================================== *)

Module Go.

(** [syscall.Errno], with the messages of [Errno.Error] on Linux. *)
Inductive Errno :=
| EPERM | ENOENT | EINTR | EIO | EBADF | EAGAIN | EACCES | EEXIST | EXDEV
| ENOTDIR | EISDIR | EINVAL | EMFILE | ENOSPC | EROFS | ELOOP | ENOTEMPTY
| ENOLCK | ENAMETOOLONG.

Definition Errno_Error (e : Errno) : string :=
  match e with
  | EPERM => "operation not permitted"
  | ENOENT => "no such file or directory"
  | EINTR => "interrupted system call"
  | EIO => "input/output error"
  | EBADF => "bad file descriptor"
  | EAGAIN => "resource temporarily unavailable"
  | EACCES => "permission denied"
  | EEXIST => "file exists"
  | EXDEV => "invalid cross-device link"
  | ENOTDIR => "not a directory"
  | EISDIR => "is a directory"
  | EINVAL => "invalid argument"
  | EMFILE => "too many open files"
  | ENOSPC => "no space left on device"
  | EROFS => "read-only file system"
  | ELOOP => "too many levels of symbolic links"
  | ENOTEMPTY => "directory not empty"
  | ENOLCK => "no locks available"
  | ENAMETOOLONG => "file name too long"
  end%string.

#[global] Instance Errno_eq_dec : EqDecision Errno.
Proof. solve_decision. Defined.

(** The [error] values that flow through the program. *)
Inductive error :=
| PathError (op path : string) (e : Errno)        (* *fs.PathError *)
| LinkError (op old new : string) (e : Errno)     (* *os.LinkError *)
| SyscallError (e : Errno)                        (* a bare syscall.Errno *)
| ErrSourceDir                                    (* fhandler.ErrSourceDir *)
| ErrDestinationExists                            (* fhandler.ErrDestinationExists *)
| ErrFailedToLock                                 (* lockfile.ErrFailedToLock *)
| ErrPatternHasSeparator (pattern : string)       (* os.CreateTemp *)
| ErrClosed (op name : string)                    (* os.ErrClosed *)
| UnsupportedValueError (str : string)            (* *json.UnsupportedValueError *)
| UnmarshalError (msg : string).                  (* json syntax / type errors *)

Definition error_Error (err : error) : string :=
  match err with
  | PathError op path e => op ++ " " ++ path ++ ": " ++ Errno_Error e
  | LinkError op old new e =>
      op ++ " " ++ old ++ " " ++ new ++ ": " ++ Errno_Error e
  | SyscallError e => Errno_Error e
  | ErrSourceDir => "source is not a directory"
  | ErrDestinationExists => "destination already exists"
  | ErrFailedToLock => "failed to obtain lock"
  | ErrPatternHasSeparator pattern =>
      "createtemp " ++ pattern ++ ": pattern contains path separator"
  | ErrClosed op name => op ++ " " ++ name ++ ": file already closed"
  | UnsupportedValueError str => "json: unsupported value: " ++ str
  | UnmarshalError msg => msg
  end%string.

(** The errno wrapped by an error, as [errors.Is] unwraps it. *)
Definition error_errno (err : error) : option Errno :=
  match err with
  | PathError _ _ e | LinkError _ _ _ e | SyscallError e => Some e
  | _ => None
  end.

(** [errors.Is(err, os.ErrNotExist)]. *)
Definition is_ErrNotExist (err : error) : bool :=
  bool_decide (error_errno err = Some ENOENT).

(** A [(T, error)] result. *)
Inductive result (A : Type) := Ok (a : A) | Err (e : error).
Arguments Ok {A} a.
Arguments Err {A} e.

(** ** package strings *)

Fixpoint string_drop (n : nat) (s : string) : string :=
  match n, s with
  | O, _ => s
  | S n', String _ s' => string_drop n' s'
  | S _, EmptyString => EmptyString
  end.

(** [strings.HasSuffix]:
    [len(s) >= len(suffix) && s[len(s)-len(suffix):] == suffix]. *)
Definition HasSuffix (s suffix : string) : bool :=
  (String.length suffix <=? String.length s)%nat
  && String.eqb (string_drop (String.length s - String.length suffix) s) suffix.

(** [strings.Contains]. *)
Fixpoint Contains (s substr : string) : bool :=
  String.prefix substr s
  || match s with
     | EmptyString => false
     | String _ s' => Contains s' substr
     end.

(** [[]byte(s)]. *)
Definition bytes (s : string) : list Byte.byte := list_byte_of_string s.

(** [strconv.Itoa] / [fmt.Sprintf("%d", n)]. *)
Definition Itoa (n : Z) : string := NilZero.string_of_int (Z.to_int n).

End Go.
Export Go.

(* ===================================================================== *)
(** * float64                                                             *)
(* ===================================================================== *)

(** The counter is a Go [float64]: IEEE 754 binary64 with round to nearest
    even, here the standard library's executable [spec_float] at precision
    53 and maximal exponent 1024. *)
Module Float64.

Definition prec : Z := 53.
Definition emax : Z := 1024.

Definition float64 := spec_float.

Definition zero : float64 := S754_zero false.
Definition one : float64 := SFone prec emax.

Definition add : float64 -> float64 -> float64 := SFadd prec emax.
Definition sub : float64 -> float64 -> float64 := SFsub prec emax.

(** [number++] and [number--]. *)
Definition incr (x : float64) : float64 := add x one.
Definition decr (x : float64) : float64 := sub x one.

(** [float64(n)] for an integer: correctly rounded. *)
Definition of_Z (n : Z) : float64 := binary_normalize prec emax n 0 false.

(** The magnitude of a finite float rounded toward zero. *)
Definition trunc_mag (m : positive) (e : Z) : Z := Z.shiftl (Z.pos m) e.

(** Whether [m * 2^e] is a whole number. *)
Definition integral (m : positive) (e : Z) : bool :=
  (0 <=? e) || (Z.land (Z.pos m) (Z.ones (- e)) =? 0).

(** [int(x)]: truncation toward zero.  The Go specification leaves the
    result open when the value does not fit [int]; amd64 yields the
    smallest [int64], and so does the model. *)
Definition min_int64 : Z := - 2 ^ 63.

Definition to_int (x : float64) : Z :=
  match x with
  | S754_zero _ => 0
  | S754_finite s m e =>
      let v := if s then - trunc_mag m e else trunc_mag m e in
      if (min_int64 <=? v) && (v <? 2 ^ 63) then v else min_int64
  | _ => min_int64
  end.

(** The mantissa and exponent of [float64(N)] for a positive integer
    below [2^53]: [N] shifted left until it fills the 53 bits. *)
Definition canon_m (N : positive) : positive :=
  match (53 - Z.pos (digits2_pos N))%Z with
  | Z.pos k => Pos.iter xO N k
  | _ => N
  end.

Definition canon_e (N : positive) : Z := Z.pos (digits2_pos N) - 53.

End Float64.
Export Float64.

(* ===================================================================== *)
(** * encoding/json on a float64                                          *)
(* ===================================================================== *)

(** [json.Marshal] and [json.Unmarshal] belong to the Go library.  The
    model is concrete on the fragment the service itself produces: whole
    numbers of magnitude below [2^53] print as their decimal digits, and a
    JSON integer literal decodes to the correctly rounded float64.  The
    remainder of the library (shortest decimal form of other finite floats;
    literals with fraction or exponent, [null], white space, malformed
    input) is a [Codec] taken as a parameter. *)
Module Json.

Record Codec := {
  format_float : float64 -> list Byte.byte;
  decode_value : list Byte.byte -> float64 -> result float64
}.

Definition Marshal (cd : Codec) (x : float64) : result (list Byte.byte) :=
  match x with
  | S754_nan => Err (UnsupportedValueError "NaN")
  | S754_infinity s => Err (UnsupportedValueError (if s then "-Inf" else "+Inf"))
  | S754_zero s => Ok (bytes (if s then "-0" else "0"))
  | S754_finite s m e =>
      if integral m e && (trunc_mag m e <? 2 ^ 53)
      then Ok (bytes ((if s then "-" else "") ++ Itoa (trunc_mag m e)))
      else Ok (format_float cd x)
  end.

(** A JSON integer literal (an optional minus sign, then either a single
    zero or digits that do not start with zero): its sign and magnitude. *)
Definition int_literal (s : string) : option (bool * Z) :=
  let '(neg, digits) :=
    match s with
    | String "-" rest => (true, rest)
    | _ => (false, s)
    end in
  match digits with
  | EmptyString => None
  | String "0" (String _ _) => None
  | _ =>
      match NilEmpty.uint_of_string digits with
      | Some d => Some (neg, Z.of_uint d)
      | None => None
      end
  end.

(** [json.Unmarshal(data, &v)] for [v float64]; the new value of [v]. *)
Definition Unmarshal (cd : Codec) (data : list Byte.byte) (v : float64)
  : result float64 :=
  match int_literal (string_of_list_byte data) with
  | Some (neg, n) =>
      match n with
      | 0 => Ok (S754_zero neg)
      | _ =>
          match of_Z (if neg then - n else n) with
          | S754_infinity _ =>
              Err (UnmarshalError "json: cannot unmarshal number into Go value of type float64")
          | x => Ok x
          end
      end
  | None => decode_value cd data v
  end.

End Json.

(* ===================================================================== *)
(** * strconv and the number syntax of encoding/json                      *)
(* ===================================================================== *)

(** The part of the Go library that [Json.Codec] leaves open, written from
    the library's documentation.  [strconv.ParseFloat] "returns the nearest
    floating-point number rounded using IEEE754 unbiased rounding";
    [strconv.FormatFloat] with precision -1 "uses the smallest number of
    digits necessary such that ParseFloat will return f exactly";
    encoding/json prints a float64 in the format 'f', or in the format 'e'
    when its magnitude is below 1e-6 or at least 1e21, and reads a number
    in the syntax of RFC 8259. *)
Module Strconv.
Import Json.

#[export] Instance float64_eq_dec : EqDecision float64.
Proof. unfold float64. solve_decision. Defined.

(** ** strconv.ParseFloat *)

(** The float64 nearest to [M * 10^E] (ties to even), with sign [neg]:
    the correctly rounded integer when [E] is not negative, the correctly
    rounded quotient of [M] by [10^-E] otherwise.  A magnitude beyond the
    largest float64 gives an infinity. *)
Definition round_decimal (neg : bool) (M E : Z) : float64 :=
  match M with
  | Z.pos _ =>
      if 0 <=? E then of_Z (if neg then - (M * 10 ^ E) else M * 10 ^ E)
      else
        let '(q, e, l) := SFdiv_core_binary prec emax M 0 (10 ^ (- E)) 0 in
        binary_round_aux prec emax neg q e l
  | _ => S754_zero neg
  end.

(** ** The number syntax of JSON *)

Definition is_digit (c : ascii) : bool :=
  (48 <=? nat_of_ascii c)%nat && (nat_of_ascii c <=? 57)%nat.

(** White space between JSON tokens: space, tab, line feed, carriage
    return. *)
Definition json_space (c : ascii) : bool :=
  match nat_of_ascii c with
  | 32%nat | 9%nat | 10%nat | 13%nat => true
  | _ => false
  end.

Fixpoint skip_space (s : string) : string :=
  match s with
  | String c s' => if json_space c then skip_space s' else s
  | EmptyString => EmptyString
  end.

(** The digits at the head of [s], and what follows them. *)
Fixpoint span_digits (s : string) : string * string :=
  match s with
  | String c s' =>
      if is_digit c
      then let '(d, r) := span_digits s' in (String c d, r)
      else (EmptyString, s)
  | EmptyString => (EmptyString, EmptyString)
  end.

Fixpoint all_digits (s : string) : bool :=
  match s with
  | String c s' => is_digit c && all_digits s'
  | EmptyString => true
  end.

(** A string that does not go on with a digit. *)
Definition stops (r : string) : Prop :=
  match r with
  | String ch _ => is_digit ch = false
  | EmptyString => True
  end.

(** The number that a string of digits denotes. *)
Definition digits_value (s : string) : Z :=
  match NilEmpty.uint_of_string s with
  | Some d => Z.of_uint d
  | None => 0
  end.

(** The fraction of a number: a point followed by at least one digit, or
    nothing. *)
Definition scan_fraction (s : string) : option (string * string) :=
  match s with
  | String "." r =>
      match span_digits r with
      | (EmptyString, _) => None
      | (f, r') => Some (f, r')
      end
  | _ => Some (EmptyString, s)
  end.

(** The exponent of a number: [e] or [E], an optional sign and at least
    one digit, or nothing. *)
Definition scan_exponent (s : string) : option (Z * string) :=
  let digits (neg : bool) (r : string) :=
    match span_digits r with
    | (EmptyString, _) => None
    | (x, r') => Some (if neg then - digits_value x else digits_value x, r')
    end in
  match s with
  | String c r =>
      if Ascii.eqb c "e" || Ascii.eqb c "E" then
        match r with
        | String "-" r' => digits true r'
        | String "+" r' => digits false r'
        | _ => digits false r
        end
      else Some (0, s)
  | EmptyString => Some (0, s)
  end.

(** An optional minus sign. *)
Definition split_sign (s : string) : bool * string :=
  match s with
  | String "-" r => (true, r)
  | _ => (false, s)
  end.

(** The integer part of a number: a single zero, or digits that do not
    start with a zero. *)
Definition int_part_ok (ip : string) : bool :=
  match ip with
  | EmptyString => false
  | String "0" (String _ _) => false
  | _ => true
  end.

(** A JSON number at the head of [s]: an optional minus sign, the integer
    part, an optional fraction, an optional exponent.  The result is the
    sign, the mantissa [M] and the decimal exponent [E] of the number
    [M * 10^E], and what follows the literal. *)
Definition scan_number (s : string) : option (bool * Z * Z * string) :=
  let '(neg, s1) := split_sign s in
  let '(ip, s2) := span_digits s1 in
  if int_part_ok ip then
    match scan_fraction s2 with
    | None => None
    | Some (fp, s3) =>
        match scan_exponent s3 with
        | None => None
        | Some (x, s4) =>
            Some (neg, digits_value (ip ++ fp),
                  x - Z.of_nat (String.length fp), s4)
        end
    end
  else None.

(** [json.Unmarshal] into a float64, beyond the integer literals: a number
    between optional white space is read by [strconv.ParseFloat] (a value
    out of range is an error), [null] leaves the variable as it is, and
    every other input is an error (a syntax error or a type error; the
    model does not tell them apart and its error texts are schematic). *)
Definition decode_number (data : list Byte.byte) (v : float64)
  : result float64 :=
  let s := skip_space (string_of_list_byte data) in
  if String.prefix "null" s then
    match skip_space (string_drop 4 s) with
    | EmptyString => Ok v
    | _ => Err (UnmarshalError "json: invalid character after top-level value")
    end
  else
    match scan_number s with
    | Some (neg, M, E, rest) =>
        match skip_space rest with
        | EmptyString =>
            match round_decimal neg M E with
            | S754_infinity _ =>
                Err (UnmarshalError "json: cannot unmarshal number into Go value of type float64")
            | x => Ok x
            end
        | _ => Err (UnmarshalError "json: invalid character after top-level value")
        end
    | None => Err (UnmarshalError "json: cannot unmarshal value into Go value of type float64")
    end.

(** ** strconv.FormatFloat with precision -1 *)

(** The exact value of [m * 2^e] as an integer times a power of ten. *)
Definition exact_decimal (m : positive) (e : Z) : Z * Z :=
  if 0 <=? e then (Z.pos m * 2 ^ e, 0) else (Z.pos m * 5 ^ (- e), e).

(** [c * 10^k] and [m * 2^e] are the same number. *)
Definition same_value (c k : Z) (m : positive) (e : Z) : Prop :=
  c * 10 ^ Z.max k 0 * 2 ^ Z.max (- e) 0
  = Z.pos m * 2 ^ Z.max e 0 * 10 ^ Z.max (- k) 0.

(** The decimal [c * 10^k] without the zeros at the end of [c]. *)
Fixpoint trim_zeros (fuel : nat) (c k : Z) : Z * Z :=
  match fuel with
  | O => (c, k)
  | S fuel' =>
      if (0 <? c) && (c mod 10 =? 0) then trim_zeros fuel' (c / 10) (k + 1)
      else (c, k)
  end.

Definition trim (c k : Z) : Z * Z :=
  trim_zeros (String.length (Itoa c)) c k.

(** Whether [strconv.ParseFloat] reads the decimal [ck] as [x]. *)
Definition parses_to (x : float64) (ck : Z * Z) : bool :=
  bool_decide (round_decimal false ck.1 ck.2 = x).

(** The decimal that keeps all but the last [j] digits of [n * 10^q]:
    the digits cut off there or the next decimal above, whichever
    [ParseFloat] reads as [x]; the nearer one (on a tie the even one) when
    both are, none when neither is. *)
Definition candidate (x : float64) (n q j : Z) : option (Z * Z) :=
  let lo := n / 10 ^ j in
  let down := trim lo (q + j) in
  let up := trim (lo + 1) (q + j) in
  match parses_to x down, parses_to x up with
  | true, true =>
      let r := n mod 10 ^ j in
      Some (if (2 * r <? 10 ^ j) || ((2 * r =? 10 ^ j) && Z.even lo)
            then down else up)
  | true, false => Some down
  | false, true => Some up
  | false, false => None
  end.

(** From the fewest digits on: the first length at which there is a
    candidate.  With all digits kept the decimal is the exact value. *)
Fixpoint shortest_from (x : float64) (n q : Z) (j : nat) : Z * Z :=
  match candidate x n q (Z.of_nat j) with
  | Some ck => ck
  | None =>
      match j with
      | O => trim n q
      | S j' => shortest_from x n q j'
      end
  end.

(** The shortest decimal [c * 10^k] that [ParseFloat] reads as [m * 2^e]. *)
Definition shortest (m : positive) (e : Z) : Z * Z :=
  let '(n, q) := exact_decimal m e in
  shortest_from (S754_finite false m e) n q (String.length (Itoa n) - 1).

(** ** The formats 'f' and 'e' *)

Fixpoint zeros (n : nat) : string :=
  match n with
  | O => EmptyString
  | S n' => String "0" (zeros n')
  end.

Fixpoint string_take (n : nat) (s : string) : string :=
  match n, s with
  | S n', String c s' => String c (string_take n' s')
  | _, _ => EmptyString
  end.

(** [%f] of the digits [ds] with the decimal point before digit [dp]:
    the integer part padded with zeros (a single zero when there is
    none), then point and fraction when digits remain. *)
Definition fmt_f (ds : string) (dp : Z) : string :=
  if dp <=? 0 then "0." ++ zeros (Z.to_nat (- dp)) ++ ds
  else if dp <? Z.of_nat (String.length ds)
       then string_take (Z.to_nat dp) ds ++ "." ++ string_drop (Z.to_nat dp) ds
       else ds ++ zeros (Z.to_nat (dp - Z.of_nat (String.length ds))).

(** [%e]: the first digit, point and the other digits when there are any,
    then the exponent [dp - 1] with its sign.  strconv writes the exponent
    with at least two digits and encoding/json takes a leading zero off
    again ([e-07] becomes [e-7]), so the exponent comes out with the
    digits it has. *)
Definition fmt_e (ds : string) (dp : Z) : string :=
  match ds with
  | String d rest =>
      String d (match rest with
                | EmptyString => EmptyString
                | _ => "." ++ rest
                end)
      ++ "e" ++ (if dp - 1 <? 0 then "-" else "+") ++ Itoa (Z.abs (dp - 1))
  | EmptyString => EmptyString
  end.

(** The constants [1e-6] and [1e21] of encoding/json, as float64. *)
Definition float_1e_6 : float64 := round_decimal false 1 (-6).
Definition float_1e21 : float64 := round_decimal false 1 21.

(** encoding/json on a finite float64: format 'e' when the magnitude is
    below [1e-6] or at least [1e21], format 'f' otherwise, each with the
    shortest digits. *)
Definition format_number (x : float64) : string :=
  match x with
  | S754_zero s => if s then "-0" else "0"
  | S754_finite s m e =>
      let '(c, k) := shortest m e in
      let ds := Itoa c in
      let dp := Z.of_nat (String.length ds) + k in
      let a := S754_finite false m e in
      (if s then "-" else "")
      ++ (if SFltb a float_1e_6 || negb (SFltb a float_1e21)
          then fmt_e ds dp else fmt_f ds dp)
  | _ => EmptyString
  end.

(** A float64 within the representable range: a zero or a finite number
    of the format, neither NaN nor an infinity. *)
Definition finite_float64 (x : float64) : bool :=
  match x with
  | S754_zero _ => true
  | S754_finite _ m e => bounded prec emax m e
  | _ => false
  end.

(** The library as the service uses it. *)
Definition strconv_codec : Codec :=
  {| format_float := fun x => bytes (format_number x);
     decode_value := decode_number |}.

End Strconv.

(* ===================================================================== *)
(** * The operating system                                                *)
(* ===================================================================== *)

Module Os.

(** ** File modes ([os.FileMode]) *)

Definition ModeDir : Z := 2 ^ 31.
Definition ModeSymlink : Z := 2 ^ 27.
Definition ModePerm : Z := 511.                         (* 0777 *)

(** ** The name space

    Paths are kept in cleaned form and name the entries of one flat
    table; the entries below a directory [d] are the paths that extend
    [d ++ "/"].  Whether the parent of a path exists is not policed. *)
Inductive node :=
| NFile (content : list Byte.byte) (perm : Z)
| NDir (perm : Z)
| NSymlink (target : string).

(** ** Environment faults

    What the state of the world does not decide (a read-only or full
    device, a permission, a second file system) is supplied from outside:
    every system call takes the next entry of the world's script.
    [Short n e] lets a write transfer [n] bytes before failing with [e].
    Errors that the name space decides (a missing or existing entry, a
    directory in the way) are never injected. *)
Inductive EnvErrno :=
| FEACCES | FEPERM | FEIO | FENOSPC | FEROFS | FEMFILE | FEXDEV | FEINTR
| FENOLCK.

Definition errno_of (e : EnvErrno) : Errno :=
  match e with
  | FEACCES => EACCES | FEPERM => EPERM | FEIO => EIO | FENOSPC => ENOSPC
  | FEROFS => EROFS | FEMFILE => EMFILE | FEXDEV => EXDEV | FEINTR => EINTR
  | FENOLCK => ENOLCK
  end.

Inductive Fault := Pass | Fail (e : EnvErrno) | Short (n : nat) (e : EnvErrno).

Definition fault_errno (f : Fault) : option Errno :=
  match f with
  | Pass => None
  | Fail e | Short _ e => Some (errno_of e)
  end.

(** ** Descriptors and record locks *)

(** An open file description: the entry it refers to and its offset. *)
Record OpenFD := { fd_path : string; fd_off : nat }.

(** A POSIX record lock: the bytes [lk_lo .. lk_hi] of [lk_path], held by
    process [lk_pid]; [lk_hi = None] reaches to the end of the file. *)
Record lockrec := {
  lk_path : string; lk_pid : Z; lk_excl : bool; lk_lo : Z; lk_hi : option Z
}.

Record World := {
  fs : gmap string node;
  umask : Z;
  rand : nat;                       (* state of os.CreateTemp's name generator *)
  script : list Fault;
  fdtab : gmap (Z * Z) OpenFD;      (* (pid, descriptor) to description *)
  locks : list lockrec
}.

Definition set_fs (m : gmap string node) (w : World) : World :=
  {| fs := m; umask := umask w; rand := rand w; script := script w;
     fdtab := fdtab w; locks := locks w |}.
Definition set_rand (r : nat) (w : World) : World :=
  {| fs := fs w; umask := umask w; rand := r; script := script w;
     fdtab := fdtab w; locks := locks w |}.
Definition set_script (s : list Fault) (w : World) : World :=
  {| fs := fs w; umask := umask w; rand := rand w; script := s;
     fdtab := fdtab w; locks := locks w |}.
Definition set_fdtab (t : gmap (Z * Z) OpenFD) (w : World) : World :=
  {| fs := fs w; umask := umask w; rand := rand w; script := script w;
     fdtab := t; locks := locks w |}.
Definition set_locks (l : list lockrec) (w : World) : World :=
  {| fs := fs w; umask := umask w; rand := rand w; script := script w;
     fdtab := fdtab w; locks := l |}.

(** A process: its id and the value of [$TMPDIR] in its environment. *)
Record Proc := { pid : Z; TMPDIR : string }.

(** ** The state monad of system calls *)

Definition M (A : Type) : Type := World -> A * World.

#[global] Instance M_ret : MRet M := fun A a w => (a, w).
#[global] Instance M_bind : MBind M :=
  fun A B k c w => let (a, w') := c w in k a w'.

Definition gets {A} (f : World -> A) : M A := fun w => (f w, w).
Definition modify (f : World -> World) : M unit := fun w => (tt, f w).

(** The next environment fault of the script; an exhausted script holds
    no further fault. *)
Definition next_fault (w : World) : Fault :=
  match script w with
  | [] => Pass
  | f :: _ => f
  end.

Definition advance (w : World) : World := set_script (tail (script w)) w.

(** A system call takes the next entry of the script. *)
Definition tick : M (option Errno) :=
  fun w => (fault_errno (next_fault w), advance w).

(** The same for a call that may transfer part of its data. *)
Definition tick_io : M Fault := fun w => (next_fault w, advance w).

(** ** Path resolution *)

(** Follow symbolic links from [name]: the entry reached and its path, or
    the errno and the path at which resolution stopped. *)
Fixpoint follow (fuel : nat) (m : gmap string node) (name : string)
  : (string * node) + (string * Errno) :=
  match m !! name with
  | None => inr (name, ENOENT)
  | Some (NSymlink target) =>
      match fuel with
      | O => inr (name, ELOOP)
      | S k => follow k m target
      end
  | Some n => inl (name, n)
  end.

Definition MAXSYMLINKS : nat := 40.
Definition resolve := follow MAXSYMLINKS.
#[global] Arguments resolve : simpl never.

(** [dir ++ "/"], the prefix of everything below [dir]. *)
Definition below (dir : string) : string :=
  if HasSuffix dir "/" then dir else (dir ++ "/")%string.

Definition under (dir path : string) : bool := String.prefix (below dir) path.

(** The name of [path] inside [dir] when it is an immediate entry of it. *)
Definition child_name (dir path : string) : option string :=
  if under dir path then
    let rest := string_drop (String.length (below dir)) path in
    if String.eqb rest "" || Contains rest "/" then None else Some rest
  else None.

Definition children (m : gmap string node) (dir : string)
  : list (string * node) :=
  omap (fun '(p, n) => (fun c => (c, n)) <$> child_name dir p) (map_to_list m).

(** ** os.FileInfo and fs.DirEntry *)

Record FileInfo := { fi_IsDir : bool; fi_Mode : Z }.

Definition info_of (n : node) : FileInfo :=
  match n with
  | NFile _ perm => {| fi_IsDir := false; fi_Mode := perm |}
  | NDir perm => {| fi_IsDir := true; fi_Mode := Z.lor ModeDir perm |}
  | NSymlink _ => {| fi_IsDir := false; fi_Mode := Z.lor ModeSymlink ModePerm |}
  end.

Record DirEntry := { de_Name : string; de_node : node }.

Definition de_IsDir (e : DirEntry) : bool :=
  match de_node e with NDir _ => true | _ => false end.

(** ** *os.File *)

(** [f_fd] is the descriptor, [-1] once the file is closed. *)
Record File := { f_name : string; f_fd : Z }.

(** [f.Fd()]; on a nil [*os.File] it is [^uintptr(0)]. *)
Definition File_Fd (f : option File) : Z :=
  match f with Some f => f_fd f | None => -1 end.

(** The lowest descriptor above stderr that process [p] does not use. *)
Fixpoint free_fd (fuel : nat) (t : gmap (Z * Z) OpenFD) (p : Z) (fd : Z) : Z :=
  match fuel with
  | O => fd
  | S k => match t !! (p, fd) with
           | None => fd
           | Some _ => free_fd k t p (fd + 1)
           end
  end.

Definition open_fd (p : Proc) (name path : string) : M File :=
  fun w =>
    let fd := free_fd (size (fdtab w)) (fdtab w) (pid p) 3 in
    ({| f_name := name; f_fd := fd |},
     set_fdtab (<[(pid p, fd) := {| fd_path := path; fd_off := 0 |}]> (fdtab w)) w).

(** Permission bits of a new entry: [perm &^ umask]. *)
Definition new_perm (perm : Z) (w : World) : Z :=
  Z.ldiff (Z.land perm ModePerm) (umask w).


(** ** System calls on the name space *)

(** [os.TempDir]. *)
Definition os_TempDir (p : Proc) : string :=
  if String.eqb (TMPDIR p) "" then "/tmp"%string else TMPDIR p.

(** Flags of [os.OpenFile] (Linux values). *)
Definition O_RDONLY : Z := 0.
Definition O_RDWR : Z := 2.
Definition O_CREATE : Z := 64.
Definition O_EXCL : Z := 128.
Definition O_TRUNC : Z := 512.

Definition has_flag (flag bit : Z) : bool := negb (Z.land flag bit =? 0).

(** [os.Stat]. *)
Definition os_Stat (name : string) : M (result FileInfo) :=
  e ← tick;
  match e with
  | Some e => mret (Err (PathError "stat" name e))
  | None =>
      m ← gets fs;
      mret (match resolve m name with
            | inl (_, n) => Ok (info_of n)
            | inr (_, e) => Err (PathError "stat" name e)
            end)
  end.

(** [os.Chmod]. *)
Definition os_Chmod (name : string) (mode : Z) : M (option error) :=
  e ← tick;
  match e with
  | Some e => mret (Some (PathError "chmod" name e))
  | None =>
      m ← gets fs;
      match resolve m name with
      | inl (q, NFile c _) =>
          modify (set_fs (<[q := NFile c (Z.land mode ModePerm)]> m));; mret None
      | inl (q, _) =>
          modify (set_fs (<[q := NDir (Z.land mode ModePerm)]> m));; mret None
      | inr (_, e) => mret (Some (PathError "chmod" name e))
      end
  end.

(** [os.Remove]. *)
Definition os_Remove (name : string) : M (option error) :=
  e ← tick;
  match e with
  | Some e => mret (Some (PathError "remove" name e))
  | None =>
      m ← gets fs;
      match m !! name with
      | None => mret (Some (PathError "remove" name ENOENT))
      | Some (NDir _) =>
          match children m name with
          | [] => modify (set_fs (delete name m));; mret None
          | _ :: _ => mret (Some (PathError "remove" name ENOTEMPTY))
          end
      | Some _ => modify (set_fs (delete name m));; mret None
      end
  end.

(** The table without [path] and everything below it. *)
Definition prune (path : string) (m : gmap string node) : gmap string node :=
  filter (fun kv => kv.1 ≠ path ∧ under path kv.1 = false) m.

(** The entries of the tree rooted at [old], re-rooted at [new]. *)
Definition graft (old new : string) (m : gmap string node)
  : gmap string node :=
  list_to_map
    (omap (fun '(p, n) =>
             if String.eqb p old then Some (new, n)
             else if under old p
                  then Some ((new ++ string_drop (String.length old) p)%string, n)
                  else None)
          (map_to_list m)).

(** [os.RemoveAll]: a missing path is not an error. *)
Definition os_RemoveAll (path : string) : M (option error) :=
  e ← tick;
  match e with
  | Some e => mret (Some (PathError "unlinkat" path e))
  | None => m ← gets fs; modify (set_fs (prune path m));; mret None
  end.

(** [os.Rename]: Go refuses an existing directory as the new name before
    it asks the kernel; the kernel replaces an existing file. *)
Definition os_Rename (oldname newname : string) : M (option error) :=
  e ← tick;
  match e with
  | Some e => mret (Some (LinkError "rename" oldname newname e))
  | None =>
      m ← gets fs;
      match m !! oldname, m !! newname with
      | None, _ => mret (Some (LinkError "rename" oldname newname ENOENT))
      | Some _, Some (NDir _) =>
          mret (Some (LinkError "rename" oldname newname EEXIST))
      | Some (NDir _), Some _ =>
          mret (Some (LinkError "rename" oldname newname ENOTDIR))
      | Some (NDir _), None =>
          if under oldname newname
          then mret (Some (LinkError "rename" oldname newname EINVAL))
          else modify (set_fs (graft oldname newname m ∪ prune oldname m));;
               mret None
      | Some n, _ =>
          modify (set_fs (<[newname := n]> (delete oldname m)));; mret None
      end
  end.

(** [os.MkdirAll]. *)
Definition os_MkdirAll (path : string) (perm : Z) : M (option error) :=
  e ← tick;
  match e with
  | Some e => mret (Some (PathError "mkdir" path e))
  | None =>
      w ← gets id;
      match fs w !! path with
      | None =>
          modify (set_fs (<[path := NDir (new_perm perm w)]> (fs w)));; mret None
      | Some _ =>
          mret (match resolve (fs w) path with
                | inl (_, NDir _) => None
                | inl _ => Some (PathError "mkdir" path ENOTDIR)
                | inr _ => Some (PathError "mkdir" path EEXIST)
                end)
      end
  end.

(** [os.ReadDir]: the entries of a directory, sorted by file name. *)
Definition entry_le (a b : DirEntry) : Prop :=
  Is_true (String.leb (de_Name a) (de_Name b)).

#[global] Instance entry_le_dec a b : Decision (entry_le a b).
Proof. unfold entry_le. apply _. Defined.

Definition os_ReadDir (name : string) : M (result (list DirEntry)) :=
  e ← tick;
  match e with
  | Some e => mret (Err (PathError "open" name e))
  | None =>
      m ← gets fs;
      mret (match resolve m name with
            | inl (q, NDir _) =>
                Ok (merge_sort entry_le
                      ((fun '(c, n) => {| de_Name := c; de_node := n |})
                         <$> children m q))
            | inl _ => Err (PathError "readdirent" name ENOTDIR)
            | inr (_, e) => Err (PathError "open" name e)
            end)
  end.

(** [entry.Info()]: the entry itself, a symbolic link not followed. *)
Definition de_Info (dir : string) (e : DirEntry) : M (result FileInfo) :=
  r ← tick;
  mret (match r with
        | Some err => Err (PathError "lstat" (below dir ++ de_Name e) err)
        | None => Ok (info_of (de_node e))
        end).

(** [os.OpenFile]. *)
Definition os_OpenFile (p : Proc) (name : string) (flag perm : Z)
  : M (result File) :=
  e ← tick;
  match e with
  | Some e => mret (Err (PathError "open" name e))
  | None =>
      w ← gets id;
      if has_flag flag O_CREATE && has_flag flag O_EXCL then
        match fs w !! name with
        | Some _ => mret (Err (PathError "open" name EEXIST))
        | None =>
            modify (set_fs (<[name := NFile [] (new_perm perm w)]> (fs w)));;
            f ← open_fd p name name; mret (Ok f)
        end
      else
        match resolve (fs w) name with
        | inl (q, NFile c pm) =>
            (if has_flag flag O_TRUNC
             then modify (set_fs (<[q := NFile [] pm]> (fs w)))
             else mret tt);;
            f ← open_fd p name q; mret (Ok f)
        | inl (q, _) =>
            if has_flag flag O_RDWR || has_flag flag O_CREATE
            then mret (Err (PathError "open" name EISDIR))
            else f ← open_fd p name q; mret (Ok f)
        | inr (q, ENOENT) =>
            if has_flag flag O_CREATE then
              modify (set_fs (<[q := NFile [] (new_perm perm w)]> (fs w)));;
              f ← open_fd p name q; mret (Ok f)
            else mret (Err (PathError "open" name ENOENT))
        | inr (_, e) => mret (Err (PathError "open" name e))
        end
  end.

(** [os.Open] and [os.Create]. *)
Definition os_Open (p : Proc) (name : string) : M (result File) :=
  os_OpenFile p name O_RDONLY 0.

Definition os_Create (p : Proc) (name : string) : M (result File) :=
  os_OpenFile p name (Z.lor O_RDWR (Z.lor O_CREATE O_TRUNC)) 438. (* 0666 *)

(** ** Reading and writing through descriptors *)

Definition zero_byte : Byte.byte := Byte.x00.

(** The content [c] after [data] is written at offset [off]. *)
Definition write_at (off : nat) (data c : list Byte.byte) : list Byte.byte :=
  take off c ++ replicate (off - length c) zero_byte ++ data
    ++ drop (off + length data) c.

(** Transfer [data] to the description [(p, fd)] at its offset. *)
Definition put (p : Proc) (fd : Z) (data : list Byte.byte) : M unit :=
  w ← gets id;
  match fdtab w !! (pid p, fd) with
  | Some d =>
      modify (set_fdtab (<[(pid p, fd) :=
                {| fd_path := fd_path d; fd_off := fd_off d + length data |}]>
                (fdtab w)));;
      match fs w !! fd_path d with
      | Some (NFile c pm) =>
          modify (set_fs (<[fd_path d := NFile (write_at (fd_off d) data c) pm]>
                            (fs w)))
      | _ => mret tt
      end
  | None => mret tt
  end.

(** [f.Write(data)]: an error after a short write reports what failed. *)
Definition file_Write (p : Proc) (f : File) (data : list Byte.byte)
  : M (result nat) :=
  t ← gets fdtab;
  match t !! (pid p, f_fd f) with
  | None => mret (Err (ErrClosed "write" (f_name f)))
  | Some _ =>
      flt ← tick_io;
      match flt with
      | Pass => put p (f_fd f) data;; mret (Ok (length data))
      | Short n e =>
          put p (f_fd f) (take n data);;
          mret (Err (PathError "write" (f_name f) (errno_of e)))
      | Fail e => mret (Err (PathError "write" (f_name f) (errno_of e)))
      end
  end.

(** [io.Copy(dst, src)]: everything from the offset of [src] to its end. *)
Definition io_Copy (p : Proc) (dst src : File) : M (result nat) :=
  w ← gets id;
  match fdtab w !! (pid p, f_fd src), fdtab w !! (pid p, f_fd dst) with
  | None, _ => mret (Err (ErrClosed "read" (f_name src)))
  | _, None => mret (Err (ErrClosed "write" (f_name dst)))
  | Some s, Some _ =>
      match fs w !! fd_path s with
      | Some (NDir _) => mret (Err (PathError "read" (f_name src) EISDIR))
      | other =>
          let data :=
            match other with
            | Some (NFile c _) => drop (fd_off s) c
            | _ => []
            end in
          flt ← tick_io;
          match flt with
          | Pass => put p (f_fd dst) data;; mret (Ok (length data))
          | Short n e =>
              put p (f_fd dst) (take n data);;
              mret (Err (PathError "write" (f_name dst) (errno_of e)))
          | Fail e => mret (Err (PathError "read" (f_name src) (errno_of e)))
          end
      end
  end.

(** [f.Sync()]. *)
Definition file_Sync (p : Proc) (f : File) : M (option error) :=
  t ← gets fdtab;
  match t !! (pid p, f_fd f) with
  | None => mret (Some (ErrClosed "sync" (f_name f)))
  | Some _ =>
      e ← tick;
      mret (match e with
            | Some e => Some (PathError "sync" (f_name f) e)
            | None => None
            end)
  end.

(** Closing a descriptor releases it even when [close] reports an error,
    and drops every record lock the process holds on the same file. *)
Definition release (p : Proc) (fd : Z) (path : string) (w : World) : World :=
  set_locks
    (filter (fun r => ¬ (lk_pid r = pid p ∧ lk_path r = path)) (locks w))
    (set_fdtab (delete (pid p, fd) (fdtab w)) w).

(** [f.Close()]: the file afterwards, and the error. *)
Definition file_Close (p : Proc) (f : File) : M (File * option error) :=
  t ← gets fdtab;
  match t !! (pid p, f_fd f) with
  | None => mret (f, Some (ErrClosed "close" (f_name f)))
  | Some d =>
      e ← tick;
      modify (release p (f_fd f) (fd_path d));;
      mret ({| f_name := f_name f; f_fd := -1 |},
            match e with
            | Some e => Some (PathError "close" (f_name f) e)
            | None => None
            end)
  end.

(** [os.ReadFile]. *)
Definition os_ReadFile (name : string) : M (result (list Byte.byte)) :=
  e ← tick;
  match e with
  | Some e => mret (Err (PathError "open" name e))
  | None =>
      m ← gets fs;
      mret (match resolve m name with
            | inl (_, NFile c _) => Ok c
            | inl _ => Err (PathError "read" name EISDIR)
            | inr (_, e) => Err (PathError "open" name e)
            end)
  end.

(** ** os.CreateTemp *)

Fixpoint lastIndex (s : string) (c : ascii) : option nat :=
  match s with
  | EmptyString => None
  | String a s' =>
      match lastIndex s' c with
      | Some i => Some (S i)
      | None => if Ascii.eqb a c then Some O else None
      end
  end.

(** [prefixAndSuffix]: [pattern] split at its last ["*"]. *)
Definition prefixAndSuffix (pattern : string) : result (string * string) :=
  if Contains pattern "/" then Err (ErrPatternHasSeparator pattern)
  else match lastIndex pattern "*" with
       | Some pos =>
           Ok (String.substring 0 pos pattern, string_drop (S pos) pattern)
       | None => Ok (pattern, ""%string)
       end.

Definition joinPath (dir name : string) : string := (below dir ++ name)%string.

(** The first free candidate name within [tries] draws of the generator,
    and the generator's next state. *)
Fixpoint createTemp_try (tries : nat) (m : gmap string node)
    (dir prefix suffix : string) (r : nat) : option (string * nat) :=
  match tries with
  | O => None
  | S k =>
      let name := joinPath dir (prefix ++ Itoa (Z.of_nat r) ++ suffix) in
      match m !! name with
      | None => Some (name, S r)
      | Some _ => createTemp_try k m dir prefix suffix (S r)
      end
  end.

Definition max_tries : nat := Z.to_nat 10000.
#[global] Arguments max_tries : simpl never.

Definition os_CreateTemp (p : Proc) (dir pattern : string) : M (result File) :=
  let dir := if String.eqb dir "" then os_TempDir p else dir in
  match prefixAndSuffix pattern with
  | Err e => mret (Err e)
  | Ok (prefix, suffix) =>
      w ← gets id;
      e ← tick;
      match e with
      | Some e =>
          mret (Err (PathError "open"
                       (joinPath dir (prefix ++ Itoa (Z.of_nat (rand w)) ++ suffix)) e))
      | None =>
          match createTemp_try max_tries (fs w) dir prefix suffix (rand w) with
          | None =>
              mret (Err (PathError "createtemp" (prefix ++ "*" ++ suffix) EEXIST))
          | Some (name, r) =>
              modify (set_rand r);;
              modify (set_fs (<[name := NFile [] (new_perm 384 w)]> (fs w)));;
              f ← open_fd p name name; mret (Ok f)          (* 0600 *)
          end
      end
  end.

(** ** fcntl record locks *)

Definition F_RDLCK : Z := 0.
Definition F_WRLCK : Z := 1.
Definition F_UNLCK : Z := 2.
Definition F_GETLK : Z := 5.
Definition F_SETLK : Z := 6.
Definition F_SETLKW : Z := 7.

(** [syscall.Flock_t]. *)
Record Flock_t := {
  l_Type : Z; l_Whence : Z; l_Start : Z; l_Len : Z; l_Pid : Z
}.

Definition le_end (a : Z) (hi : option Z) : bool :=
  match hi with Some h => a <=? h | None => true end.

Definition overlaps (lo1 : Z) (hi1 : option Z) (lo2 : Z) (hi2 : option Z)
  : bool := le_end lo1 hi2 && le_end lo2 hi1.

(** The byte range a [Flock_t] denotes on a file of [size] bytes whose
    descriptor stands at [off]; [None] when it starts before byte 0. *)
Definition flock_range (ft : Flock_t) (off size : Z) : option (Z * option Z) :=
  let base :=
    if l_Whence ft =? 0 then Some 0
    else if l_Whence ft =? 1 then Some off
    else if l_Whence ft =? 2 then Some size
    else None in
  match base with
  | None => None
  | Some b =>
      let start := b + l_Start ft in
      let '(lo, hi) :=
        if l_Len ft =? 0 then (start, None)
        else if 0 <? l_Len ft then (start, Some (start + l_Len ft - 1))
        else (start + l_Len ft, Some (start - 1)) in
      if lo <? 0 then None else Some (lo, hi)
  end.

(** What is left of a lock of the caller once [lo .. hi] is carved out. *)
Definition carve (lo : Z) (hi : option Z) (r : lockrec) : list lockrec :=
  if overlaps (lk_lo r) (lk_hi r) lo hi then
    (if lk_lo r <? lo
     then [ {| lk_path := lk_path r; lk_pid := lk_pid r; lk_excl := lk_excl r;
               lk_lo := lk_lo r; lk_hi := Some (lo - 1) |} ]
     else [])
    ++ match hi with
       | Some h =>
           if le_end (h + 1) (lk_hi r)
           then [ {| lk_path := lk_path r; lk_pid := lk_pid r;
                     lk_excl := lk_excl r; lk_lo := h + 1; lk_hi := lk_hi r |} ]
           else []
       | None => []
       end
  else [r].

Definition own (p : Proc) (path : string) (r : lockrec) : bool :=
  bool_decide (lk_pid r = pid p) && String.eqb (lk_path r) path.

(** A lock of another process that stands in the way. *)
Definition conflict (p : Proc) (path : string) (excl : bool)
    (lo : Z) (hi : option Z) (ls : list lockrec) : option lockrec :=
  List.find (fun r => String.eqb (lk_path r) path
                      && negb (bool_decide (lk_pid r = pid p))
                      && (excl || lk_excl r)
                      && overlaps (lk_lo r) (lk_hi r) lo hi) ls.

(** The caller's locks on [path] with [lo .. hi] replaced by [new]. *)
Definition relock (p : Proc) (path : string) (lo : Z) (hi : option Z)
    (new : list lockrec) (ls : list lockrec) : list lockrec :=
  new ++ List.flat_map (fun r => if own p path r then carve lo hi r else [r]) ls.

(** The result of a call that may not return. *)
Inductive Outcome (A : Type) := Returned (a : A) | Blocked.
Arguments Returned {A} a.
Arguments Blocked {A}.

Definition file_size (m : gmap string node) (path : string) : Z :=
  match m !! path with
  | Some (NFile c _) => Z.of_nat (length c)
  | _ => 0
  end.

(** [syscall.FcntlFlock(fd, cmd, lk)]: the lock structure afterwards
    ([F_GETLK] writes into it) and the error.  [F_SETLKW] does not return
    while another process holds a conflicting lock. *)
Definition syscall_FcntlFlock (p : Proc) (fd cmd : Z) (lk : Flock_t)
  : M (Outcome (Flock_t * option error)) :=
  w ← gets id;
  match fdtab w !! (pid p, fd) with
  | None => mret (Returned (lk, Some (SyscallError EBADF)))
  | Some d =>
      e ← tick;
      match e, flock_range lk (Z.of_nat (fd_off d)) (file_size (fs w) (fd_path d)) with
      | Some e, _ => mret (Returned (lk, Some (SyscallError e)))
      | None, None => mret (Returned (lk, Some (SyscallError EINVAL)))
      | None, Some (lo, hi) =>
          let path := fd_path d in
          if cmd =? F_GETLK then
            mret (Returned
              (match conflict p path (l_Type lk =? F_WRLCK) lo hi (locks w) with
               | Some r =>
                   ({| l_Type := if lk_excl r then F_WRLCK else F_RDLCK;
                       l_Whence := 0; l_Start := lk_lo r;
                       l_Len := match lk_hi r with
                                | Some h => h - lk_lo r + 1
                                | None => 0
                                end;
                       l_Pid := lk_pid r |}, None)
               | None =>
                   ({| l_Type := F_UNLCK; l_Whence := l_Whence lk;
                       l_Start := l_Start lk; l_Len := l_Len lk;
                       l_Pid := l_Pid lk |}, None)
               end))
          else if (cmd =? F_SETLK) || (cmd =? F_SETLKW) then
            if l_Type lk =? F_UNLCK then
              modify (set_locks (relock p path lo hi [] (locks w)));;
              mret (Returned (lk, None))
            else if (l_Type lk =? F_RDLCK) || (l_Type lk =? F_WRLCK) then
              match conflict p path (l_Type lk =? F_WRLCK) lo hi (locks w) with
              | Some _ =>
                  if cmd =? F_SETLKW then mret Blocked
                  else mret (Returned (lk, Some (SyscallError EAGAIN)))
              | None =>
                  modify (set_locks
                    (relock p path lo hi
                       [ {| lk_path := path; lk_pid := pid p;
                            lk_excl := (l_Type lk =? F_WRLCK);
                            lk_lo := lo; lk_hi := hi |} ] (locks w)));;
                  mret (Returned (lk, None))
              end
            else mret (Returned (lk, Some (SyscallError EINVAL)))
          else mret (Returned (lk, Some (SyscallError EINVAL)))
      end
  end.

(** [os.Exit]: the kernel closes the descriptors of the process and
    drops its locks; deferred calls do not run. *)
Definition os_Exit (p : Proc) : M unit :=
  modify (fun w =>
    set_locks (filter (fun r => lk_pid r ≠ pid p) (locks w))
      (set_fdtab (filter (fun kv => kv.1.1 ≠ pid p) (fdtab w)) w)).

(** [net.Listen]: binding the listener is outside the model and can only
    fail through the environment. *)
Definition net_Listen (addr : string) : M (option error) :=
  e ← tick;
  mret (match e with
        | Some e => Some (SyscallError e)
        | None => None
        end).

End Os.
Export Os.

(* ===================================================================== *)
(** * path/filepath                                                       *)
(* ===================================================================== *)

Module Filepath.

(** The elements of a path between its separators. *)
Fixpoint split (s : string) : list string :=
  match s with
  | EmptyString => [EmptyString]
  | String c s' =>
      match split s' with
      | [] => []
      | h :: t => if Ascii.eqb c "/" then EmptyString :: h :: t
                  else String c h :: t
      end
  end.

(** One element pushed on the cleaned elements seen so far (innermost
    first): empty and ["."] elements vanish, [".."] cancels its parent. *)
Definition push (rooted : bool) (stack : list string) (el : string)
  : list string :=
  if String.eqb el "" || String.eqb el "." then stack
  else if String.eqb el ".." then
    match stack with
    | top :: rest => if String.eqb top ".." then el :: stack else rest
    | [] => if rooted then [] else [el]
    end
  else el :: stack.

(** [filepath.Clean]. *)
Definition Clean (path : string) : string :=
  let rooted := String.prefix "/" path in
  let body := String.concat "/" (rev (fold_left (push rooted) (split path) [])) in
  if rooted then ("/" ++ body)%string
  else if String.eqb body "" then "."%string else body.

(** [filepath.Join]. *)
Fixpoint Join (elem : list string) : string :=
  match elem with
  | [] => EmptyString
  | e :: rest =>
      if String.eqb e "" then Join rest else Clean (String.concat "/" elem)
  end.

End Filepath.

(* ===================================================================== *)
(** * package fhandler                                                    *)
(* ===================================================================== *)

Module Fhandler.

(** [CopyFile]: the deferred [output.Close()] runs before the deferred
    [input.Close()], and its error replaces the one being returned. *)
Definition CopyFile (p : Proc) (src dst : string) : M (option error) :=
  r ← os_Open p src;
  match r with
  | Err e => mret (Some e)
  | Ok input =>
      err ← (r ← os_Create p dst;
             match r with
             | Err e => mret (Some e)
             | Ok output =>
                 err ← (r ← io_Copy p output input;
                        match r with
                        | Err e => mret (Some e)
                        | Ok _ =>
                            e ← file_Sync p output;
                            match e with
                            | Some e => mret (Some e)
                            | None =>
                                r ← os_Stat src;
                                match r with
                                | Err e => mret (Some e)
                                | Ok si => os_Chmod dst (fi_Mode si)
                                end
                            end
                        end);
                 '(_, e) ← file_Close p output;
                 mret (match e with Some e => Some e | None => err end)
             end);
      file_Close p input;;
      mret err
  end.

(** Both paths grow with every level of [CopyDir], and the kernel refuses
    a path longer than [PATH_MAX] with [ENAMETOOLONG]: the recursion is
    cut at that depth with that error. *)
Definition PATH_MAX : nat := Z.to_nat 4096.

Fixpoint CopyDir_at (depth : nat) (p : Proc) (src dst : string)
  : M (option error) :=
  match depth with
  | O => mret (Some (PathError "stat" src ENAMETOOLONG))
  | S depth =>
      let src := Filepath.Clean src in
      let dst := Filepath.Clean dst in
      r ← os_Stat src;
      match r with
      | Err e => mret (Some e)
      | Ok fileInfo =>
          if negb (fi_IsDir fileInfo) then mret (Some ErrSourceDir)
          else
            r ← os_Stat dst;
            match r with
            | Ok _ => mret (Some ErrDestinationExists)
            | Err e =>
                if negb (is_ErrNotExist e) then mret (Some e)
                else
                  e ← os_MkdirAll dst (fi_Mode fileInfo);
                  match e with
                  | Some e => mret (Some e)
                  | None =>
                      r ← os_ReadDir src;
                      match r with
                      | Err e => mret (Some e)
                      | Ok entries =>
                          (fix each (entries : list DirEntry) : M (option error) :=
                             match entries with
                             | [] => mret None
                             | entry :: rest =>
                                 let srcPath := Filepath.Join [src; de_Name entry] in
                                 let dstPath := Filepath.Join [dst; de_Name entry] in
                                 if de_IsDir entry then
                                   e ← CopyDir_at depth p srcPath dstPath;
                                   match e with
                                   | Some e => mret (Some e)
                                   | None => each rest
                                   end
                                 else
                                   r ← de_Info src entry;
                                   match r with
                                   | Err e => mret (Some e)
                                   | Ok fsInfo =>
                                       if negb (Z.land (fi_Mode fsInfo) ModeSymlink =? 0)
                                       then each rest
                                       else
                                         e ← CopyFile p srcPath dstPath;
                                         match e with
                                         | Some e => mret (Some e)
                                         | None => each rest
                                         end
                                   end
                             end) entries
                      end
                  end
            end
      end
  end.

Definition CopyDir : Proc -> string -> string -> M (option error) :=
  CopyDir_at PATH_MAX.

(** [Rename]. *)
Definition Rename (p : Proc) (src dst : string) : M (option error) :=
  err ← os_Rename src dst;
  match err with
  | Some e =>
      if HasSuffix (error_Error e) "invalid cross-device link" then
        r ← os_Stat src;
        match r with
        | Err err => mret (Some err)
        | Ok fileInfo =>
            if fi_IsDir fileInfo then
              err ← CopyDir p src dst;
              match err with
              | Some err => mret (Some err)
              | None =>
                  err ← os_RemoveAll src;
                  match err with
                  | Some err => mret (Some err)
                  | None => mret None
                  end
              end
            else
              err ← CopyFile p src dst;
              match err with
              | Some err => mret (Some err)
              | None =>
                  err ← os_Remove src;
                  match err with
                  | Some err => mret (Some err)
                  | None => mret None
                  end
              end
        end
      else mret None
  | None => mret None
  end.

(** [writeTmpFile]. *)
Definition writeTmpFile (p : Proc) (dir prefix : string)
    (content : list Byte.byte) : M (result string) :=
  let prefix := if negb (Contains prefix "*") then (prefix ++ "_*")%string
                else prefix in
  r ← os_CreateTemp p dir prefix;
  match r with
  | Err e => mret (Err e)
  | Ok tmpFile =>
      r ← file_Write p tmpFile content;
      match r with
      | Err e =>
          os_Remove (f_name tmpFile);;
          file_Close p tmpFile;;
          mret (Err e)
      | Ok _ =>
          file_Close p tmpFile;;
          mret (Ok (f_name tmpFile))
      end
  end.

(** [WriteAtomic]. *)
Definition WriteAtomic (p : Proc) (dir prefix file : string)
    (content : list Byte.byte) (permission : Z) : M (option error) :=
  r ← writeTmpFile p dir prefix content;
  match r with
  | Err e => mret (Some e)
  | Ok tmpName =>
      err ← os_Chmod tmpName permission;
      match err with
      | Some e => mret (Some e)
      | None => Rename p tmpName file
      end
  end.

(** [WriteAtomicTmpDir]. *)
Definition WriteAtomicTmpDir (p : Proc) (prefix file : string)
    (content : list Byte.byte) (permission : Z) : M (option error) :=
  WriteAtomic p (os_TempDir p) prefix file content permission.

(** [WriteAtomicTmp]. *)
Definition WriteAtomicTmp (p : Proc) (prefix : string)
    (content : list Byte.byte) : M (result string) :=
  r ← writeTmpFile p (os_TempDir p) prefix content;
  match r with
  | Err e => mret (Err e)
  | Ok tmpName => mret (Ok tmpName)
  end.

End Fhandler.
Export Fhandler.

(* ===================================================================== *)
(** * package lockfile                                                    *)
(* ===================================================================== *)

Module Lockfile.

(** A Go call either completes or panics. *)
Inductive Run (A : Type) := Normal (a : A) | Panic (msg : string).
Arguments Normal {A} a.
Arguments Panic {A} msg.

Definition nil_dereference : string :=
  "runtime error: invalid memory address or nil pointer dereference".

(** [FcntlLockfile].  Its methods have pointer receivers: each returns the
    handle as the call leaves it.  [l.file] is the only reference to the
    [*os.File] that [lock] opens, so the file is held by value. *)
Record FcntlLockfile := {
  Path : string;
  file : option File;
  maintainFile : bool;
  ft : option Flock_t
}.

Definition set_file (f : option File) (l : FcntlLockfile) : FcntlLockfile :=
  {| Path := Path l; file := f; maintainFile := maintainFile l; ft := ft l |}.
Definition set_ft (t : option Flock_t) (l : FcntlLockfile) : FcntlLockfile :=
  {| Path := Path l; file := file l; maintainFile := maintainFile l; ft := t |}.

Definition NewFcntlLockfile (path : string) : FcntlLockfile :=
  {| Path := path; file := None; maintainFile := true; ft := None |}.

Definition NewFcntlLockfileFromFile (f : File) : FcntlLockfile :=
  {| Path := ""; file := Some f; maintainFile := false; ft := None |}.

(** The conversions [int16(whence)] and [int32(os.Getpid())]. *)
Definition int16 (z : Z) : Z := (z + 2 ^ 15) mod 2 ^ 16 - 2 ^ 15.
Definition int32 (z : Z) : Z := (z + 2 ^ 31) mod 2 ^ 32 - 2 ^ 31.

Definition SeekStart : Z := 0.

(** [l.file.Close()], which is harmless on a nil file. *)
Definition close_file (p : Proc) (l : FcntlLockfile) : M FcntlLockfile :=
  match file l with
  | Some f => '(f', _) ← file_Close p f; mret (set_file (Some f') l)
  | None => mret l
  end.

(** [(l *FcntlLockfile) lock]. *)
Definition lock (p : Proc) (exclusive blocking : bool)
    (offset whence len : Z) (l : FcntlLockfile)
  : M (FcntlLockfile * Outcome (option error)) :=
  '(l, err) ← match file l with
              | None =>
                  r ← os_OpenFile p (Path l) (Z.lor O_CREATE O_RDWR) 438; (* 0666 *)
                  match r with
                  | Err err => mret (l, Some err)
                  | Ok f => mret (set_file (Some f) l, None)
                  end
              | Some _ => mret (l, None)
              end;
  match err with
  | Some err => mret (l, Returned (Some err))
  | None =>
      let ft0 := {| l_Type := if exclusive then F_WRLCK else F_RDLCK;
                    l_Whence := int16 whence; l_Start := offset; l_Len := len;
                    l_Pid := int32 (pid p) |} in
      let l := set_ft (Some ft0) l in
      let flags := if blocking then F_SETLKW else F_SETLK in
      r ← syscall_FcntlFlock p (File_Fd (file l)) flags ft0;
      match r with
      | Blocked => mret (l, Blocked)
      | Returned (_, Some _) =>
          l ← (if maintainFile l then close_file p l else mret l);
          mret (l, Returned (Some ErrFailedToLock))
      | Returned (_, None) => mret (l, Returned None)
      end
  end.

(** [(l *FcntlLockfile) unlock]; an error of [fcntl] is only logged. *)
Definition unlock (p : Proc) (offset whence len : Z) (l : FcntlLockfile)
  : M (Run FcntlLockfile) :=
  match ft l with
  | None => mret (Panic nil_dereference)
  | Some ft0 =>
      let ft1 := {| l_Type := F_UNLCK; l_Whence := int16 whence;
                    l_Start := offset; l_Len := len; l_Pid := l_Pid ft0 |} in
      let l := set_ft (Some ft1) l in
      syscall_FcntlFlock p (File_Fd (file l)) F_SETLK ft1;;
      l ← (if maintainFile l then close_file p l else mret l);
      mret (Normal l)
  end.

(** [(l *FcntlLockfile) Owner]. *)
Definition Owner (p : Proc) (l : FcntlLockfile) : M (Run Z) :=
  match ft l with
  | None => mret (Panic nil_dereference)
  | Some ft0 =>
      r ← syscall_FcntlFlock p (File_Fd (file l)) F_GETLK ft0;
      mret (Normal
              (match r with
               | Returned (ft1, None) =>
                   if l_Type ft1 =? F_UNLCK then -1 else l_Pid ft1
               | _ => -1
               end))
  end.

Definition LockRead (p : Proc) := lock p false false 0 SeekStart 0.
Definition LockWrite (p : Proc) := lock p true false 0 SeekStart 0.
Definition LockReadB (p : Proc) := lock p false true 0 SeekStart 0.
Definition LockWriteB (p : Proc) := lock p true true 0 SeekStart 0.
Definition Unlock (p : Proc) := unlock p 0 SeekStart 0.

Definition LockReadRange (p : Proc) (offset whence len : Z) :=
  lock p false false offset whence len.
Definition LockWriteRange (p : Proc) (offset whence len : Z) :=
  lock p true false offset whence len.
Definition LockReadRangeB (p : Proc) (offset whence len : Z) :=
  lock p false true offset whence len.
Definition LockWriteRangeB (p : Proc) (offset whence len : Z) :=
  lock p true true offset whence len.
Definition UnlockRange (p : Proc) (offset whence len : Z) :=
  unlock p offset whence len.

End Lockfile.
Export Lockfile.

(* ===================================================================== *)
(** * package main (cmd/counter)                                          *)
(* ===================================================================== *)

Module Counter.
Import Json.

(** The package-level variables; requests run one at a time under
    [lock sync.RWMutex], so a handler is a function of this state. *)
Record Globals := {
  fileName : string;
  listenAddr : string;
  number : float64
}.

Definition set_number (x : float64) (g : Globals) : Globals :=
  {| fileName := fileName g; listenAddr := listenAddr g; number := x |}.

(** The flag defaults of [init]. *)
Definition default_fileName : string := "counter.txt".
Definition default_listenAddr : string := ":8080".

(** ** http.ResponseWriter *)

Record ResponseWriter := {
  wroteHeader : bool; status : Z; body : list Byte.byte
}.

Definition new_response : ResponseWriter :=
  {| wroteHeader := false; status := 0; body := [] |}.

Definition StatusOK : Z := 200.
Definition StatusServiceUnavailable : Z := 503.

Definition WriteHeader (code : Z) (w : ResponseWriter) : ResponseWriter :=
  if wroteHeader w then w
  else {| wroteHeader := true; status := code; body := body w |}.

(** [w.Write]: the first write sends status 200 unless a header was
    written before. *)
Definition Write (data : list Byte.byte) (w : ResponseWriter)
  : ResponseWriter :=
  let w := WriteHeader StatusOK w in
  {| wroteHeader := true; status := status w; body := body w ++ data |}.

(** What the client receives once the handler has returned. *)
Definition reply (w : ResponseWriter) : Z * list Byte.byte :=
  (if wroteHeader w then status w else StatusOK, body w).

(** ** The handlers *)

(** [latestCounter]. *)
Definition latestCounter (g : Globals) (w : ResponseWriter) : ResponseWriter :=
  Write (bytes (Itoa (to_int (number g)))) w.

(** [hostname]. *)
Definition hostname (cd : Codec) (p : Proc) (g : Globals) (w : ResponseWriter)
  : M (Globals * ResponseWriter) :=
  let g := set_number (incr (number g)) g in
  match Marshal cd (number g) with
  | Err _ =>
      let g := set_number (decr (number g)) g in
      mret (g, WriteHeader StatusServiceUnavailable w)
  | Ok out =>
      err ← WriteAtomicTmpDir p "counter" (fileName g) out 420;   (* 0644 *)
      match err with
      | Some _ =>
          let g := set_number (decr (number g)) g in
          mret (g, WriteHeader StatusServiceUnavailable w)
      | None =>
          mret (g, Write (bytes (Itoa (to_int (number g)))) w)
      end
  end.

(** ** Start-up *)

(** [initFile]. *)
Definition initFile (cd : Codec) (p : Proc) (g : Globals) (fileName : string)
  : M (option error) :=
  match Marshal cd (number g) with
  | Err err => mret (Some err)
  | Ok out => WriteAtomicTmpDir p "counter" fileName out 420
  end.

(** [createFile]. *)
Definition createFile (cd : Codec) (p : Proc) (g : Globals) (fileName : string)
  : M (option error) :=
  r ← os_Stat fileName;
  match r with
  | Err err =>
      if is_ErrNotExist err then initFile cd p g fileName
      else mret (Some err)
  | Ok _ => mret None
  end.

(** How [main] leaves start-up: the process exits, [main] returns, the
    server runs, or (never, with a non-blocking lock) the call hangs. *)
Inductive Startup :=
| Exit (code : Z)
| Return
| Serving (g : Globals) (flock : FcntlLockfile)
| Hang.

(** The path of the lock file. *)
Definition lockFile (p : Proc) : string :=
  Filepath.Join [os_TempDir p; "counter.lock"%string].
#[global] Arguments lockFile : simpl never.

(** [main] up to [server.Serve], with the flags as parsed. *)
Definition main (cd : Codec) (p : Proc) (file listen : string) : M Startup :=
  let g := {| fileName := file; listenAddr := listen; number := zero |} in
  let flock := NewFcntlLockfile (lockFile p) in
  '(flock, r) ← LockWrite p flock;
  match r with
  | Blocked => mret Hang
  | Returned (Some _) => os_Exit p;; mret (Exit 1)
  | Returned None =>
      if String.eqb (listenAddr g) "" || String.eqb (fileName g) "" then
        os_Exit p;; mret (Exit 1)
      else
        err ← createFile cd p g (fileName g);
        match err with
        | Some _ => os_Exit p;; mret (Exit 1)
        | None =>
            r ← os_ReadFile (fileName g);
            match r with
            | Err _ => os_Exit p;; mret (Exit 1)
            | Ok counterContent =>
                match Unmarshal cd counterContent (number g) with
                | Err _ => os_Exit p;; mret (Exit 1)
                | Ok x =>
                    let g := set_number x g in
                    let addr := if String.eqb (listenAddr g) "" then ":http"%string
                                else listenAddr g in
                    err ← net_Listen addr;
                    match err with
                    | Some _ => Unlock p flock;; mret Return
                    | None => mret (Serving g flock)
                    end
                end
            end
        end
  end.

End Counter.
Export Counter.

(* ===================================================================== *)
(** * Vocabulary of the statements, and the worlds of the examples        *)
(* ===================================================================== *)

Module Scenario.
Import Json.

(** The last byte of a string. *)
Fixpoint last_char (s : string) : option ascii :=
  match s with
  | EmptyString => None
  | String c EmptyString => Some c
  | String _ s' => last_char s'
  end.

(** No system call of the script reports a cross-device link: the staging
    directory and the target are on one file system. *)
Definition same_device (s : list Fault) : Prop :=
  Forall (fun f => fault_errno f ≠ Some EXDEV) s.

(** No environment fault at all. *)
Definition fault_free (s : list Fault) : Prop :=
  Forall (fun f => fault_errno f = None) s.

(** The persist step of [hostname] fails in world [w]: [json.Marshal] or
    [WriteAtomicTmpDir] returns an error. *)
Definition persist_fails (cd : Codec) (p : Proc) (g : Globals) (w : World)
  : Prop :=
  match Marshal cd (incr (number g)) with
  | Err _ => True
  | Ok out =>
      is_Some (WriteAtomicTmpDir p "counter" (fileName g) out 420 w).1
  end.

(** The name [os.CreateTemp] tries when its generator stands at [k]. *)
Definition temp_name (p : Proc) (k : nat) : string :=
  joinPath (os_TempDir p) ("counter_" ++ Itoa (Z.of_nat k)).
#[global] Arguments temp_name : simpl never.

(** The record lock that [main] takes at start-up. *)
Definition startup_lock (p : Proc) : lockrec :=
  {| lk_path := lockFile p; lk_pid := pid p; lk_excl := true;
     lk_lo := 0; lk_hi := None |}.

(** The staging directory holds no entry named like a temporary file of
    the service, and neither the counter file nor the lock file is named
    like one. *)
Definition staging_clear (p : Proc) (file : string) (w : World) : Prop :=
  forall k, fs w !! temp_name p k = None
            /\ temp_name p k <> file /\ temp_name p k <> lockFile p.

(** The lock file is absent or a regular file, and no other process holds
    a lock on it. *)
Definition lock_available (p : Proc) (w : World) : Prop :=
  (fs w !! lockFile p = None
   \/ exists c pm, fs w !! lockFile p = Some (NFile c pm))
  /\ conflict p (lockFile p) true 0 None (locks w) = None.

(** What a reader finds in the counter file. *)
Definition on_disk (w : World) (name : string) : option (list Byte.byte) :=
  match resolve (fs w) name with
  | inl (_, NFile c _) => Some c
  | _ => None
  end.

(** A codec that knows nothing beyond the integer fragment. *)
Definition plain_codec : Codec :=
  {| format_float := fun _ => [];
     decode_value := fun _ _ => Err (UnmarshalError "json: unsupported input") |}.

(** A machine with umask 022 on which the counter file holds [content]. *)
Definition machine (counter : option string) (faults : list Fault) : World :=
  {| fs := match counter with
           | Some content => {[ "counter.txt"%string := NFile (bytes content) 420 ]}
           | None => ∅
           end;
     umask := 18; rand := 0; script := faults; fdtab := ∅; locks := [] |}.

Definition service : Proc := {| pid := 4711; TMPDIR := "" |}.
Definition second_instance : Proc := {| pid := 4712; TMPDIR := "" |}.

Definition globals_at (x : float64) : Globals :=
  {| fileName := default_fileName; listenAddr := default_listenAddr;
     number := x |}.

(** 0.1 as a float64. *)
Definition tenth : float64 := S754_finite false 7205759403792794 (-56).

End Scenario.
Export Scenario.

(* ===================================================================== *)
(** * Vocabulary of the further properties                                *)
(* ===================================================================== *)

Module Session.
Import Json.

(** [k] requests to /hostname served one after the other: the package
    variables after the last one. *)
Fixpoint hostname_times (cd : Codec) (p : Proc) (k : nat) (g : Globals)
  : M Globals :=
  match k with
  | O => mret g
  | S k => '(g', _) ← hostname cd p g new_response; hostname_times cd p k g'
  end.

(** The record locks that processes other than [p] hold. *)
Definition others (p : Proc) (ls : list lockrec) : list lockrec :=
  filter (fun r => lk_pid r ≠ pid p) ls.

(** The descriptor that the next open of [p] returns. *)
Definition next_fd (p : Proc) (w : World) : Z :=
  free_fd (size (fdtab w)) (fdtab w) (pid p) 3.

End Session.
Export Session.

Module Frame.

(** A computation keeps a relation between the world before and after. *)
Definition keeps {A} (R : World -> World -> Prop) (c : M A) : Prop :=
  forall w, R w (c w).2.

(** The locks of the other processes are as before. *)
Definition same_others (p : Proc) (w w' : World) : Prop :=
  others p (locks w') = others p (locks w).

(** Every entry of the name space is as before; entries may be added. *)
Definition extends_fs (w w' : World) : Prop :=
  forall x, is_Some (fs w !! x) -> fs w' !! x = fs w !! x.

(** The table of open descriptors is as before. *)
Definition same_fdtab (w w' : World) : Prop := fdtab w' = fdtab w.

End Frame.
Export Frame.

Module Ranges.



End Ranges.
Export Ranges.

Module Trees.

(** The name of a directory entry: not empty, not ["."] or [".."], and
    without a separator. *)
Definition plain_name (name : string) : Prop :=
  name <> ""%string /\ name <> "."%string /\ name <> ".."%string
  /\ Contains name "/" = false.

(** A directory path in cleaned form, other than ["."] and the root. *)
Definition plain_dir (d : string) : Prop :=
  Filepath.Clean d = d /\ d <> "."%string /\ HasSuffix d "/" = false.

(** What a flat copy of [src] leaves at path [x] below [dst]: a copy of
    the regular file of that name in [src], and nothing otherwise. *)
Definition flat_copy (m : gmap string node) (src dst x : string) : option node :=
  match child_name dst x with
  | Some name =>
      match m !! (src ++ "/" ++ name)%string with
      | Some (NFile c pm) => Some (NFile c (Z.land pm ModePerm))
      | _ => None
      end
  | None => None
  end.

(** An entry that a flat copy can handle: a regular file whose mode is
    permission bits only, or a symbolic link, under a name other than
    ["."] and [".."]. *)
Definition flat_entry (name : string) (n : node) : bool :=
  negb (String.eqb name ".") && negb (String.eqb name "..")
  && match n with
     | NFile _ pm => (Z.land pm ModePerm =? pm)%Z
     | NDir _ => false
     | NSymlink _ => true
     end.

(** Every immediate entry of [dir] is a [flat_entry]. *)
Definition flat_dir (m : gmap string node) (dir : string) : Prop :=
  map_Forall (fun x n => match child_name dir x with
                         | Some name => flat_entry name n = true
                         | None => True
                         end) m.

#[global] Instance flat_dir_dec m dir : Decision (flat_dir m dir).
Proof.
  unfold flat_dir. apply map_Forall_dec. intros x n.
  destruct (child_name dir x); apply _.
Defined.

(** Nothing exists at [path] or below it. *)
Definition vacant (m : gmap string node) (path : string) : Prop :=
  map_Forall (fun x _ => x <> path /\ under path x = false) m.

#[global] Instance vacant_dec m path : Decision (vacant m path).
Proof. unfold vacant. apply _. Defined.

(** A small tree: a directory with a regular file and a symbolic link. *)
Definition data_tree : World :=
  {| fs := {[ "/srv/data"%string := NDir 493;
              "/srv/data/a.txt"%string := NFile (bytes "A") 420;
              "/srv/data/latest"%string := NSymlink "a.txt" ]};
     umask := 18; rand := 0; script := []; fdtab := ∅; locks := [] |}.

End Trees.
Export Trees.

Ltac os_unfold :=
  unfold mbind, M_bind, mret, M_ret, gets, modify, tick, tick_io in *.

(* ===================================================================== *)
(** * Facts about strings and error messages                              *)
(* ===================================================================== *)

Section Strings.
Open Scope string_scope.

Lemma string_drop_split n s : exists pre, s = pre ++ string_drop n s.
Proof.
  revert s; induction n as [|n IH]; intros s.
  - exists ""; reflexivity.
  - destruct s as [|c s]; simpl.
    + exists ""; reflexivity.
    + destruct (IH s) as [pre Hpre]. exists (String c pre).
      exact (f_equal (String c) Hpre).
Qed.

Lemma HasSuffix_split s suffix :
  HasSuffix s suffix = true -> exists pre, s = pre ++ suffix.
Proof.
  unfold HasSuffix. intros H.
  apply andb_prop in H as [_ H]. apply String.eqb_eq in H.
  destruct (string_drop_split (String.length s - String.length suffix) s)
    as [pre Hpre].
  exists pre. congruence.
Qed.

Lemma last_char_cons a s : exists c, last_char (String a s) = Some c.
Proof.
  revert a; induction s as [|b s IH]; intros a; [by exists a|].
  destruct (IH b) as [c Hc]. exists c.
  change (last_char (String a (String b s))) with (last_char (String b s)).
  exact Hc.
Qed.

Lemma last_char_app pre s :
  last_char (pre ++ s)
  = match last_char s with Some c => Some c | None => last_char pre end.
Proof.
  induction pre as [|c pre IH].
  - change ("" ++ s) with s. simpl. by destruct (last_char s).
  - change (String c pre ++ s) with (String c (pre ++ s)).
    destruct s as [|b s].
    + replace (pre ++ "") with pre; [reflexivity|].
      clear. induction pre as [|a pre IH]; [reflexivity|].
      change (String a pre ++ "") with (String a (pre ++ "")). by rewrite <- IH.
    + destruct (last_char_cons b s) as [x Hx]. rewrite Hx in IH |- *.
      destruct (pre ++ String b s) eqn:E.
      * simpl in IH. discriminate IH.
      * change (last_char (String c (String a s0)))
          with (last_char (String a s0)). exact IH.
Qed.

Lemma HasSuffix_last_char s suffix c :
  last_char suffix = Some c -> HasSuffix s suffix = true ->
  last_char s = Some c.
Proof.
  intros Hc H. apply HasSuffix_split in H as [pre ->].
  by rewrite last_char_app, Hc.
Qed.

Lemma append_assoc_rev a b c : a ++ b ++ c = (a ++ b) ++ c.
Proof.
  induction a as [|x a IH]; [reflexivity|].
  change (String x (a ++ b ++ c) = String x ((a ++ b) ++ c)). by rewrite IH.
Qed.

Lemma length_append a b :
  String.length (a ++ b) = (String.length a + String.length b)%nat.
Proof.
  induction a as [|x a IH]; [reflexivity|].
  change (S (String.length (a ++ b)) = S (String.length a + String.length b)).
  by rewrite IH.
Qed.

Lemma string_drop_app pre s : string_drop (String.length pre) (pre ++ s) = s.
Proof. induction pre as [|x pre IH]; [reflexivity | exact IH]. Qed.

Lemma HasSuffix_app pre suffix : HasSuffix (pre ++ suffix) suffix = true.
Proof.
  unfold HasSuffix. rewrite length_append.
  replace (String.length pre + String.length suffix - String.length suffix)%nat
    with (String.length pre) by lia.
  rewrite string_drop_app, String.eqb_refl, andb_true_r.
  apply Nat.leb_le. lia.
Qed.

(** Only [EXDEV] reads "invalid cross-device link". *)
Lemma LinkError_cross_device op old new e :
  HasSuffix (error_Error (LinkError op old new e)) "invalid cross-device link"
  = bool_decide (e = EXDEV).
Proof.
  destruct (HasSuffix _ _) eqn:H.
  - apply (HasSuffix_last_char _ "invalid cross-device link" "k"%char eq_refl) in H.
    cbn [error_Error] in H. rewrite !last_char_app in H.
    destruct e; try discriminate H. reflexivity.
  - destruct e; try reflexivity.
    cbn [error_Error Errno_Error] in H.
    rewrite !append_assoc_rev, HasSuffix_app in H. discriminate H.
Qed.

End Strings.

(* ===================================================================== *)
(** * Rename and the errors of the rename step                            *)
(* ===================================================================== *)

Section RenameFacts.
Open Scope string_scope.

(** Whatever error [os.Rename] returns, [Rename] looks at it only to
    recognise a cross-device link; every other error falls through to the
    final [return nil]. *)
Lemma Rename_other_error p src dst w e :
  (os_Rename src dst w).1 = Some e ->
  HasSuffix (error_Error e) "invalid cross-device link" = false ->
  Rename p src dst w = (None, (os_Rename src dst w).2).
Proof.
  intros He Hs. unfold Rename, mbind, M_bind.
  destruct (os_Rename src dst w) as [r w1]. simpl in He. subst r.
  by rewrite Hs.
Qed.

(** The errors of [os.Rename] are link errors. *)
Lemma os_Rename_error src dst w e :
  (os_Rename src dst w).1 = Some e ->
  exists en, e = LinkError "rename" src dst en
             /\ (en = EXDEV -> exists f rest, script w = f :: rest
                                   /\ fault_errno f = Some EXDEV).
Proof.
  unfold os_Rename, mbind, M_bind, tick, gets, modify, mret, M_ret.
  destruct (fault_errno (next_fault w)) as [en|] eqn:Hf; simpl.
  - intros [= <-]. exists en. split; [reflexivity|]. intros ->.
    unfold next_fault in Hf. destruct (script w) as [|f rest]; [discriminate|].
    eauto.
  - destruct (fs w !! src) as [[]|]; destruct (fs w !! dst) as [[]|];
      simpl; try destruct (under src dst); simpl;
      intros [= <-] || intros [=]; eexists; (split; [reflexivity|discriminate]).
Qed.

(** C3: a rename that fails for a reason other than a cross-device link
    must reach the caller as an error.  It does not: with the target
    directory not writable, [os.Rename] fails with "permission denied",
    yet [Rename] and with it [WriteAtomic] return nil, the target keeps
    its old content and the temporary file stays behind. *)
Theorem Rename_drops_permission_denied :
  let w := machine (Some "0") [Pass; Pass; Pass; Pass; Fail FEACCES] in
  let r := WriteAtomic service "/tmp" "counter" "counter.txt" (bytes "1") 420 w in
  (os_Rename "/tmp/counter_0" "counter.txt" (machine (Some "0") [Fail FEACCES])).1
    = Some (LinkError "rename" "/tmp/counter_0" "counter.txt" EACCES)
  /\ (Rename service "/tmp/counter_0" "counter.txt"
        (machine (Some "0") [Fail FEACCES])).1 = None
  /\ r.1 = None
  /\ on_disk r.2 "counter.txt" = Some (bytes "0")
  /\ on_disk r.2 "/tmp/counter_0" = Some (bytes "1").
Proof. vm_compute. repeat split; reflexivity. Qed.

End RenameFacts.

(* ===================================================================== *)
(** * The increment handler when the rename fails                         *)
(* ===================================================================== *)

Section HostnameSwallowed.
Import Json.
Open Scope string_scope.

(** C1: after a successful [hostname] the counter file must hold the
    serialized post-increment value.  With the rename failing on
    "permission denied" the handler answers 200 with body "1" and keeps
    [number = 1], while the file still reads "0". *)
Theorem hostname_success_without_persist :
  let w := machine (Some "0") [Pass; Pass; Pass; Pass; Fail FEACCES] in
  let r := hostname plain_codec service (globals_at zero) new_response w in
  reply r.1.2 = (200, bytes "1")
  /\ number r.1.1 = one
  /\ Marshal plain_codec (number r.1.1) = Ok (bytes "1")
  /\ on_disk r.2 "counter.txt" = Some (bytes "0").
Proof. vm_compute. repeat split; reflexivity. Qed.

End HostnameSwallowed.

(* ===================================================================== *)
(** * float64 arithmetic on whole numbers                                 *)
(* ===================================================================== *)

Section Float64Facts.

(** An exact right shift of the rounding record. *)
Lemma iter_pos_iter {A} (f : A -> A) n x :
  SpecFloat.iter_pos f n x = Pos.iter f x n.
Proof.
  revert x; induction n as [n IH|n IH|]; intros x; simpl.
  - rewrite !IH. rewrite <- Pos.iter_swap. rewrite <- !Pos.iter_swap. reflexivity.
  - rewrite !IH. reflexivity.
  - reflexivity.
Qed.

Lemma shr_exact (m : positive) k :
  SpecFloat.iter_pos shr_1 k
    {| shr_m := Z.pos (Pos.iter xO m k); shr_r := false; shr_s := false |}
  = {| shr_m := Z.pos m; shr_r := false; shr_s := false |}.
Proof.
  rewrite iter_pos_iter. revert m. induction k as [|k IH] using Pos.peano_ind; intros m.
  - reflexivity.
  - rewrite Pos.iter_succ_r. rewrite Pos.iter_succ. simpl shr_1. apply IH.
Qed.

Lemma digits_shift m k : digits2_pos (Pos.iter xO m k) = (digits2_pos m + k)%positive.
Proof.
  induction k as [|k IH] using Pos.peano_ind.
  - simpl. lia.
  - rewrite Pos.iter_succ. simpl. rewrite IH. lia.
Qed.

(** A mantissa of full width is left as it is. *)
Lemma round_aux_canonical (m : positive) e :
  Z.pos (digits2_pos m) = 53 -> -1074 <= e <= 971 ->
  binary_round_aux prec emax false (Z.pos m) e loc_Exact = S754_finite false m e.
Proof.
  intros Hd He. unfold binary_round_aux, shr_fexp, fexp, emin, prec, emax in *.
  cbn [Zdigits2 shr_record_of_loc]. rewrite Hd.
  replace (Z.max (53 + e - 53) (3 - 1024 - 53) - e) with 0 by lia.
  cbn [shr shr_m loc_of_shr_record round_nearest_even Zdigits2 shr_record_of_loc].
  rewrite Hd.
  replace (Z.max (53 + e - 53) (3 - 1024 - 53) - e) with 0 by lia.
  cbn [shr shr_m].
  replace (e <=? 1024 - 53) with true by (symmetry; apply Z.leb_le; lia).
  reflexivity.
Qed.

Lemma round_aux_shift (m : positive) k e :
  Z.pos (digits2_pos m) = 53 -> -1074 <= e -> e + Z.pos k <= 971 ->
  binary_round_aux prec emax false (Z.pos (Pos.iter xO m k)) e loc_Exact
  = S754_finite false m (e + Z.pos k).
Proof.
  intros Hd He1 He2. unfold binary_round_aux, shr_fexp, fexp, emin, prec, emax in *.
  cbn [Zdigits2 shr_record_of_loc]. rewrite digits_shift, Pos2Z.inj_add, Hd.
  replace (Z.max (53 + Z.pos k + e - 53) (3 - 1024 - 53) - e) with (Z.pos k) by lia.
  cbn [shr]. rewrite shr_exact.
  cbn [shr shr_m loc_of_shr_record round_nearest_even Zdigits2 shr_record_of_loc].
  rewrite Hd.
  replace (Z.max (53 + (e + Z.pos k) - 53) (3 - 1024 - 53) - (e + Z.pos k)) with 0 by lia.
  cbn [shr shr_m].
  replace (e + Z.pos k <=? 1024 - 53) with true by (symmetry; apply Z.leb_le; lia).
  reflexivity.
Qed.

Lemma digits2_size p : digits2_pos p = Pos.size p.
Proof. induction p; simpl; congruence. Qed.

Lemma digits_lt p : Z.pos p < 2 ^ Z.pos (digits2_pos p).
Proof.
  rewrite digits2_size. pose proof (Pos.size_gt p) as H.
  apply Pos2Z.pos_lt_pos in H. rewrite Pos2Z.inj_pow in H. exact H.
Qed.

Lemma digits_ge p : 2 ^ Z.pos (digits2_pos p) <= 2 * Z.pos p.
Proof.
  rewrite digits2_size. pose proof (Pos.size_le p) as H.
  apply Pos2Z.pos_le_pos in H. rewrite Pos2Z.inj_pow in H. exact H.
Qed.

Lemma digits_le_53 p : Z.pos p < 2 ^ 53 -> Z.pos (digits2_pos p) <= 53.
Proof.
  intros H. pose proof (digits_ge p) as Hg.
  destruct (Z_le_gt_dec (Z.pos (digits2_pos p)) 53) as [|Hgt]; [assumption|].
  assert (2 ^ 54 <= 2 ^ Z.pos (digits2_pos p)) by (apply Z.pow_le_mono_r; lia).
  change (2 ^ 54) with (2 * 2 ^ 53) in *. lia.
Qed.

Lemma pos_iter_xO m k : Z.pos (Pos.iter xO m k) = Z.pos m * 2 ^ Z.pos k.
Proof.
  induction k as [|k IH] using Pos.peano_ind.
  - simpl. lia.
  - rewrite Pos.iter_succ, Pos2Z.inj_succ, Z.pow_succ_r by lia.
    rewrite Pos2Z.inj_xO, IH. lia.
Qed.

(** Rounding a value that is representable yields that value. *)
Lemma binary_round_value (s : positive) e (m0 : positive) e0 :
  Z.pos (digits2_pos m0) = 53 -> -1074 <= e0 <= 971 -> -1074 <= e ->
  Z.pos s * 2 ^ (e + 1074) = Z.pos m0 * 2 ^ (e0 + 1074) ->
  binary_round prec emax false s e = S754_finite false m0 e0.
Proof.
  intros Hd He0 He Hv. unfold binary_round.
  destruct (Z_le_gt_dec e0 e) as [Hle|Hgt].
  - (* shift left by e - e0 *)
    assert (Hm : Z.pos m0 = Z.pos s * 2 ^ (e - e0)).
    { replace (e + 1074) with ((e - e0) + (e0 + 1074)) in Hv by lia.
      rewrite (Z.pow_add_r 2 (e - e0) (e0 + 1074)) in Hv by lia.
      apply (Z.mul_cancel_r _ _ (2 ^ (e0 + 1074))); [|lia].
      apply Z.pow_nonzero; lia. }
    destruct (Z.eq_dec e e0) as [->|Hne].
    + rewrite Z.sub_diag in Hm. rewrite Z.mul_1_r in Hm. injection Hm as <-.
      unfold fexp, emin, prec, emax. rewrite Hd.
      replace (Z.max (53 + e0 - 53) (3 - 1024 - 53)) with e0 by lia.
      unfold shl_align. rewrite Z.sub_diag.
      apply round_aux_canonical; assumption.
    + assert (Hk : e - e0 = Z.pos (Z.to_pos (e - e0))) by (rewrite Z2Pos.id; lia).
      assert (Hs : m0 = Pos.iter xO s (Z.to_pos (e - e0))).
      { apply Pos2Z.inj. rewrite pos_iter_xO, <- Hk. exact Hm. }
      assert (Hds : Z.pos (digits2_pos s) = 53 - (e - e0)).
      { rewrite Hs, digits_shift, Pos2Z.inj_add, <- Hk in Hd. lia. }
      unfold fexp, emin, prec, emax. rewrite Hds.
      replace (Z.max (53 - (e - e0) + e - 53) (3 - 1024 - 53)) with e0 by lia.
      unfold shl_align.
      destruct (e0 - e) eqn:E; try lia.
      assert (p = Z.to_pos (e - e0)) as -> by lia.
      rewrite <- Hs. apply round_aux_canonical; assumption.
  - (* shift right by e0 - e *)
    assert (Hk : e0 - e = Z.pos (Z.to_pos (e0 - e))) by (rewrite Z2Pos.id; lia).
    assert (Hm : Z.pos s = Z.pos m0 * 2 ^ (e0 - e)).
    { replace (e0 + 1074) with ((e0 - e) + (e + 1074)) in Hv by lia.
      rewrite (Z.pow_add_r 2 (e0 - e) (e + 1074)) in Hv by lia.
      apply (Z.mul_cancel_r _ _ (2 ^ (e + 1074))); [|lia].
      apply Z.pow_nonzero; lia. }
    assert (Hs : s = Pos.iter xO m0 (Z.to_pos (e0 - e))).
    { apply Pos2Z.inj. rewrite pos_iter_xO, <- Hk. exact Hm. }
    assert (Hds : Z.pos (digits2_pos s) = 53 + (e0 - e)).
    { rewrite Hs, digits_shift, Pos2Z.inj_add, <- Hk. lia. }
    unfold fexp, emin, prec, emax. rewrite Hds.
    replace (Z.max (53 + (e0 - e) + e - 53) (3 - 1024 - 53)) with e0 by lia.
    unfold shl_align.
    destruct (e0 - e) eqn:E; try lia.
    rewrite Hs. rewrite round_aux_shift; try assumption; try lia.
    f_equal. lia.
Qed.

Lemma canon_spec N :
  Z.pos N < 2 ^ 53 ->
  Z.pos (digits2_pos (canon_m N)) = 53
  /\ Z.pos (canon_m N) = Z.pos N * 2 ^ (53 - Z.pos (digits2_pos N))
  /\ -52 <= canon_e N <= 0.
Proof.
  intros H. pose proof (digits_le_53 N H) as Hd.
  assert (0 < Z.pos (digits2_pos N)) by lia.
  unfold canon_m, canon_e.
  destruct (53 - Z.pos (digits2_pos N)) eqn:E; [| |lia].
  - split; [lia|]. split; [change (2 ^ 0) with 1; lia|lia].
  - rewrite digits_shift, Pos2Z.inj_add, pos_iter_xO. split; [lia|]. split; [reflexivity|lia].
Qed.

Lemma of_Z_pos N :
  Z.pos N < 2 ^ 53 ->
  of_Z (Z.pos N) = S754_finite false (canon_m N) (canon_e N).
Proof.
  intros H. destruct (canon_spec N H) as (Hd & Hm & He).
  unfold of_Z, binary_normalize.
  apply binary_round_value; try assumption; try lia.
  rewrite Hm. unfold canon_e in *.
  rewrite <- Z.mul_assoc, <- Z.pow_add_r by lia. f_equal. f_equal. lia.
Qed.

Lemma shl_align_value m e e' :
  e' <= e ->
  snd (shl_align m e e') = e'
  /\ Z.pos (fst (shl_align m e e')) = Z.pos m * 2 ^ (e - e').
Proof.
  intros H. unfold shl_align.
  destruct (e' - e) eqn:E; try lia; simpl.
  - assert (e' = e) as -> by lia. rewrite Z.sub_diag. lia.
  - rewrite pos_iter_xO. split; [reflexivity|]. f_equal. f_equal. lia.
Qed.

Lemma one_eq : one = S754_finite false 4503599627370496 (-52).
Proof. reflexivity. Qed.

Lemma incr_of_Z_pos N :
  Z.pos N + 1 < 2 ^ 53 ->
  incr (of_Z (Z.pos N)) = of_Z (Z.pos N + 1).
Proof.
  intros H. rewrite of_Z_pos by lia.
  change (Z.pos N + 1) with (Z.pos (N + 1)).
  rewrite of_Z_pos by (rewrite Pos2Z.inj_add; lia).
  destruct (canon_spec N ltac:(lia)) as (Hd & Hm & He).
  destruct (canon_spec (N + 1) ltac:(rewrite Pos2Z.inj_add; lia)) as (Hd' & Hm' & He').
  unfold incr, add. rewrite one_eq. cbn [SFadd cond_Zopp].
  rewrite Z.min_r by lia.
  destruct (shl_align_value (canon_m N) (canon_e N) (-52) ltac:(lia)) as [_ Ha].
  destruct (shl_align_value 4503599627370496 (-52) (-52) ltac:(lia)) as [_ Hb].
  rewrite <- Pos2Z.inj_add. cbn [binary_normalize].
  apply binary_round_value; try assumption; try lia.
  rewrite Pos2Z.inj_add, Ha, Hb, Hm, Hm'. rewrite Pos2Z.inj_add.
  unfold canon_e in *.
  set (d := Z.pos (digits2_pos N)) in *. set (d' := Z.pos (digits2_pos (N + 1))) in *.
  change (-52 + 1074) with 1022. change (-52 - -52) with 0.
  rewrite <- !Z.mul_assoc, <- !Z.pow_add_r by lia.
  replace (53 - d + (d - 53 - -52)) with 52 by lia.
  replace (53 - d' + (d' - 53 + 1074)) with (52 + 1022) by lia.
  rewrite Z.pow_add_r by lia. change (2 ^ 0) with 1. lia.
Qed.

Lemma decr_of_Z_pos N :
  Z.pos N + 1 < 2 ^ 53 ->
  decr (of_Z (Z.pos N + 1)) = of_Z (Z.pos N).
Proof.
  intros H. rewrite (of_Z_pos N) by lia.
  change (Z.pos N + 1) with (Z.pos (N + 1)).
  rewrite of_Z_pos by (rewrite Pos2Z.inj_add; lia).
  destruct (canon_spec N ltac:(lia)) as (Hd & Hm & He).
  destruct (canon_spec (N + 1) ltac:(rewrite Pos2Z.inj_add; lia)) as (Hd' & Hm' & He').
  unfold decr, sub. rewrite one_eq. cbn [SFsub cond_Zopp].
  rewrite Z.min_r by lia.
  destruct (shl_align_value (canon_m (N + 1)) (canon_e (N + 1)) (-52) ltac:(lia)) as [_ Ha].
  destruct (shl_align_value 4503599627370496 (-52) (-52) ltac:(lia)) as [_ Hb].
  assert (Hv : Z.pos (fst (shl_align (canon_m (N + 1)) (canon_e (N + 1)) (-52)))
               - Z.pos (fst (shl_align 4503599627370496 (-52) (-52)))
               = Z.pos N * 2 ^ 52).
  { rewrite Ha, Hb, Hm'. rewrite Pos2Z.inj_add. unfold canon_e.
    set (d' := Z.pos (digits2_pos (N + 1))) in *.
    change (-52 - -52) with 0.
    rewrite <- !Z.mul_assoc, <- !Z.pow_add_r by (unfold canon_e in He'; lia).
    replace (53 - d' + (d' - 53 - -52)) with 52 by lia.
    change (2 ^ 0) with 1. lia. }
  destruct (Z.pos (fst _) - Z.pos (fst _)) as [|s|s] eqn:Es; try lia.
  cbn [binary_normalize].
  apply binary_round_value; try assumption; try lia.
  rewrite Hv, Hm. unfold canon_e in *. set (d := Z.pos (digits2_pos N)) in *.
  change (-52 + 1074) with 1022.
  rewrite <- !Z.mul_assoc, <- !Z.pow_add_r by lia.
  f_equal. f_equal. lia.
Qed.

Lemma incr_of_Z n : 0 <= n < 2 ^ 53 -> incr (of_Z n) = of_Z (n + 1).
Proof.
  intros [H0 H]. destruct (Z.eq_dec n (2 ^ 53 - 1)) as [->|Hne].
  { vm_compute. reflexivity. }
  destruct n as [|N|N]; [reflexivity| |lia].
  apply incr_of_Z_pos. lia.
Qed.

Lemma decr_of_Z n : 0 <= n < 2 ^ 53 -> decr (of_Z (n + 1)) = of_Z n.
Proof.
  intros [H0 H]. destruct (Z.eq_dec n (2 ^ 53 - 1)) as [->|Hne].
  { vm_compute. reflexivity. }
  destruct n as [|N|N]; [reflexivity| |lia].
  apply decr_of_Z_pos. lia.
Qed.

Lemma rollback_exact n : 0 <= n < 2 ^ 53 -> decr (incr (of_Z n)) = of_Z n.
Proof. intros H. rewrite incr_of_Z, decr_of_Z; auto. Qed.

End Float64Facts.

(* ===================================================================== *)
(** * Facts about the system calls                                        *)
(* ===================================================================== *)

Section OsFacts.
Open Scope string_scope.

Lemma suffix_advance w : suffix (script (advance w)) (script w).
Proof. simpl. destruct (script w) as [|f s]; [done|]. by exists [f]. Qed.

Lemma suffix_tail {A} (l k : list A) : suffix l k -> suffix (tail l) k.
Proof.
  intros [pre ->]. destruct l as [|x l]; [by exists pre|].
  exists (app pre [x]). by rewrite <- app_assoc.
Qed.

Lemma advance_nil w : script w = [] -> advance w = w.
Proof. destruct w; simpl; intros ->; reflexivity. Qed.

Lemma next_fault_nil w : script w = [] -> next_fault w = Pass.
Proof. unfold next_fault. by intros ->. Qed.

Lemma same_device_suffix s s' :
  same_device s -> suffix s' s -> same_device s'.
Proof. intros H [k ->]. by apply Forall_app in H as [_ H]. Qed.

Lemma next_fault_nth w : next_fault w = nth 0 (script w) Pass.
Proof. unfold next_fault. by destruct (script w). Qed.

Lemma nth_tail {A} n (l : list A) d : nth n (tail l) d = nth (S n) l d.
Proof. destruct l; [by destruct n|reflexivity]. Qed.

(** ** Path resolution *)

Lemma follow_entry fuel m name n :
  m !! name = Some n -> (forall t, n <> NSymlink t) ->
  follow fuel m name = inl (name, n).
Proof.
  intros Hn Hl. destruct fuel; simpl; rewrite Hn; destruct n; try done;
    by destruct (Hl target).
Qed.

Lemma follow_absent fuel m name :
  m !! name = None -> follow fuel m name = inr (name, ENOENT).
Proof. intros Hn. destruct fuel; simpl; by rewrite Hn. Qed.

Lemma resolve_file m name c pm :
  m !! name = Some (NFile c pm) -> resolve m name = inl (name, NFile c pm).
Proof. intros H. by apply follow_entry. Qed.

Lemma resolve_absent m name :
  m !! name = None -> resolve m name = inr (name, ENOENT).
Proof. apply follow_absent. Qed.

(** A path that resolves names an entry. *)
Lemma follow_inl fuel m name q n :
  follow fuel m name = inl (q, n) -> is_Some (m !! name).
Proof.
  destruct fuel; simpl; destruct (m !! name) as [[]|]; try done; eauto.
Qed.

(** ** os.CreateTemp *)

Lemma createTemp_try_free tries m dir pre suf r name r' :
  createTemp_try tries m dir pre suf r = Some (name, r') -> m !! name = None.
Proof.
  revert r; induction tries as [|n IH]; intros r; simpl; [discriminate|].
  destruct (m !! joinPath dir _) eqn:E; [apply IH|].
  intros [= <- <-]. exact E.
Qed.

Lemma createTemp_try_first tries m dir pre suf r :
  m !! joinPath dir (pre ++ Itoa (Z.of_nat r) ++ suf) = None ->
  createTemp_try (S tries) m dir pre suf r
  = Some (joinPath dir (pre ++ Itoa (Z.of_nat r) ++ suf), S r).
Proof. intros H. simpl. by rewrite H. Qed.

Lemma max_tries_succ : exists n, max_tries = S n.
Proof. exists (Z.to_nat 9999). vm_compute. reflexivity. Qed.

Lemma os_CreateTemp_spec p dir pattern w r w' :
  os_CreateTemp p dir pattern w = (r, w') ->
  suffix (script w') (script w) /\ umask w' = umask w /\ locks w' = locks w /\
  match r with
  | Ok f => fs w !! f_name f = None
            /\ fs w' = <[f_name f := NFile [] (new_perm 384 w)]> (fs w)
            /\ fdtab w' !! (pid p, f_fd f)
               = Some {| fd_path := f_name f; fd_off := 0 |}
            /\ script w' = tail (script w)
  | Err _ => fs w' = fs w /\ fdtab w' = fdtab w
  end.
Proof.
  unfold os_CreateTemp. destruct (prefixAndSuffix pattern) as [[pre suf]|e].
  2:{ os_unfold. intros [= <- <-]. repeat split; done. }
  generalize max_tries; intros tries.
  os_unfold. unfold open_fd.
  pose proof (suffix_advance w) as Hsuf.
  destruct (fault_errno (next_fault w)); simpl.
  - intros [= <- <-]. repeat split; done.
  - destruct (createTemp_try _ _ _ _ _ _) as [[name r']|] eqn:Ht; simpl.
    + intros [= <- <-]. simpl. apply createTemp_try_free in Ht.
      repeat split; try done. by rewrite lookup_insert_eq.
    + intros [= <- <-]. repeat split; done.
Qed.

(** Without a fault, and with the first candidate name free, the
    temporary file is created under that name. *)
Lemma os_CreateTemp_ok p dir pre w :
  dir <> "" -> Contains pre "/" = false -> lastIndex pre "*" = None ->
  fault_errno (next_fault w) = None ->
  fs w !! joinPath dir (pre ++ Itoa (Z.of_nat (rand w))) = None ->
  exists fd, (os_CreateTemp p dir (pre ++ "*") w).1
             = Ok {| f_name := joinPath dir (pre ++ Itoa (Z.of_nat (rand w)));
                     f_fd := fd |}.
Proof.
  intros Hdir Hsep Hstar Hf Hfree. unfold os_CreateTemp.
  assert (Hd : (if String.eqb dir "" then os_TempDir p else dir) = dir).
  { destruct (String.eqb_spec dir ""); congruence. }
  rewrite Hd.
  assert (Hps : prefixAndSuffix (pre ++ "*") = Ok (pre, "")).
  { unfold prefixAndSuffix.
    assert (Hc : forall s, Contains s "/" = false -> Contains (s ++ "*") "/" = false).
    { clear. induction s as [|a s IH]; [reflexivity|].
      change (String a s ++ "*") with (String a (s ++ "*")).
      intros H. cbn [Contains] in *.
      apply orb_false_elim in H as [H1 H2]. rewrite (IH H2), orb_false_r.
      revert H1. cbn [String.prefix].
      destruct (ascii_dec _ _); [destruct s; discriminate | done]. }
    rewrite (Hc _ Hsep).
    assert (Hl : forall s, lastIndex s "*" = None ->
                   lastIndex (s ++ "*") "*" = Some (String.length s)
                   /\ String.substring 0 (String.length s) (s ++ "*") = s
                   /\ string_drop (S (String.length s)) (s ++ "*") = "").
    { clear. induction s as [|a s IH]; [done|].
      change (String a s ++ "*") with (String a (s ++ "*")).
      cbn [lastIndex]. destruct (lastIndex s "*") eqn:E; [done|].
      destruct (Ascii.eqb a "*"); [done|]. intros _.
      destruct (IH eq_refl) as (-> & H2 & H3).
      cbn [String.length String.substring]. rewrite H2.
      split; [done|]. split; [done|]. exact H3. }
    by destruct (Hl _ Hstar) as (-> & -> & ->). }
  rewrite Hps. destruct max_tries_succ as [n ->].
  os_unfold. unfold open_fd. rewrite Hf.
  assert (Hn : forall s, s ++ "" = s).
  { clear. induction s as [|a s IH]; [reflexivity|].
    change (String a s ++ "") with (String a (s ++ "")). by rewrite IH. }
  cbn [fs advance set_script rand]. rewrite createTemp_try_first;
    rewrite Hn; [|exact Hfree].
  eexists. reflexivity.
Qed.

(** ** Descriptors *)

Lemma file_Close_spec p f w r w' :
  file_Close p f w = (r, w') ->
  suffix (script w') (script w) /\ umask w' = umask w /\ fs w' = fs w
  /\ rand w' = rand w
  /\ match fdtab w !! (pid p, f_fd f) with
     | Some d =>
         locks w' = filter (fun r => ¬ (lk_pid r = pid p ∧ lk_path r = fd_path d))
                      (locks w)
         /\ script w' = tail (script w)
     | None => w' = w
     end.
Proof.
  unfold file_Close. os_unfold.
  destruct (fdtab w !! _); intros [= <- <-]; simpl; repeat split; try done.
  apply suffix_advance.
Qed.

Lemma file_Write_spec p f data w r w' path pm :
  fdtab w !! (pid p, f_fd f) = Some {| fd_path := path; fd_off := 0 |} ->
  fs w !! path = Some (NFile [] pm) ->
  file_Write p f data w = (r, w') ->
  script w' = tail (script w) /\ umask w' = umask w /\ locks w' = locks w /\
  rand w' = rand w /\
  (exists d, fdtab w' !! (pid p, f_fd f) = Some d /\ fd_path d = path) /\
  (exists c, fs w' = <[path := NFile c pm]> (fs w)
             /\ match r with Ok _ => c = data | Err _ => True end) /\
  (next_fault w = Pass -> exists n, r = Ok n).
Proof.
  intros Hfd Hfs. unfold file_Write, put. os_unfold. simpl. rewrite Hfd.
  destruct (next_fault w); simpl; rewrite ?Hfd; simpl; rewrite ?Hfs; simpl;
    intros [= <- <-]; simpl.
  - repeat split; try done.
    + eexists. by rewrite lookup_insert_eq.
    + eexists. split; [reflexivity|]. unfold write_at. simpl.
      by rewrite drop_nil, app_nil_r.
    + eauto.
  - repeat split; try done.
    + eexists. by rewrite Hfd.
    + exists []. split; [|done]. by rewrite insert_id.
  - repeat split; try done.
    + eexists. by rewrite lookup_insert_eq.
    + eexists. split; [reflexivity|done].
Qed.

(** ** Changes of the name space *)

Lemma os_Remove_spec name w r w' :
  os_Remove name w = (r, w') ->
  script w' = tail (script w) /\ umask w' = umask w /\ locks w' = locks w /\
  rand w' = rand w /\ fdtab w' = fdtab w /\
  match r with
  | None => fs w' = delete name (fs w)
  | Some _ => fs w' = fs w
  end /\
  (fault_errno (next_fault w) = None ->
   forall c pm, fs w !! name = Some (NFile c pm) -> r = None).
Proof.
  unfold os_Remove. os_unfold.
  destruct (fault_errno (next_fault w)); simpl.
  - intros [= <- <-]. repeat split; done.
  - destruct (fs w !! name) as [[| |]|]; simpl;
      try destruct (children _ _); simpl; intros [= <- <-]; simpl;
      repeat split; try done; intros; simplify_eq.
Qed.

Lemma os_Chmod_spec name mode w r w' :
  os_Chmod name mode w = (r, w') ->
  script w' = tail (script w) /\ umask w' = umask w /\ locks w' = locks w /\
  rand w' = rand w /\
  match r with
  | Some _ => fs w' = fs w
  | None =>
      forall c pm, fs w !! name = Some (NFile c pm) ->
                   fs w' = <[name := NFile c (Z.land mode ModePerm)]> (fs w)
  end /\
  (fault_errno (next_fault w) = None ->
   forall c pm, fs w !! name = Some (NFile c pm) -> r = None).
Proof.
  unfold os_Chmod. os_unfold.
  destruct (fault_errno (next_fault w)); simpl.
  - intros [= <- <-]. repeat split; done.
  - destruct (resolve (fs w) name) as [[q n]|[q e]] eqn:Hr; simpl.
    + destruct n; simpl; intros [= <- <-]; simpl; repeat split; try done;
        intros c' pm' Hn; rewrite (resolve_file _ _ _ _ Hn) in Hr;
        by simplify_eq.
    + intros [= <- <-]. simpl. repeat split; try done.
      intros _ c pm Hn. rewrite (resolve_file _ _ _ _ Hn) in Hr. done.
Qed.

Lemma os_Rename_spec src dst w r w' :
  os_Rename src dst w = (r, w') ->
  script w' = tail (script w) /\ umask w' = umask w /\ locks w' = locks w /\
  rand w' = rand w /\
  match r with
  | Some _ => fs w' = fs w
  | None =>
      forall c pm, fs w !! src = Some (NFile c pm) ->
                   fs w' = <[dst := NFile c pm]> (delete src (fs w))
  end /\
  (fault_errno (next_fault w) = None ->
   forall c pm, fs w !! src = Some (NFile c pm) ->
   (forall dm, fs w !! dst <> Some (NDir dm)) -> r = None).
Proof.
  unfold os_Rename. os_unfold.
  destruct (fault_errno (next_fault w)); simpl.
  - intros [= <- <-]. repeat split; done.
  - destruct (fs w !! src) as [[| |]|] eqn:Hs;
      destruct (fs w !! dst) as [[| |]|] eqn:Hd; simpl;
      try destruct (under src dst); simpl; intros [= <- <-]; simpl;
      repeat split; try done; intros; simplify_eq; try done;
      try match goal with
          | H : forall dm, _ <> Some (NDir dm) |- _ =>
              exfalso; eapply H; reflexivity
          end.
Qed.

End OsFacts.

(* ===================================================================== *)
(** * Facts about the atomic writer                                       *)
(* ===================================================================== *)

Section FhandlerFacts.
Open Scope string_scope.

Lemma writeTmpFile_spec p dir prefix content w r w' :
  writeTmpFile p dir prefix content w = (r, w') ->
  suffix (script w') (script w) /\ umask w' = umask w /\
  (forall rec, rec ∈ locks w -> is_Some (fs w !! lk_path rec) -> rec ∈ locks w') /\
  match r with
  | Ok tmp => fs w !! tmp = None
              /\ fs w' = <[tmp := NFile content (new_perm 384 w)]> (fs w)
              /\ script w' = tail (tail (tail (script w)))
  | Err _ => (forall x, is_Some (fs w !! x) -> fs w' !! x = fs w !! x)
             /\ (fault_errno (nth 2 (script w) Pass) = None -> fs w' = fs w)
  end.
Proof.
  unfold writeTmpFile. unfold mbind at 1, M_bind at 1.
  destruct (os_CreateTemp _ _ _ w) as [[f|e] w1] eqn:Hc;
    apply os_CreateTemp_spec in Hc as (Hs1 & Hu1 & Hl1 & Hc).
  2:{ intros [= <- <-]. destruct Hc as [Hfs _]. rewrite Hfs, Hl1. done. }
  destruct Hc as (Hfree & Hfs1 & Hfd & Hsc1).
  unfold mbind at 1, M_bind at 1.
  destruct (file_Write p f content w1) as [rw w2] eqn:Hw.
  eapply file_Write_spec in Hw
    as (Hsc2 & Hu2 & Hl2 & Hr2 & (d & Hd & Hp) & (c & Hfs2 & Hc) & _);
    [|exact Hfd|rewrite Hfs1; apply lookup_insert_eq].
  assert (Hkeep : forall w3 w4 rc, fdtab w3 = fdtab w2 -> locks w3 = locks w2 ->
            file_Close p f w3 = (rc, w4) ->
            forall rec, rec ∈ locks w -> is_Some (fs w !! lk_path rec) ->
                        rec ∈ locks w4).
  { intros w3 w4 rc Ht3 Hl3 Hcl rec Hin Hex.
    apply file_Close_spec in Hcl as (_ & _ & _ & _ & Hcl).
    rewrite Ht3, Hd in Hcl. destruct Hcl as [-> _].
    apply list_elem_of_filter. split; [|congruence].
    intros [_ Hpath]. rewrite Hp in Hpath. rewrite Hpath, Hfree in Hex.
    by destruct Hex. }
  destruct rw as [n|e].
  - subst c. unfold mbind, M_bind.
    destruct (file_Close p f w2) as [rc w3] eqn:Hcl.
    pose proof (Hkeep _ _ _ eq_refl eq_refl Hcl) as Hk.
    apply file_Close_spec in Hcl as (Hs3 & Hu3 & Hfs3 & _ & Hcl).
    rewrite Hd in Hcl. destruct Hcl as [_ Hsc3].
    intros [= <- <-]. split; [rewrite Hsc3, Hsc2; by do 2 apply suffix_tail|].
    split; [congruence|]. split; [exact Hk|]. split; [done|].
    split; [|congruence].
    rewrite Hfs3, Hfs2, Hfs1. by rewrite insert_insert_eq.
  - unfold mbind, M_bind.
    destruct (os_Remove (f_name f) w2) as [rr w3] eqn:Hrm.
    apply os_Remove_spec in Hrm as (Hsc3 & Hu3 & Hl3 & _ & Ht3 & Hfs3 & Hok).
    destruct (file_Close p f w3) as [rc w4] eqn:Hcl.
    pose proof (Hkeep _ _ _ Ht3 Hl3 Hcl) as Hk.
    apply file_Close_spec in Hcl as (Hs4 & Hu4 & Hfs4 & _).
    intros [= <- <-].
    split; [etrans; [exact Hs4|]; rewrite Hsc3, Hsc2;
            by do 2 apply suffix_tail|].
    split; [congruence|]. split; [exact Hk|]. split.
    + intros x Hx. rewrite Hfs4.
      assert (x <> f_name f) by (intros ->; rewrite Hfree in Hx; by destruct Hx).
      destruct rr; rewrite Hfs3, ?Hfs2, ?Hfs1.
      * by rewrite !lookup_insert_ne.
      * by rewrite lookup_delete_ne, !lookup_insert_ne.
    + intros Hnf. rewrite Hfs4.
      assert (rr = None) as ->.
      { eapply Hok.
        - by rewrite next_fault_nth, Hsc2, Hsc1, !nth_tail.
        - rewrite Hfs2. apply lookup_insert_eq. }
      rewrite Hfs3, Hfs2, Hfs1, delete_insert_eq.
      by apply delete_insert_id.
Qed.

(** On one file system [Rename] is [os.Rename] with its error dropped. *)
Lemma Rename_same_device p src dst w :
  same_device (script w) ->
  Rename p src dst w = (None, (os_Rename src dst w).2).
Proof.
  intros Hdev.
  destruct ((os_Rename src dst w).1) as [e|] eqn:He.
  - destruct (os_Rename_error _ _ _ _ He) as (en & -> & Hx).
    apply (Rename_other_error p src dst w _ He).
    rewrite LinkError_cross_device. apply bool_decide_eq_false. intros ->.
    destruct (Hx eq_refl) as (f & rest & Hs & Hf).
    rewrite Hs in Hdev. by inversion Hdev.
  - unfold Rename, mbind, M_bind.
    destruct (os_Rename src dst w) as [r w1]. simpl in He. by subst r.
Qed.

(** What [WriteAtomic] leaves behind on one file system. *)
Lemma WriteAtomic_same_device p dir prefix file content perm w r w' :
  WriteAtomic p dir prefix file content perm w = (r, w') ->
  same_device (script w) ->
  match r with
  | Some _ =>
      (forall x, is_Some (fs w !! x) -> fs w' !! x = fs w !! x)
      /\ ((exists e, (writeTmpFile p dir prefix content w).1 = Err e) ->
          fault_errno (nth 2 (script w) Pass) = None -> fs w' = fs w)
  | None =>
      exists tmp, fs w !! tmp = None /\
        (fs w' = <[file := NFile content (Z.land perm ModePerm)]> (fs w)
         \/ fs w' = <[tmp := NFile content (Z.land perm ModePerm)]> (fs w))
  end.
Proof.
  intros H Hdev. unfold WriteAtomic in H. unfold mbind at 1, M_bind at 1 in H.
  destruct (writeTmpFile p dir prefix content w) as [[tmp|e] w1] eqn:Hw.
  - apply writeTmpFile_spec in Hw as (Hs1 & Hu1 & _ & Hfree & Hfs1 & Hsc1).
    unfold mbind, M_bind in H.
    destruct (os_Chmod tmp perm w1) as [rc w2] eqn:Hc.
    apply os_Chmod_spec in Hc as (Hsc2 & Hu2 & _ & _ & Hfs2 & _).
    destruct rc as [ec|].
    + injection H as <- <-. split.
      * intros x Hx. rewrite Hfs2, Hfs1.
        apply lookup_insert_ne. intros ->. rewrite Hfree in Hx. by destruct Hx.
      * intros [e He]. discriminate He.
    + rewrite Rename_same_device in H.
      2:{ eapply same_device_suffix; [exact Hdev|].
          rewrite Hsc2. by apply suffix_tail. }
      injection H as <- <-.
      specialize (Hfs2 content (new_perm 384 w)).
      rewrite Hfs1, lookup_insert_eq in Hfs2. specialize (Hfs2 eq_refl).
      rewrite insert_insert_eq in Hfs2.
      destruct (os_Rename tmp file w2) as [rr w3] eqn:Hr. simpl.
      apply os_Rename_spec in Hr as (_ & _ & _ & _ & Hfs3 & _).
      exists tmp. split; [done|]. destruct rr as [er|].
      * right. congruence.
      * left. rewrite (Hfs3 content (Z.land perm ModePerm))
          by (rewrite Hfs2; apply lookup_insert_eq).
        rewrite Hfs2, delete_insert_eq. by rewrite delete_id.
  - injection H as <- <-.
    apply writeTmpFile_spec in Hw as (_ & _ & _ & Hfr & Hsame).
    split; [exact Hfr|]. intros _. exact Hsame.
Qed.

End FhandlerFacts.

(* ===================================================================== *)
(** * A failing atomic write                                              *)
(* ===================================================================== *)

Section WriteAtomicFailure.
Open Scope string_scope.

(** C4, as stated, fails twice over.  When the copy of the cross-device
    fallback runs out of space, [WriteAtomic] returns the error with the
    target truncated and the temporary file still in the staging
    directory; and when setting the permissions fails on one file system,
    the temporary file stays behind as well. *)
Lemma WriteAtomic_failure_touches_target :
  let copy_fails :=
    WriteAtomic service "/tmp" "counter" "counter.txt" (bytes "1") 420
      (machine (Some "0")
         [Pass; Pass; Pass; Pass; Fail FEXDEV; Pass; Pass; Pass;
          Short 0 FENOSPC]) in
  let chmod_fails :=
    WriteAtomic service "/tmp" "counter" "counter.txt" (bytes "1") 420
      (machine (Some "0") [Pass; Pass; Pass; Fail FEPERM]) in
  (copy_fails.1 = Some (PathError "write" "counter.txt" ENOSPC)
   /\ on_disk copy_fails.2 "counter.txt" = Some []
   /\ on_disk copy_fails.2 "/tmp/counter_0" = Some (bytes "1"))
  /\ (chmod_fails.1 = Some (PathError "chmod" "/tmp/counter_0" EPERM)
      /\ on_disk chmod_fails.2 "counter.txt" = Some (bytes "0")
      /\ on_disk chmod_fails.2 "/tmp/counter_0" = Some (bytes "1")).
Proof. vm_compute. repeat split; reflexivity. Qed.

(** C4 (amended): when [WriteAtomic] returns an error and the rename did
    not cross file systems, every entry that existed before the call,
    the target among them, is exactly as it was; and when it was the
    creation or the writing of the temporary file that failed and the
    removal of the temporary file (the third system call) met no fault,
    the whole name space is as before: no temporary file remains. *)
Theorem WriteAtomic_failure_frame p dir prefix file content perm w e :
  (WriteAtomic p dir prefix file content perm w).1 = Some e ->
  same_device (script w) ->
  let w' := (WriteAtomic p dir prefix file content perm w).2 in
  (forall x, is_Some (fs w !! x) -> fs w' !! x = fs w !! x)
  /\ ((exists e', (writeTmpFile p dir prefix content w).1 = Err e') ->
      fault_errno (nth 2 (script w) Pass) = None -> fs w' = fs w).
Proof.
  intros He Hdev.
  destruct (WriteAtomic p dir prefix file content perm w) as [r w'] eqn:H.
  simpl in He. subst r.
  exact (WriteAtomic_same_device _ _ _ _ _ _ _ _ _ H Hdev).
Qed.

Lemma WriteAtomic_failure_frame_witness :
  let w := machine (Some "0") [Pass; Short 0 FENOSPC] in
  let w' := (WriteAtomic service "/tmp" "counter" "counter.txt" (bytes "1") 420 w).2 in
  (forall x, is_Some (fs w !! x) -> fs w' !! x = fs w !! x)
  /\ ((exists e', (writeTmpFile service "/tmp" "counter" (bytes "1") w).1 = Err e') ->
      fault_errno (nth 2 (script w) Pass) = None -> fs w' = fs w).
Proof.
  apply (WriteAtomic_failure_frame service "/tmp" "counter" "counter.txt"
           (bytes "1") 420 (machine (Some "0") [Pass; Short 0 FENOSPC])
           (PathError "write" "/tmp/counter_0" ENOSPC)).
  - vm_compute. reflexivity.
  - repeat constructor; discriminate.
Defined.

End WriteAtomicFailure.

(* ===================================================================== *)
(** * The increment handler when persisting fails                         *)
(* ===================================================================== *)

Section HostnameFailure.
Import Json.
Open Scope string_scope.

(** C2, as stated, fails twice over.  With the staging directory on
    another file system and the target device full, the handler answers
    503 and rolls the counter back, but the counter file has been
    truncated by the copy.  And for a counter of 0.1 the float64
    round trip [(x + 1) - 1] does not give [x] back. *)
Lemma hostname_failure_not_restored :
  let r :=
    hostname plain_codec service (globals_at zero) new_response
      (machine (Some "0")
         [Pass; Pass; Pass; Pass; Fail FEXDEV; Pass; Pass; Pass;
          Short 0 FENOSPC]) in
  let r' :=
    hostname plain_codec service (globals_at tenth) new_response
      (machine (Some "0.1") [Fail FEROFS]) in
  (reply r.1.2 = (503, []) /\ number r.1.1 = zero
   /\ on_disk r.2 "counter.txt" = Some []
   /\ on_disk r.2 "counter.txt" <> Some (bytes "0"))
  /\ (reply r'.1.2 = (503, []) /\ number r'.1.1 <> tenth
      /\ number r'.1.1 = S754_finite false 7205759403792800 (-56)).
Proof. vm_compute. repeat split; (reflexivity || discriminate). Qed.

(** C2 (amended): whenever [json.Marshal] or [WriteAtomicTmpDir] returns
    an error, [hostname] answers 503 with nothing else written, and
    leaves [number] at the float64 value [(number + 1) - 1], which is the
    value before the call for every whole count from 0 up to [2^53 - 1];
    and when the rename does not cross file systems, every entry of the
    name space that existed before the call, the counter file among
    them, is exactly as it was. *)
Theorem hostname_failure_rolls_back cd p g rw w :
  persist_fails cd p g w ->
  let r := hostname cd p g rw w in
  r.1.2 = WriteHeader StatusServiceUnavailable rw
  /\ fileName r.1.1 = fileName g
  /\ number r.1.1 = decr (incr (number g))
  /\ (forall n, 0 <= n < 2 ^ 53 -> number g = of_Z n ->
      number r.1.1 = number g)
  /\ (same_device (script w) ->
      forall x, is_Some (fs w !! x) -> fs r.2 !! x = fs w !! x).
Proof.
  unfold persist_fails, hostname. cbn [number set_number fileName].
  destruct (Marshal cd (incr (number g))) as [out|err].
  - intros [e He]. unfold WriteAtomicTmpDir in *. unfold mbind, M_bind.
    destruct (WriteAtomic p (os_TempDir p) "counter" (fileName g) out 420 w)
      as [r w'] eqn:Hw.
    simpl in He. subst r. cbn.
    repeat split.
    + intros n Hn ->. by apply rollback_exact.
    + intros Hdev. by apply (WriteAtomic_same_device _ _ _ _ _ _ _ _ _ Hw Hdev).
  - intros _. cbn. repeat split; try done.
    intros n Hn ->. by apply rollback_exact.
Qed.

Lemma hostname_failure_rolls_back_witness :
  let g := globals_at (of_Z 41) in
  let w := machine (Some "41") [Fail FEROFS] in
  let r := hostname plain_codec service g new_response w in
  r.1.2 = WriteHeader StatusServiceUnavailable new_response
  /\ fileName r.1.1 = fileName g
  /\ number r.1.1 = decr (incr (number g))
  /\ (forall n, 0 <= n < 2 ^ 53 -> number g = of_Z n ->
      number r.1.1 = number g)
  /\ (same_device (script w) ->
      forall x, is_Some (fs w !! x) -> fs r.2 !! x = fs w !! x).
Proof.
  apply (hostname_failure_rolls_back plain_codec service
           (globals_at (of_Z 41)) new_response
           (machine (Some "41") [Fail FEROFS])).
  vm_compute. eexists. reflexivity.
Defined.

End HostnameFailure.

(* ===================================================================== *)
(** * Create if absent                                                    *)
(* ===================================================================== *)

Section CreateFile.
Import Json.
Open Scope string_scope.

(** The environment never reports a missing entry. *)
Lemma fault_errno_exists f en : fault_errno f = Some en -> en <> ENOENT.
Proof. destruct f as [|e|n e]; intros [= <-]; by destruct e. Qed.

(** On a path that resolves, [createFile] only asks for the status. *)
Lemma createFile_resolved cd p g name w q n :
  resolve (fs w) name = inl (q, n) ->
  (createFile cd p g name w).2 = advance w.
Proof.
  intros Hr. unfold createFile, os_Stat. os_unfold.
  destruct (fault_errno (next_fault w)) as [en|] eqn:Hf; cbn.
  - apply fault_errno_exists in Hf.
    unfold is_ErrNotExist. cbn.
    rewrite bool_decide_eq_false_2; [reflexivity|congruence].
  - cbn [fs advance set_script]. by rewrite Hr.
Qed.

(** C6: on a counter file that already exists, [createFile] leaves the
    name space, and with it the content of the file, unchanged; running
    it a second time changes nothing either. *)
Theorem createFile_existing_unchanged cd p g name w q n :
  resolve (fs w) name = inl (q, n) ->
  let once := (createFile cd p g name w).2 in
  let twice := (createFile cd p g name once).2 in
  fs once = fs w
  /\ on_disk once name = on_disk w name
  /\ fs twice = fs once
  /\ on_disk twice name = on_disk once name.
Proof.
  intros Hr. cbn zeta.
  rewrite (createFile_resolved cd p g name w q n Hr).
  rewrite (createFile_resolved cd p g name (advance w) q n Hr).
  repeat split.
Qed.

Lemma createFile_existing_unchanged_witness :
  let w := machine (Some "7") [] in
  let once := (createFile plain_codec service (globals_at zero) "counter.txt" w).2 in
  let twice := (createFile plain_codec service (globals_at zero) "counter.txt" once).2 in
  fs once = fs w
  /\ on_disk once "counter.txt" = on_disk w "counter.txt"
  /\ fs twice = fs once
  /\ on_disk twice "counter.txt" = on_disk once "counter.txt".
Proof.
  apply (createFile_existing_unchanged plain_codec service (globals_at zero)
           "counter.txt" (machine (Some "7") []) "counter.txt"
           (NFile (bytes "7") 420)).
  vm_compute. reflexivity.
Defined.

End CreateFile.

(* ===================================================================== *)
(** * The lock handle                                                     *)
(* ===================================================================== *)

Section LockHandle.
Open Scope string_scope.

(** Once the file of a handle is closed, every further [lock] on the
    handle fails: the file is not nil, so it is not opened again, and
    [fcntl] is called with the descriptor of the closed file. *)
Lemma lock_closed_file p exclusive blocking offset whence len l w f :
  file l = Some f -> fdtab w !! (pid p, f_fd f) = None ->
  (lock p exclusive blocking offset whence len l w).1.2
  = Returned (Some ErrFailedToLock).
Proof.
  intros Hf Hfd. unfold lock, syscall_FcntlFlock, close_file, file_Close.
  os_unfold. rewrite Hf. cbn. rewrite Hf. cbn. rewrite Hfd. cbn.
  destruct (maintainFile l); cbn; rewrite ?Hf; cbn; rewrite ?Hfd; reflexivity.
Qed.

(** C5: two processes, each with its own handle on the same lock file.
    The first acquires the lock; the second fails with
    [ErrFailedToLock], as claimed.  After the first has unlocked (no
    lock is left), the retried acquire on the second handle must
    succeed.  It fails with [ErrFailedToLock] again: the failed attempt
    closed the file of the handle without resetting it.  A fresh handle
    acquires the lock at that point. *)
Theorem retried_lock_fails_after_unlock :
  let a := NewFcntlLockfile "/tmp/counter.lock" in
  let b := NewFcntlLockfile "/tmp/counter.lock" in
  let first := LockWrite service a (machine None []) in
  let second := LockWrite second_instance b first.2 in
  let released := Unlock service first.1.1 second.2 in
  let retried := LockWrite second_instance second.1.1 released.2 in
  let fresh := LockWrite second_instance b released.2 in
  first.1.2 = Returned None
  /\ second.1.2 = Returned (Some ErrFailedToLock)
  /\ locks released.2 = []
  /\ retried.1.2 = Returned (Some ErrFailedToLock)
  /\ fresh.1.2 = Returned None.
Proof. vm_compute. repeat split; reflexivity. Qed.

(** C9, as stated, fails: on a handle whose only lock call failed to
    obtain the lock (so no lock call has ever succeeded on it), [Unlock]
    and [Owner] return normally. *)
Lemma Unlock_after_failed_lock_returns :
  let a := NewFcntlLockfile "/tmp/counter.lock" in
  let b := NewFcntlLockfile "/tmp/counter.lock" in
  let first := LockWrite service a (machine None []) in
  let second := LockWrite second_instance b first.2 in
  second.1.2 = Returned (Some ErrFailedToLock)
  /\ (exists l, (Unlock second_instance second.1.1 second.2).1 = Normal l)
  /\ (Owner second_instance second.1.1 second.2).1 = Normal (-1).
Proof. vm_compute. repeat split; eexists; reflexivity. Qed.

(** [Unlock] and [Owner] panic exactly on a nil [l.ft]. *)
Lemma unlock_panics p offset whence len l w :
  match (unlock p offset whence len l w).1 with
  | Panic _ => ft l = None
  | Normal _ => ft l <> None
  end.
Proof.
  unfold unlock. destruct (ft l); [|done].
  os_unfold. destruct (syscall_FcntlFlock _ _ _ _ _) as [? ?].
  destruct (maintainFile _); cbn; [|done].
  by destruct (close_file _ _ _).
Qed.

Lemma Owner_panics p l w :
  match (Owner p l w).1 with
  | Panic _ => ft l = None
  | Normal _ => ft l <> None
  end.
Proof.
  unfold Owner. destruct (ft l); [|done].
  os_unfold. by destruct (syscall_FcntlFlock _ _ _ _ _) as [? ?].
Qed.

(** What a [lock] call does to [l.ft]. *)
Lemma lock_sets_ft p exclusive blocking offset whence len l w :
  let r := lock p exclusive blocking offset whence len l w in
  match file l, (os_OpenFile p (Path l) (Z.lor O_CREATE O_RDWR) 438 w).1 with
  | None, Err e => ft r.1.1 = ft l /\ r.1.2 = Returned (Some e)
  | _, _ => ft r.1.1 <> None
  end.
Proof.
  unfold lock. os_unfold.
  destruct (file l) as [f|] eqn:Hf.
  - destruct (syscall_FcntlFlock _ _ _ _ _) as [[[? [?|]]|] ?]; cbn; try done.
    destruct (maintainFile _); cbn; try done.
    unfold close_file. cbn. rewrite Hf. os_unfold.
    by destruct (file_Close _ _ _) as [[? ?] ?].
  - destruct (os_OpenFile _ _ _ _ _) as [[f|e] w1]; cbn; [|done].
    destruct (syscall_FcntlFlock _ _ _ _ _) as [[[? [?|]]|] ?]; cbn; try done.
    destruct (maintainFile _); cbn; try done.
    unfold close_file. cbn. os_unfold.
    by destruct (file_Close _ _ _) as [[? ?] ?].
Qed.

(** C9 (amended): [Unlock] and [Owner] dereference a nil [l.ft], and
    panic, exactly on a handle on which no [lock] call has yet got past
    opening the lock file: a new handle is in that state, and a [lock]
    call that fails to open the file leaves it there.  Every [lock] call
    that gets past the opening sets [l.ft], whether or not it then
    obtains the lock, and [Unlock] and [Owner] on the handle it leaves
    return without a panic. *)
Theorem Unlock_panics_until_lock_opens p l w exclusive blocking offset whence len :
  let r := lock p exclusive blocking offset whence len l w in
  ((ft l = None <-> (Unlock p l w).1 = Panic nil_dereference)
   /\ (ft l = None <-> (Owner p l w).1 = Panic nil_dereference))
  /\ (forall path f, ft (NewFcntlLockfile path) = None
                     /\ ft (NewFcntlLockfileFromFile f) = None)
  /\ (forall e, file l = None ->
        (os_OpenFile p (Path l) (Z.lor O_CREATE O_RDWR) 438 w).1 = Err e ->
        ft r.1.1 = ft l /\ r.1.2 = Returned (Some e))
  /\ ((file l <> None
       \/ exists f, (os_OpenFile p (Path l) (Z.lor O_CREATE O_RDWR) 438 w).1 = Ok f) ->
      forall w', (exists l', (Unlock p r.1.1 w').1 = Normal l')
                 /\ (exists n, (Owner p r.1.1 w').1 = Normal n)).
Proof.
  cbn zeta. split; [|split; [|split]].
  - split.
    + pose proof (unlock_panics p 0 SeekStart 0 l w) as H. unfold Unlock.
      split; [intros Hn|intros Hp].
      * unfold unlock. by rewrite Hn.
      * by rewrite Hp in H.
    + pose proof (Owner_panics p l w) as H.
      split; [intros Hn|intros Hp].
      * unfold Owner. by rewrite Hn.
      * by rewrite Hp in H.
  - done.
  - intros e Hf He.
    pose proof (lock_sets_ft p exclusive blocking offset whence len l w) as H.
    cbn zeta in H. by rewrite Hf, He in H.
  - intros Hopen w'.
    pose proof (lock_sets_ft p exclusive blocking offset whence len l w) as H.
    cbn zeta in H.
    assert (Hft : ft (lock p exclusive blocking offset whence len l w).1.1 <> None).
    { destruct Hopen as [Hf|[f Hf]].
      - by destruct (file l).
      - rewrite Hf in H. by destruct (file l). }
    pose proof (unlock_panics p 0 SeekStart 0
                  (lock p exclusive blocking offset whence len l w).1.1 w') as Hu.
    pose proof (Owner_panics p
                  (lock p exclusive blocking offset whence len l w).1.1 w') as Ho.
    unfold Unlock. split.
    + destruct (unlock _ _ _ _ _ _).1; [eauto|done].
    + destruct (Owner _ _ _).1; [eauto|done].
Qed.

Lemma Unlock_panics_until_lock_opens_witness :
  let p := second_instance in
  let l := NewFcntlLockfile "/tmp/counter.lock" in
  let w := (LockWrite service l (machine None [])).2 in
  let r := lock p true false 0 SeekStart 0 l w in
  (Unlock p l w).1 = Panic nil_dereference
  /\ r.1.2 = Returned (Some ErrFailedToLock)
  /\ (exists l', (Unlock p r.1.1 r.2).1 = Normal l')
  /\ (exists n, (Owner p r.1.1 r.2).1 = Normal n).
Proof.
  pose proof (Unlock_panics_until_lock_opens second_instance
                (NewFcntlLockfile "/tmp/counter.lock")
                (LockWrite service (NewFcntlLockfile "/tmp/counter.lock")
                   (machine None [])).2 true false 0 SeekStart 0)
    as ((Hu & _) & _ & _ & Hopen).
  cbn zeta. split; [by apply Hu|]. split; [vm_compute; reflexivity|].
  apply Hopen. right. vm_compute. eexists. reflexivity.
Defined.

End LockHandle.

(* ===================================================================== *)
(** * A run without environment faults                                    *)
(* ===================================================================== *)

Section FaultFree.
Import Json.
Open Scope string_scope.

Lemma tick_nil w : script w = [] -> tick w = (None, w).
Proof. intros H. unfold tick. by rewrite next_fault_nil, advance_nil. Qed.

Lemma tick_io_nil w : script w = [] -> tick_io w = (Pass, w).
Proof. intros H. unfold tick_io. by rewrite next_fault_nil, advance_nil. Qed.


Lemma os_OpenFile_lock_ok p name w :
  script w = [] ->
  (fs w !! name = None \/ exists c pm, fs w !! name = Some (NFile c pm)) ->
  exists fd m,
    os_OpenFile p name (Z.lor O_CREATE O_RDWR) 438 w
    = (Ok {| f_name := name; f_fd := fd |},
       set_fdtab (<[(pid p, fd) := {| fd_path := name; fd_off := 0 |}]> (fdtab w))
         (set_fs m w))
    /\ (forall x, x <> name -> m !! x = fs w !! x)
    /\ (exists c pm, m !! name = Some (NFile c pm)).
Proof.
  intros Hs Hfile. unfold os_OpenFile.
  unfold mbind, M_bind, mret, M_ret, gets, modify.
  rewrite (tick_nil w Hs).
  assert (Hc : has_flag (Z.lor O_CREATE O_RDWR) O_CREATE = true) by reflexivity.
  assert (He : has_flag (Z.lor O_CREATE O_RDWR) O_EXCL = false) by reflexivity.
  assert (Ht : has_flag (Z.lor O_CREATE O_RDWR) O_TRUNC = false) by reflexivity.
  cbn beta iota. rewrite Hc, He, ?Ht. cbn [andb id].
  destruct Hfile as [Hnone|(c & pm & Hsome)].
  - rewrite (resolve_absent _ _ Hnone). unfold open_fd. cbn [fdtab set_fs].
    eexists _, _. split; [reflexivity|]. split.
    + intros x Hx. by rewrite lookup_insert_ne.
    + eexists _, _. apply lookup_insert_eq.
  - rewrite (resolve_file _ _ _ _ Hsome). unfold open_fd.
    exists (free_fd (size (fdtab w)) (fdtab w) (pid p) 3), (fs w).
    split; [reflexivity|split; [done|eauto]].
Qed.

Lemma find_conflict p path excl lo hi ls r :
  r ∈ ls -> lk_path r = path -> lk_pid r <> pid p ->
  (excl || lk_excl r) = true -> overlaps (lk_lo r) (lk_hi r) lo hi = true ->
  is_Some (conflict p path excl lo hi ls).
Proof.
  intros Hin Hp Hpid Hx Ho. unfold conflict.
  destruct (List.find _ ls) eqn:E; [eauto|].
  eapply List.find_none in E; [|apply list_elem_of_In; exact Hin].
  cbn in E. rewrite Hp, String.eqb_refl, Hx, Ho in E.
  rewrite bool_decide_eq_false_2 in E by done. discriminate E.
Qed.

Lemma FcntlFlock_setlk p fd path w pidv :
  fdtab w !! (pid p, fd) = Some {| fd_path := path; fd_off := 0 |} ->
  script w = [] ->
  syscall_FcntlFlock p fd F_SETLK
    {| l_Type := F_WRLCK; l_Whence := int16 SeekStart; l_Start := 0;
       l_Len := 0; l_Pid := pidv |} w
  = match conflict p path true 0 None (locks w) with
    | Some _ =>
        (Returned ({| l_Type := F_WRLCK; l_Whence := int16 SeekStart; l_Start := 0;
                      l_Len := 0; l_Pid := pidv |}, Some (SyscallError EAGAIN)), w)
    | None =>
        (Returned ({| l_Type := F_WRLCK; l_Whence := int16 SeekStart; l_Start := 0;
                      l_Len := 0; l_Pid := pidv |}, None),
         set_locks (relock p path 0 None
                      [ {| lk_path := path; lk_pid := pid p; lk_excl := true;
                           lk_lo := 0; lk_hi := None |} ] (locks w)) w)
    end.
Proof.
  intros Hfd Hs. unfold syscall_FcntlFlock.
  unfold mbind, M_bind, mret, M_ret, gets, modify. cbn [id].
  rewrite Hfd. rewrite (tick_nil w Hs). cbn beta iota.
  change (flock_range _ _ _) with (Some (0, @None Z)).
  cbn [fd_path l_Type].
  change (F_SETLK =? F_GETLK)%Z with false.
  change ((F_SETLK =? F_SETLK)%Z || (F_SETLK =? F_SETLKW)%Z) with true.
  change (F_WRLCK =? F_UNLCK)%Z with false.
  change ((F_WRLCK =? F_RDLCK)%Z || (F_WRLCK =? F_WRLCK)%Z) with true.
  change (F_WRLCK =? F_WRLCK)%Z with true.
  cbn iota.
  by destruct (conflict p path true 0 None (locks w)).
Qed.

Lemma LockWrite_ok p w :
  script w = [] ->
  (fs w !! lockFile p = None \/ exists c pm, fs w !! lockFile p = Some (NFile c pm)) ->
  conflict p (lockFile p) true 0 None (locks w) = None ->
  exists fl w1,
    LockWrite p (NewFcntlLockfile (lockFile p)) w = ((fl, Returned None), w1)
    /\ script w1 = [] /\ rand w1 = rand w /\ umask w1 = umask w
    /\ (forall x, x <> lockFile p -> fs w1 !! x = fs w !! x)
    /\ (exists c pm, fs w1 !! lockFile p = Some (NFile c pm))
    /\ Path fl = lockFile p
    /\ startup_lock p ∈ locks w1.
Proof.
  intros Hs Hfile Hfree.
  destruct (os_OpenFile_lock_ok p (lockFile p) w Hs Hfile) as (fd & m & Ho & Hm & Hl).
  unfold LockWrite, lock, NewFcntlLockfile.
  unfold mbind, M_bind, mret, M_ret.
  cbn [file Path maintainFile ft set_file set_ft]. rewrite Ho.
  cbn [file Path maintainFile ft set_file set_ft File_Fd f_fd].
  rewrite (FcntlFlock_setlk p fd (lockFile p)); cbn [fdtab set_fdtab set_fs script locks];
    [|apply lookup_insert_eq|exact Hs].
  rewrite Hfree.
  eexists _, _. split; [reflexivity|]. cbn.
  repeat split; try done. unfold relock. apply list_elem_of_here.
Qed.

Lemma os_TempDir_nonempty p : os_TempDir p <> "".
Proof.
  unfold os_TempDir. destruct (String.eqb_spec (TMPDIR p) ""); [discriminate|done].
Qed.

Lemma script_nil_fault w : script w = [] -> fault_errno (next_fault w) = None.
Proof. intros H. by rewrite next_fault_nil. Qed.

Lemma writeTmpFile_ok p dir content w :
  dir <> "" -> script w = [] ->
  fs w !! joinPath dir ("counter_" ++ Itoa (Z.of_nat (rand w))) = None ->
  exists w',
    writeTmpFile p dir "counter" content w
    = (Ok (joinPath dir ("counter_" ++ Itoa (Z.of_nat (rand w)))), w')
    /\ fs w' = <[joinPath dir ("counter_" ++ Itoa (Z.of_nat (rand w)))
                 := NFile content (new_perm 384 w)]> (fs w)
    /\ script w' = [] /\ umask w' = umask w
    /\ (forall rec, rec ∈ locks w -> is_Some (fs w !! lk_path rec) -> rec ∈ locks w').
Proof.
  intros Hdir Hs Hfree.
  destruct (writeTmpFile p dir "counter" content w) as [r w'] eqn:Hw.
  pose proof (writeTmpFile_spec _ _ _ _ _ _ _ Hw) as (Hsuf & Hu & Hl & Hr).
  assert (Hs' : script w' = []).
  { rewrite Hs in Hsuf. by apply suffix_nil_inv in Hsuf. }
  assert (Hok : r = Ok (joinPath dir ("counter_" ++ Itoa (Z.of_nat (rand w))))).
  { revert Hw. unfold writeTmpFile.
    change (if negb (Contains "counter" "*") then "counter" ++ "_*" else "counter")
      with ("counter_" ++ "*").
    destruct (os_CreateTemp_ok p dir "counter_" w Hdir eq_refl eq_refl
                (script_nil_fault w Hs) Hfree) as [fd Hc].
    unfold mbind at 1, M_bind at 1.
    destruct (os_CreateTemp p dir ("counter_" ++ "*") w) as [rc w1] eqn:Hct.
    cbn [fst] in Hc. subst rc.
    apply os_CreateTemp_spec in Hct as (_ & _ & _ & _ & Hfs1 & Hfd & Hsc1).
    cbn [f_name] in *.
    unfold mbind at 1, M_bind at 1.
    destruct (file_Write _ _ content w1) as [rw w2] eqn:Hwr.
    eapply file_Write_spec in Hwr as (_ & _ & _ & _ & _ & _ & Hpass);
      [|exact Hfd|rewrite Hfs1; apply lookup_insert_eq].
    destruct Hpass as [n ->].
    { apply next_fault_nil. by rewrite Hsc1, Hs. }
    unfold mbind, M_bind, mret, M_ret.
    destruct (file_Close _ _ _) as [? ?]. by intros [= <- _]. }
  subst r. destruct Hr as (_ & Hfs & _).
  exists w'. repeat split; try done.
Qed.

Lemma WriteAtomicTmpDir_ok p file content perm w :
  script w = [] ->
  fs w !! temp_name p (rand w) = None ->
  (forall dm, fs w !! file <> Some (NDir dm)) ->
  exists w',
    WriteAtomicTmpDir p "counter" file content perm w = (None, w')
    /\ fs w' = <[file := NFile content (Z.land perm ModePerm)]> (fs w)
    /\ script w' = [] /\ umask w' = umask w
    /\ (forall rec, rec ∈ locks w -> is_Some (fs w !! lk_path rec) -> rec ∈ locks w').
Proof.
  intros Hs Hfree Hdir. unfold temp_name in Hfree.
  destruct (writeTmpFile_ok p (os_TempDir p) content w (os_TempDir_nonempty p) Hs Hfree)
    as (w1 & Hw & Hfs1 & Hs1 & Hu1 & Hl1).
  set (tmp := joinPath _ _) in *.
  unfold WriteAtomicTmpDir, WriteAtomic. unfold mbind at 1, M_bind at 1.
  rewrite Hw. unfold mbind, M_bind, mret, M_ret.
  destruct (os_Chmod tmp perm w1) as [rc w2] eqn:Hc.
  apply os_Chmod_spec in Hc as (Hsc2 & Hu2 & Hl2 & _ & Hfs2 & Hok2).
  assert (rc = None) as ->.
  { eapply Hok2; [by apply script_nil_fault|]. rewrite Hfs1. apply lookup_insert_eq. }
  assert (Hs2 : script w2 = []) by (by rewrite Hsc2, Hs1).
  specialize (Hfs2 content (new_perm 384 w)).
  rewrite Hfs1, lookup_insert_eq, insert_insert_eq in Hfs2. specialize (Hfs2 eq_refl).
  rewrite Rename_same_device by (rewrite Hs2; constructor).
  destruct (os_Rename tmp file w2) as [rr w3] eqn:Hr. cbn [snd].
  apply os_Rename_spec in Hr as (Hsc3 & Hu3 & Hl3 & _ & Hfs3 & Hok3).
  assert (rr = None) as ->.
  { eapply Hok3; [by apply script_nil_fault| |].
    - rewrite Hfs2. apply lookup_insert_eq.
    - intros dm. rewrite Hfs2. destruct (decide (tmp = file)) as [<-|Hne].
      + by rewrite lookup_insert_eq.
      + rewrite lookup_insert_ne by done. apply Hdir. }
  exists w3. split; [reflexivity|].
  split.
  { rewrite (Hfs3 content (Z.land perm ModePerm))
      by (rewrite Hfs2; apply lookup_insert_eq).
    rewrite Hfs2, delete_insert_eq. by rewrite delete_id. }
  split; [by rewrite Hsc3, Hs2|]. split; [congruence|].
  intros rec Hin Hex. rewrite Hl3, Hl2. by apply Hl1.
Qed.

Lemma os_Stat_absent name w :
  script w = [] -> fs w !! name = None ->
  os_Stat name w = (Err (PathError "stat" name ENOENT), w).
Proof.
  intros Hs Hn. unfold os_Stat, mbind, M_bind, mret, M_ret, gets.
  rewrite (tick_nil w Hs). cbn beta iota. by rewrite (resolve_absent _ _ Hn).
Qed.

Lemma os_ReadFile_file name w c pm :
  script w = [] -> fs w !! name = Some (NFile c pm) ->
  os_ReadFile name w = (Ok c, w).
Proof.
  intros Hs Hn. unfold os_ReadFile, mbind, M_bind, mret, M_ret, gets.
  rewrite (tick_nil w Hs). cbn beta iota. by rewrite (resolve_file _ _ _ _ Hn).
Qed.

Lemma main_startup_ok cd p file listen w :
  file <> "" -> listen <> "" -> script w = [] ->
  fs w !! file = None -> file <> lockFile p ->
  lock_available p w -> staging_clear p file w ->
  exists fl w1,
    main cd p file listen w
    = (Serving {| fileName := file; listenAddr := listen; number := zero |} fl, w1)
    /\ script w1 = [] /\ Path fl = lockFile p
    /\ fs w1 !! file = Some (NFile (bytes "0") 420)
    /\ (forall x, x <> file -> x <> lockFile p -> fs w1 !! x = fs w !! x)
    /\ (exists c pm, fs w1 !! lockFile p = Some (NFile c pm))
    /\ startup_lock p ∈ locks w1.
Proof.
  intros Hfile Hlisten Hs Habs Hne [Hlf Hnc] Hclear.
  destruct (LockWrite_ok p w Hs Hlf Hnc)
    as (fl & w1 & Hlock & Hs1 & _ & _ & Hfs1 & Hl1 & Hpath & Hrec).
  unfold main. unfold mbind at 1, M_bind at 1. rewrite Hlock.
  cbn [listenAddr fileName number].
  destruct (String.eqb_spec listen ""); [done|].
  destruct (String.eqb_spec file ""); [done|]. cbn [orb].
  unfold createFile. unfold mbind, M_bind, mret, M_ret.
  rewrite os_Stat_absent by (rewrite ?Hfs1; done).
  change (is_ErrNotExist (PathError "stat" file ENOENT)) with true. cbn iota.
  unfold initFile. change (Marshal cd (number _)) with (@Ok (list Byte.byte) (bytes "0")).
  cbn iota.
  destruct (WriteAtomicTmpDir_ok p file (bytes "0") 420 w1 Hs1)
    as (w2 & Hw & Hfs2 & Hs2 & _ & Hl2).
  { destruct (Hclear (rand w1)) as (Hk & _ & Hkl). by rewrite Hfs1. }
  { intros dm. by rewrite Hfs1, Habs. }
  cbn [number] in *. rewrite Hw. cbn iota.
  rewrite (os_ReadFile_file file w2 (bytes "0") (Z.land 420 ModePerm))
    by (rewrite ?Hfs2; try done; apply lookup_insert_eq).
  change (Unmarshal cd (bytes "0") zero) with (@Ok float64 zero). cbn iota.
  unfold net_Listen, mbind, M_bind, mret, M_ret. rewrite (tick_nil w2 Hs2).
  cbn beta iota.
  exists fl, w2. split; [reflexivity|].
  split; [done|]. split; [done|].
  split; [rewrite Hfs2; apply lookup_insert_eq|].
  split; [intros x Hx Hxl; rewrite Hfs2, lookup_insert_ne by done; by apply Hfs1|].
  split.
  - destruct Hl1 as (c & pm & Hc). exists c, pm.
    by rewrite Hfs2, lookup_insert_ne.
  - apply Hl2; [done|]. destruct Hl1 as (c & pm & Hc). cbn. by rewrite Hc.
Qed.

Lemma hostname_ok cd p g rw w out :
  script w = [] ->
  Marshal cd (incr (number g)) = Ok out ->
  fs w !! temp_name p (rand w) = None ->
  (forall dm, fs w !! fileName g <> Some (NDir dm)) ->
  exists w',
    hostname cd p g rw w
    = ((set_number (incr (number g)) g,
        Write (bytes (Itoa (to_int (incr (number g))))) rw), w')
    /\ fs w' = <[fileName g := NFile out 420]> (fs w)
    /\ script w' = [].
Proof.
  intros Hs Hm Hfree Hdir. unfold hostname. cbn [number set_number fileName].
  rewrite Hm.
  destruct (WriteAtomicTmpDir_ok p (fileName g) out 420 w Hs Hfree Hdir)
    as (w' & Hw & Hfs & Hs' & _).
  unfold mbind, M_bind, mret, M_ret. rewrite Hw.
  exists w'. split; [reflexivity|]. split; [exact Hfs|exact Hs'].
Qed.

Lemma hostname_persist_fails cd p g rw w :
  persist_fails cd p g w ->
  hostname cd p g rw w
  = ((set_number (decr (incr (number g))) g,
      WriteHeader StatusServiceUnavailable rw),
     match Marshal cd (incr (number g)) with
     | Ok out => (WriteAtomicTmpDir p "counter" (fileName g) out 420 w).2
     | Err _ => w
     end).
Proof.
  unfold persist_fails, hostname. cbn [number set_number fileName].
  destruct (Marshal cd (incr (number g))) as [out|err]; [|done].
  intros [e He]. unfold mbind, M_bind, mret, M_ret.
  destruct (WriteAtomicTmpDir p "counter" (fileName g) out 420 w) as [r w'].
  cbn in He. by subst r.
Qed.

Lemma main_excluded cd p file listen w r :
  r ∈ locks w -> lk_path r = lockFile p -> lk_pid r <> pid p ->
  lk_excl r = true -> lk_lo r = 0 -> lk_hi r = None ->
  (exists c pm, fs w !! lockFile p = Some (NFile c pm)) ->
  (main cd p file listen w).1 = Exit 1.
Proof.
  intros Hin Hpath Hpid Hex Hlo Hhi (c & pm & Hfile).
  unfold main, LockWrite, lock, NewFcntlLockfile, os_OpenFile.
  unfold mbind, M_bind, mret, M_ret, gets, modify, tick.
  cbn [Lockfile.file Path maintainFile ft set_file set_ft id].
  destruct (fault_errno (next_fault w)) as [e|]; [reflexivity|].
  assert (Hc : has_flag (Z.lor O_CREATE O_RDWR) O_CREATE = true) by reflexivity.
  assert (He : has_flag (Z.lor O_CREATE O_RDWR) O_EXCL = false) by reflexivity.
  assert (Ht : has_flag (Z.lor O_CREATE O_RDWR) O_TRUNC = false) by reflexivity.
  rewrite Hc, He, Ht. cbn [andb fs advance set_script].
  rewrite (resolve_file _ _ _ _ Hfile). unfold open_fd.
  cbn [Lockfile.file Path maintainFile ft set_file set_ft File_Fd f_fd].
  unfold syscall_FcntlFlock, mbind, M_bind, mret, M_ret, gets, modify, tick.
  cbn [id fdtab set_fdtab]. rewrite lookup_insert_eq.
  destruct (fault_errno (next_fault _)) as [e|].
  - cbn [maintainFile]. unfold close_file. cbn [Lockfile.file set_file set_ft].
    unfold mbind, M_bind, mret, M_ret.
    by destruct (file_Close _ _ _) as [[? ?] ?].
  - change (flock_range _ _ _) with (Some (0, @None Z)).
    cbn [fd_path l_Type locks advance set_script set_fdtab].
    change (F_SETLK =? F_GETLK)%Z with false.
    change ((F_SETLK =? F_SETLK)%Z || (F_SETLK =? F_SETLKW)%Z) with true.
    change (F_WRLCK =? F_UNLCK)%Z with false.
    change ((F_WRLCK =? F_RDLCK)%Z || (F_WRLCK =? F_WRLCK)%Z) with true.
    change (F_WRLCK =? F_WRLCK)%Z with true.
    cbn iota.
    destruct (find_conflict p (lockFile p) true 0 None (locks w) r Hin Hpath Hpid
                eq_refl) as [r' ->].
    { unfold overlaps. by rewrite Hlo, Hhi. }
    cbn [maintainFile]. unfold close_file. cbn [Lockfile.file set_file set_ft].
    unfold mbind, M_bind, mret, M_ret.
    change (F_SETLK =? F_SETLKW)%Z with false. cbn beta iota.
    by destruct (file_Close _ _ _) as [[? ?] ?].
Qed.

End FaultFree.

(* ===================================================================== *)
(** * The service from an absent counter file                             *)
(* ===================================================================== *)

Section Service.
Import Json.
Open Scope string_scope.

(** C8: start with no counter file and no environment fault.  [main]
    reaches the serving state and GET /latest answers "0".  One GET
    /hostname answers 200, after it GET /latest answers "1", and the
    counter file decodes to 1.  If the environment is then changed (to
    [faults]) so that the persist step of a second GET /hostname fails,
    that request is answered 503 with an empty body and GET /latest still
    answers "1". *)
Theorem absent_counter_file_scenario cd p file listen w faults :
  file <> "" -> listen <> "" -> script w = [] ->
  fs w !! file = None -> file <> lockFile p ->
  lock_available p w -> staging_clear p file w ->
  exists g fl w1,
    main cd p file listen w = (Serving g fl, w1)
    /\ reply (latestCounter g new_response) = (200, bytes "0")
    /\ let first := hostname cd p g new_response w1 in
       reply first.1.2 = (200, bytes "1")
       /\ reply (latestCounter first.1.1 new_response) = (200, bytes "1")
       /\ (exists c, on_disk first.2 file = Some c
                     /\ forall v, Unmarshal cd c v = Ok one)
       /\ let w2 := set_script faults first.2 in
          (persist_fails cd p first.1.1 w2 ->
           let second := hostname cd p first.1.1 new_response w2 in
           reply second.1.2 = (503, [])
           /\ reply (latestCounter second.1.1 new_response) = (200, bytes "1")).
Proof.
  intros Hfile Hlisten Hs Habs Hne Hlock Hclear.
  destruct (main_startup_ok cd p file listen w Hfile Hlisten Hs Habs Hne Hlock Hclear)
    as (fl & w1 & Hmain & Hs1 & _ & Hf1 & Hfs1 & _ & _).
  eexists _, fl, w1. split; [exact Hmain|]. split; [reflexivity|].
  set (g := {| fileName := file; listenAddr := listen; number := zero |}).
  destruct (hostname_ok cd p g new_response w1 (bytes "1") Hs1 eq_refl)
    as (w2 & Hh & Hfs2 & Hs2).
  { destruct (Hclear (rand w1)) as (Hk & Hkf & Hkl). by rewrite Hfs1. }
  { intros dm. cbn [fileName g]. by rewrite Hf1. }
  cbn zeta. rewrite Hh. cbn [fst snd].
  split; [reflexivity|]. split; [reflexivity|]. split.
  - exists (bytes "1"). split; [|reflexivity].
    unfold on_disk. by rewrite Hfs2, (resolve_file _ _ (bytes "1") 420)
      by apply lookup_insert_eq.
  - intros Hfail. rewrite (hostname_persist_fails _ _ _ _ _ Hfail).
    cbn [fst snd]. split; reflexivity.
Qed.

Lemma absent_counter_file_scenario_witness :
  exists g fl w1,
    main plain_codec service "counter.txt" ":8080" (machine None [])
    = (Serving g fl, w1)
    /\ reply (latestCounter g new_response) = (200, bytes "0")
    /\ let first := hostname plain_codec service g new_response w1 in
       reply first.1.2 = (200, bytes "1")
       /\ reply (latestCounter first.1.1 new_response) = (200, bytes "1")
       /\ (exists c, on_disk first.2 "counter.txt" = Some c
                     /\ forall v, Unmarshal plain_codec c v = Ok one)
       /\ let w2 := set_script [Fail FEROFS] first.2 in
          (persist_fails plain_codec service first.1.1 w2 ->
           let second := hostname plain_codec service first.1.1 new_response w2 in
           reply second.1.2 = (503, [])
           /\ reply (latestCounter second.1.1 new_response) = (200, bytes "1")).
Proof.
  apply (absent_counter_file_scenario plain_codec service "counter.txt" ":8080"
           (machine None []) [Fail FEROFS]).
  - discriminate.
  - discriminate.
  - reflexivity.
  - reflexivity.
  - vm_compute. discriminate.
  - split; [left; reflexivity | reflexivity].
  - intros k. split; [reflexivity|].
    split; intros H; vm_compute in H; discriminate H.
Defined.

(** The forced failure of the witness is a real one: with the staging
    directory read-only the persist step fails. *)
Lemma read_only_staging_fails :
  persist_fails plain_codec service (globals_at one)
    (machine (Some "1") [Fail FEROFS]).
Proof. vm_compute. eexists. reflexivity. Qed.

(** C10: the lock file of an instance is ["counter.lock"] in its temporary
    directory whatever counter file it is configured with; and once an
    instance has started, a second instance that sees the same temporary
    directory exits with status 1, whatever its own counter file, listen
    address and environment are. *)
Theorem lock_file_excludes_second_instance
    cd p1 p2 file1 listen1 file2 listen2 w faults :
  file1 <> "" -> listen1 <> "" -> script w = [] ->
  fs w !! file1 = None -> file1 <> lockFile p1 ->
  lock_available p1 w -> staging_clear p1 file1 w ->
  pid p1 <> pid p2 -> os_TempDir p2 = os_TempDir p1 ->
  lockFile p2 = Filepath.Join [os_TempDir p1; "counter.lock"]
  /\ exists g fl w1,
       main cd p1 file1 listen1 w = (Serving g fl, w1)
       /\ Path fl = Filepath.Join [os_TempDir p1; "counter.lock"]
       /\ (main cd p2 file2 listen2 (set_script faults w1)).1 = Exit 1.
Proof.
  intros Hfile Hlisten Hs Habs Hne Hlock Hclear Hpid Htmp.
  assert (Hsame : lockFile p2 = lockFile p1) by (unfold lockFile; by rewrite Htmp).
  split; [by rewrite Hsame|].
  destruct (main_startup_ok cd p1 file1 listen1 w Hfile Hlisten Hs Habs Hne Hlock Hclear)
    as (fl & w1 & Hmain & _ & Hpath & _ & _ & Hlf & Hrec).
  eexists _, fl, w1. split; [exact Hmain|]. split; [exact Hpath|].
  apply (main_excluded cd p2 file2 listen2 (set_script faults w1) (startup_lock p1));
    cbn [locks set_script fs lk_path lk_pid lk_excl lk_lo lk_hi startup_lock];
    try done.
  by rewrite Hsame.
Qed.

Lemma lock_file_excludes_second_instance_witness :
  lockFile second_instance = Filepath.Join [os_TempDir service; "counter.lock"]
  /\ exists g fl w1,
       main plain_codec service "counter.txt" ":8080" (machine None [])
       = (Serving g fl, w1)
       /\ Path fl = Filepath.Join [os_TempDir service; "counter.lock"]
       /\ (main plain_codec second_instance "other.txt" ":8081"
             (set_script [] w1)).1 = Exit 1.
Proof.
  apply (lock_file_excludes_second_instance plain_codec service second_instance
           "counter.txt" ":8080" "other.txt" ":8081" (machine None []) []).
  - discriminate.
  - discriminate.
  - reflexivity.
  - reflexivity.
  - vm_compute. discriminate.
  - split; [left; reflexivity | reflexivity].
  - intros k. split; [reflexivity|].
    split; intros H; vm_compute in H; discriminate H.
  - discriminate.
  - reflexivity.
Defined.

(** With [$TMPDIR] unset the lock file is [/tmp/counter.lock]. *)
Lemma lockFile_default : lockFile service = "/tmp/counter.lock".
Proof. reflexivity. Qed.

End Service.

(* ===================================================================== *)
(** * Whole counts: printing, parsing and the handler                     *)
(* ===================================================================== *)

Section WholeNumbers.
Import Json.
Open Scope string_scope.

Lemma to_uint_head p d : Pos.to_uint p <> Decimal.D0 d.
Proof.
  intros H.
  assert (Hn : Decimal.unorm (Pos.to_uint p) = Pos.to_uint p).
  { rewrite <- (DecimalPos.Unsigned.to_of (Pos.to_uint p)).
    rewrite DecimalPos.Unsigned.of_to. reflexivity. }
  rewrite H in Hn. rewrite unorm_D0 in Hn.
  unfold Decimal.unorm in Hn.
  destruct (Decimal.nzhead d) eqn:E;
    try (exact (nzhead_nonzero d _ (eq_trans E Hn))).
  injection Hn as <-. exact (DecimalPos.Unsigned.to_uint_nonzero p H).
Qed.

Lemma int_literal_Itoa n : (0 <= n)%Z -> int_literal (Itoa n) = Some (false, n).
Proof.
  intros Hn. destruct n as [|N|N]; [reflexivity| |lia].
  unfold Itoa. cbn [Z.to_int NilZero.string_of_int].
  assert (Hv : Z.of_uint (Pos.to_uint N) = Z.pos N).
  { unfold Z.of_uint. rewrite DecimalPos.Unsigned.of_to. reflexivity. }
  pose proof (to_uint_head N) as Hh.
  pose proof (DecimalPos.Unsigned.to_uint_nonnil N) as Hnil.
  pose proof (NilEmpty.usu (Pos.to_uint N)) as Hu.
  destruct (Pos.to_uint N) as [|d|d|d|d|d|d|d|d|d|d] eqn:E;
    [congruence | exfalso; exact (Hh d eq_refl) | ..];
    unfold int_literal;
    cbn [NilZero.string_of_uint NilEmpty.string_of_uint] in *;
    rewrite Hu, Hv; reflexivity.
Qed.

Lemma integral_canon N :
  (Z.pos N < 2 ^ 53)%Z ->
  integral (canon_m N) (canon_e N) = true
  /\ trunc_mag (canon_m N) (canon_e N) = Z.pos N.
Proof.
  intros HN. destruct (canon_spec N HN) as (_ & Hm & He).
  unfold integral, trunc_mag. rewrite Hm.
  assert (Hk : (53 - Z.pos (digits2_pos N) = - canon_e N)%Z) by (unfold canon_e; lia).
  rewrite Hk. split.
  - apply orb_true_iff. right. apply Z.eqb_eq.
    rewrite Z.land_ones by lia. apply Z_mod_mult.
  - replace (canon_e N) with (- - canon_e N)%Z at 2 by lia.
    rewrite Z.shiftl_opp_r, Z.shiftr_div_pow2 by lia.
    apply Z_div_mult. apply Z.lt_gt, Z.pow_pos_nonneg; lia.
Qed.

Lemma Marshal_of_Z cd n :
  (0 <= n < 2 ^ 53)%Z -> Marshal cd (of_Z n) = Ok (bytes (Itoa n)).
Proof.
  intros [Hn Hlt]. destruct n as [|N|N]; [reflexivity| |lia].
  rewrite (of_Z_pos N Hlt). destruct (integral_canon N Hlt) as [Hi Ht].
  unfold Marshal. rewrite Hi, Ht.
  destruct (Z.ltb_spec (Z.pos N) (2 ^ 53)); [reflexivity | lia].
Qed.

Lemma to_int_of_Z n : (0 <= n < 2 ^ 53)%Z -> to_int (of_Z n) = n.
Proof.
  intros [Hn Hlt]. destruct n as [|N|N]; [reflexivity| |lia].
  rewrite (of_Z_pos N Hlt). destruct (integral_canon N Hlt) as [_ Ht].
  unfold to_int. rewrite Ht. unfold min_int64.
  destruct (Z.leb_spec (- 2 ^ 63) (Z.pos N)); [|lia].
  destruct (Z.ltb_spec (Z.pos N) (2 ^ 63)); [reflexivity | lia].
Qed.

Lemma Unmarshal_Itoa cd n v :
  (0 <= n < 2 ^ 53)%Z -> Unmarshal cd (bytes (Itoa n)) v = Ok (of_Z n).
Proof.
  intros [Hn Hlt]. unfold Unmarshal, bytes.
  rewrite string_of_list_byte_of_string, (int_literal_Itoa n Hn).
  destruct n as [|N|N]; [reflexivity| |lia].
  rewrite (of_Z_pos N Hlt). reflexivity.
Qed.

Lemma reply_Write data : reply (Write data new_response) = (200%Z, data).
Proof. reflexivity. Qed.

(** One request on a whole count. *)
Lemma hostname_whole cd p g w n :
  (0 <= n)%Z -> (n + 1 < 2 ^ 53)%Z -> number g = of_Z n ->
  script w = [] -> fs w !! temp_name p (rand w) = None ->
  (forall dm, fs w !! fileName g <> Some (NDir dm)) ->
  exists w',
    hostname cd p g new_response w
    = ((set_number (of_Z (n + 1)) g,
        Write (bytes (Itoa (n + 1))) new_response), w')
    /\ fs w' = <[fileName g := NFile (bytes (Itoa (n + 1))) 420]> (fs w)
    /\ script w' = [].
Proof.
  intros Hn Hlt Hg Hs Hfree Hdir.
  assert (Hi : incr (number g) = of_Z (n + 1)) by (rewrite Hg; apply incr_of_Z; lia).
  destruct (hostname_ok cd p g new_response w (bytes (Itoa (n + 1))) Hs)
    as (w' & Hh & Hfs & Hs'); try done.
  { rewrite Hi. apply Marshal_of_Z. lia. }
  exists w'. rewrite Hh, Hi, to_int_of_Z by lia. done.
Qed.

Lemma hostname_times_ok cd p k : forall g w n,
  (0 <= n)%Z -> (n + Z.of_nat k < 2 ^ 53)%Z -> number g = of_Z n ->
  script w = [] -> staging_clear p (fileName g) w ->
  (forall dm, fs w !! fileName g <> Some (NDir dm)) ->
  exists w',
    hostname_times cd p k g w = (set_number (of_Z (n + Z.of_nat k)) g, w')
    /\ script w' = []
    /\ (forall x, x <> fileName g -> fs w' !! x = fs w !! x)
    /\ (k <> O ->
        fs w' !! fileName g = Some (NFile (bytes (Itoa (n + Z.of_nat k))) 420)).
Proof.
  induction k as [|k IH]; intros g w n Hn Hlt Hg Hs Hclear Hdir.
  - exists w. cbn [hostname_times]. rewrite Z.add_0_r, <- Hg.
    destruct g. repeat split; done.
  - assert (Hfree : fs w !! temp_name p (rand w) = None)
      by (by destruct (Hclear (rand w)) as (? & _)).
    destruct (hostname_whole cd p g w n Hn ltac:(lia) Hg Hs Hfree Hdir)
      as (w1 & Hh & Hfs1 & Hs1).
    assert (Hclear1 : staging_clear p (fileName (set_number (of_Z (n + 1)) g)) w1).
    { intros j. destruct (Hclear j) as (Hj & Hjf & Hjl). cbn [fileName set_number].
      split; [|done]. by rewrite Hfs1, lookup_insert_ne. }
    assert (Hdir1 : forall dm, fs w1 !! fileName (set_number (of_Z (n + 1)) g)
                               <> Some (NDir dm)).
    { intros dm. cbn [fileName set_number]. by rewrite Hfs1, lookup_insert_eq. }
    assert (Hn1 : (0 <= n + 1)%Z) by lia.
    assert (Hlt1 : (n + 1 + Z.of_nat k < 2 ^ 53)%Z).
    { lia. }
    destruct (IH (set_number (of_Z (n + 1)) g) w1 (n + 1)%Z
                Hn1 Hlt1 eq_refl Hs1 Hclear1 Hdir1)
      as (w2 & Hk & Hs2 & Hfr & Hfile).
    exists w2. cbn [hostname_times]. unfold mbind, M_bind. rewrite Hh.
    cbn [fileName set_number] in *.
    replace (n + Z.of_nat (S k))%Z with (n + 1 + Z.of_nat k)%Z by lia.
    split; [exact Hk|]. split; [done|]. split.
    + intros x Hx. rewrite Hfr by done. by rewrite Hfs1, lookup_insert_ne.
    + intros _. destruct k as [|k'].
      * cbn [hostname_times] in Hk. injection Hk as _ <-.
        rewrite Hfs1, lookup_insert_eq.
        by replace (n + 1 + Z.of_nat 0)%Z with (n + 1)%Z by lia.
      * by apply Hfile.
Qed.

Lemma os_Stat_file name w c pm :
  script w = [] -> fs w !! name = Some (NFile c pm) ->
  os_Stat name w = (Ok (info_of (NFile c pm)), w).
Proof.
  intros Hs Hn. unfold os_Stat, mbind, M_bind, mret, M_ret, gets.
  rewrite (tick_nil w Hs). cbn beta iota. by rewrite (resolve_file _ _ _ _ Hn).
Qed.

(** Start-up over a counter file that holds a whole count. *)
Lemma main_resume_ok cd p file listen w n pm :
  file <> "" -> listen <> "" -> script w = [] ->
  (0 <= n < 2 ^ 53)%Z ->
  fs w !! file = Some (NFile (bytes (Itoa n)) pm) -> file <> lockFile p ->
  lock_available p w ->
  exists fl w1,
    main cd p file listen w
    = (Serving {| fileName := file; listenAddr := listen; number := of_Z n |} fl, w1)
    /\ script w1 = [] /\ Path fl = lockFile p
    /\ (forall x, x <> lockFile p -> fs w1 !! x = fs w !! x)
    /\ startup_lock p ∈ locks w1.
Proof.
  intros Hfile Hlisten Hs Hn Hcnt Hne [Hlf Hnc].
  destruct (LockWrite_ok p w Hs Hlf Hnc)
    as (fl & w1 & Hlock & Hs1 & _ & _ & Hfs1 & Hl1 & Hpath & Hrec).
  unfold main. unfold mbind at 1, M_bind at 1. rewrite Hlock.
  cbn [listenAddr fileName number].
  destruct (String.eqb_spec listen ""); [done|].
  destruct (String.eqb_spec file ""); [done|]. cbn [orb].
  unfold createFile. unfold mbind, M_bind, mret, M_ret.
  rewrite (os_Stat_file file w1 (bytes (Itoa n)) pm) by (rewrite ?Hfs1; done).
  cbn iota.
  rewrite (os_ReadFile_file file w1 (bytes (Itoa n)) pm) by (rewrite ?Hfs1; done).
  rewrite (Unmarshal_Itoa cd n zero Hn). cbn iota.
  unfold net_Listen, mbind, M_bind, mret, M_ret. rewrite (tick_nil w1 Hs1).
  cbn beta iota.
  exists fl, w1. split; [reflexivity|]. repeat split; done.
Qed.

End WholeNumbers.

(* ===================================================================== *)
(** * Rounding a value that a float64 holds                               *)
(* ===================================================================== *)

Section ExactRounding.
Import Strconv.

Lemma bounded_spec m e :
  bounded prec emax m e = true ->
  fexp prec emax (Z.pos (digits2_pos m) + e) = e /\ e <= 971.
Proof.
  unfold bounded, canonical_mantissa. intros H.
  apply andb_prop in H as [H1 H2].
  apply Z.eqb_eq in H1. apply Z.leb_le in H2. unfold prec, emax in *. lia.
Qed.

Lemma fexp_mono a b : a <= b -> fexp prec emax a <= fexp prec emax b.
Proof. unfold fexp. lia. Qed.

(** The mantissa of a float64 with [k] more zero bits rounds to the
    float64. *)
Lemma round_aux_exact s (m : positive) e k :
  bounded prec emax m e = true -> 0 <= k ->
  binary_round_aux prec emax s (Z.pos m * 2 ^ k) (e - k) loc_Exact
  = S754_finite s m e.
Proof.
  intros Hb Hk. destruct (bounded_spec m e Hb) as [Hf He].
  assert (Hlast :
    (let '(mrs'', e'') := shr_fexp prec emax (Z.pos m) e loc_Exact in
     match shr_m mrs'' with
     | 0 => S754_zero s
     | Z.pos m0 =>
         if e'' <=? emax - prec then S754_finite s m0 e'' else S754_infinity s
     | Z.neg _ => S754_nan
     end) = S754_finite s m e).
  { unfold shr_fexp. cbn [Zdigits2 shr_record_of_loc]. rewrite Hf, Z.sub_diag.
    cbn [shr shr_m].
    replace (e <=? emax - prec) with true
      by (symmetry; apply Z.leb_le; unfold emax, prec; lia).
    reflexivity. }
  unfold binary_round_aux.
  destruct k as [|k|k]; [| |lia].
  - rewrite Z.mul_1_r, Z.sub_0_r.
    unfold shr_fexp at 1. cbn [Zdigits2 shr_record_of_loc]. rewrite Hf, Z.sub_diag.
    cbn [shr shr_m loc_of_shr_record round_nearest_even]. exact Hlast.
  - rewrite <- pos_iter_xO.
    unfold shr_fexp at 1. cbn [Zdigits2 shr_record_of_loc].
    rewrite digits_shift, Pos2Z.inj_add.
    replace (Z.pos (digits2_pos m) + Z.pos k + (e - Z.pos k))
      with (Z.pos (digits2_pos m) + e) by lia.
    rewrite Hf. replace (e - (e - Z.pos k)) with (Z.pos k) by lia.
    cbn [shr]. rewrite shr_exact.
    cbn [shr_m loc_of_shr_record round_nearest_even].
    replace (e - Z.pos k + Z.pos k) with e by lia. exact Hlast.
Qed.

(** The same value with another exponent has the same magnitude. *)
Lemma digits_same_value (a b : positive) t u :
  0 <= t -> 0 <= u -> Z.pos a * 2 ^ t = Z.pos b * 2 ^ u ->
  Z.pos (digits2_pos a) + t = Z.pos (digits2_pos b) + u.
Proof.
  intros Ht Hu H.
  pose proof (digits_lt a) as La. pose proof (digits_ge a) as Ga.
  pose proof (digits_lt b) as Lb. pose proof (digits_ge b) as Gb.
  set (da := Z.pos (digits2_pos a)) in *. set (db := Z.pos (digits2_pos b)) in *.
  assert (Hda : 0 < da) by (unfold da; lia).
  assert (Hdb : 0 < db) by (unfold db; lia).
  assert (P : forall x, 0 <= x -> 0 < 2 ^ x) by (intros; apply Z.pow_pos_nonneg; lia).
  (* 2^(da+t) <= 2 * a * 2^t = 2 * b * 2^u < 2 * 2^(db+u) *)
  assert (H1 : 2 ^ (da + t) < 2 ^ (db + u + 1)).
  { rewrite Z.pow_add_r by lia. rewrite (Z.pow_add_r 2 (db + u) 1) by lia.
    rewrite (Z.pow_add_r 2 db u) by lia. change (2 ^ 1) with 2.
    pose proof (P t Ht). pose proof (P u Hu). nia. }
  assert (H2 : 2 ^ (db + u) < 2 ^ (da + t + 1)).
  { rewrite Z.pow_add_r by lia. rewrite (Z.pow_add_r 2 (da + t) 1) by lia.
    rewrite (Z.pow_add_r 2 da t) by lia. change (2 ^ 1) with 2.
    pose proof (P t Ht). pose proof (P u Hu). nia. }
  apply Z.pow_lt_mono_r_iff in H1; [|lia|lia].
  apply Z.pow_lt_mono_r_iff in H2; [|lia|lia]. lia.
Qed.

(** [float64(n)] of an integer that a float64 holds. *)
Lemma of_Z_exact s (N m : positive) e :
  bounded prec emax m e = true ->
  Z.pos N * 2 ^ Z.max (- e) 0 = Z.pos m * 2 ^ Z.max e 0 ->
  of_Z (if s : bool then Z.neg N else Z.pos N) = S754_finite s m e.
Proof.
  intros Hb Hv. destruct (bounded_spec m e Hb) as [Hf He].
  assert (Hd : Z.pos (digits2_pos N) + 0 = Z.pos (digits2_pos m) + e).
  { pose proof (digits_same_value N m (Z.max (- e) 0) (Z.max e 0)
                  ltac:(lia) ltac:(lia) Hv). lia. }
  assert (Hr : binary_round prec emax s N 0 = S754_finite s m e).
  { unfold binary_round. rewrite Hd, Hf.
    destruct (Z_le_gt_dec e 0) as [Hle|Hgt].
    - destruct (shl_align_value N 0 e Hle) as [H1 H2].
      destruct (shl_align N 0 e) as [mz ez]. cbn [fst snd] in *. subst ez.
      rewrite Z.max_l, Z.max_r, Z.mul_1_r in Hv by lia.
      rewrite Z.sub_0_l in H2. rewrite H2, Hv.
      pose proof (round_aux_exact s m e 0 Hb ltac:(lia)) as R.
      rewrite Z.mul_1_r, Z.sub_0_r in R. exact R.
    - unfold shl_align. destruct (e - 0) eqn:E; try lia.
      rewrite Z.max_r, Z.max_l, Z.mul_1_r in Hv by lia. rewrite Hv.
      pose proof (round_aux_exact s m e e Hb ltac:(lia)) as R.
      rewrite Z.sub_diag in R. exact R. }
  unfold of_Z. destruct s; exact Hr.
Qed.

Lemma div_eucl_exact q d : 0 < d -> Z.div_eucl (q * d) d = (q, 0).
Proof.
  intros Hd. pose proof (Z_div_mult q d ltac:(lia)) as H1.
  pose proof (Z_mod_mult q d) as H2. unfold Z.div, Z.modulo in *.
  destruct (Z.div_eucl (q * d) d) as [a b]. cbn in *. congruence.
Qed.

Lemma new_location_exact d : new_location d 0 = loc_Exact.
Proof. unfold new_location. destruct (Z.even d); reflexivity. Qed.

(** The correctly rounded quotient, when the quotient is a float64. *)
Lemma div_exact s (M D m : positive) e :
  bounded prec emax m e = true ->
  Z.pos M * 2 ^ Z.max (- e) 0 = Z.pos m * 2 ^ Z.max e 0 * Z.pos D ->
  (let '(q, e', l) := SFdiv_core_binary prec emax (Z.pos M) 0 (Z.pos D) 0 in
   binary_round_aux prec emax s q e' l) = S754_finite s m e.
Proof.
  intros Hb Hv. destruct (bounded_spec m e Hb) as [Hf He].
  pose proof (digits_lt M) as LM. pose proof (digits_ge M) as GM.
  pose proof (digits_lt D) as LD. pose proof (digits_ge D) as GD.
  pose proof (digits_lt m) as Lm. pose proof (digits_ge m) as Gm.
  set (d1 := Z.pos (digits2_pos M)) in *. set (d2 := Z.pos (digits2_pos D)) in *.
  set (dm := Z.pos (digits2_pos m)) in *.
  assert (P : forall x, 0 <= x -> 0 < 2 ^ x) by (intros; apply Z.pow_pos_nonneg; lia).
  set (t := Z.max (- e) 0) in *. set (u := Z.max e 0) in *.
  assert (Hmag : d1 - d2 <= dm + e).
  { assert (H1 : 2 ^ (d1 + t) < 2 ^ (dm + u + d2 + 1)).
    { rewrite (Z.pow_add_r 2 d1 t) by (unfold d1; lia).
      rewrite (Z.pow_add_r 2 (dm + u + d2) 1) by (unfold dm, d2; lia).
      rewrite (Z.pow_add_r 2 (dm + u) d2) by (unfold dm, d2; lia).
      rewrite (Z.pow_add_r 2 dm u) by (unfold dm; lia). change (2 ^ 1) with 2.
      pose proof (P t ltac:(lia)). pose proof (P u ltac:(lia)).
      assert (2 ^ d1 * 2 ^ t <= 2 * (Z.pos M * 2 ^ t)) by nia.
      assert (Z.pos m * 2 ^ u * Z.pos D < 2 ^ dm * 2 ^ u * 2 ^ d2).
      { apply Z.mul_lt_mono_nonneg; [nia| |lia|lia].
        apply Z.mul_lt_mono_pos_r; lia. }
      lia. }
    apply Z.pow_lt_mono_r_iff in H1; [|lia|unfold dm, d2; lia]. lia. }
  unfold SFdiv_core_binary. cbn [Zdigits2]. fold d1 d2.
  rewrite !Z.add_0_r, Z.sub_0_r.
  set (e' := Z.min (fexp prec emax (d1 - d2)) 0).
  assert (He' : e' <= e /\ e' <= 0).
  { pose proof (fexp_mono _ _ Hmag) as Hm. fold dm in Hf. rewrite Hf in Hm.
    unfold e'. lia. }
  assert (Hq : Z.pos M * 2 ^ (- e') = Z.pos m * 2 ^ (e - e') * Z.pos D).
  { apply (Z.mul_cancel_r _ _ (2 ^ t)); [pose proof (P t ltac:(lia)); lia|].
    replace (Z.pos M * 2 ^ (- e') * 2 ^ t)
      with (Z.pos M * 2 ^ t * 2 ^ (- e')) by ring.
    rewrite Hv.
    replace (Z.pos m * 2 ^ (e - e') * Z.pos D * 2 ^ t)
      with (Z.pos m * (2 ^ (e - e') * 2 ^ t) * Z.pos D) by ring.
    replace (Z.pos m * 2 ^ u * Z.pos D * 2 ^ (- e'))
      with (Z.pos m * (2 ^ u * 2 ^ (- e')) * Z.pos D) by ring.
    rewrite <- !Z.pow_add_r by lia. do 3 f_equal. lia. }
  assert (Hm' : match 0 - e' with
                | 0 => Z.pos M
                | Z.pos _ => Z.shiftl (Z.pos M) (0 - e')
                | Z.neg _ => 0
                end = Z.pos m * 2 ^ (e - e') * Z.pos D).
  { clearbody e'. rewrite Z.sub_0_l. destruct (Z.eq_dec e' 0) as [->|Hz].
    - change (- 0) with 0 in *. cbv beta iota. rewrite <- Hq.
      change (2 ^ 0) with 1. lia.
    - destruct (- e') eqn:E; try lia.
      rewrite Z.shiftl_mul_pow2 by lia. exact Hq. }
  rewrite Hm', div_eucl_exact by lia. rewrite new_location_exact.
  pose proof (round_aux_exact s m e (e - e') Hb ltac:(lia)) as R.
  replace (e - (e - e')) with e' in R by lia. exact R.
Qed.

(** [ParseFloat] of a decimal whose value a float64 holds is that
    float64. *)
Lemma round_decimal_exact s c k m e :
  bounded prec emax m e = true -> 0 < c -> same_value c k m e ->
  round_decimal s c k = S754_finite s m e.
Proof.
  intros Hb Hc Hv. unfold same_value in Hv.
  destruct c as [|c|c]; try lia. unfold round_decimal.
  destruct (Z.leb_spec 0 k) as [Hk|Hk].
  - replace (Z.max k 0) with k in Hv by lia.
    replace (Z.max (- k) 0) with 0 in Hv by lia. rewrite Z.mul_1_r in Hv.
    assert (Hp : 0 < Z.pos c * 10 ^ k) by (apply Z.mul_pos_pos; [lia|apply Z.pow_pos_nonneg; lia]).
    destruct (Z.pos c * 10 ^ k) as [|N|N] eqn:EN; try lia.
    pose proof (of_Z_exact s N m e Hb Hv) as R.
    destruct s; exact R.
  - replace (Z.max k 0) with 0 in Hv by lia.
    replace (Z.max (- k) 0) with (- k) in Hv by lia. rewrite Z.mul_1_r in Hv.
    assert (Hp : 0 < 10 ^ (- k)) by (apply Z.pow_pos_nonneg; lia).
    destruct (10 ^ (- k)) as [|D|D] eqn:ED; try lia.
    exact (div_exact s c D m e Hb Hv).
Qed.

End ExactRounding.

(* ===================================================================== *)
(** * The shortest digits are read back                                   *)
(* ===================================================================== *)

Section ShortestDigits.
Import Strconv.

Lemma pow10_split a : 0 <= a -> 10 ^ a = 2 ^ a * 5 ^ a.
Proof. intros H. rewrite <- Z.pow_mul_l. reflexivity. Qed.

Lemma exact_decimal_value m e :
  0 < (exact_decimal m e).1
  /\ same_value (exact_decimal m e).1 (exact_decimal m e).2 m e.
Proof.
  unfold exact_decimal, same_value.
  assert (P : forall b x, 0 < b -> 0 <= x -> 0 < b ^ x)
    by (intros; apply Z.pow_pos_nonneg; lia).
  destruct (Z.leb_spec 0 e) as [He|He]; cbn [fst snd].
  - split; [pose proof (P 2 e); nia|].
    replace (Z.max (- e) 0) with 0 by lia. replace (Z.max e 0) with e by lia.
    change (Z.max 0 0) with 0. change (Z.max (- 0) 0) with 0.
    change (10 ^ 0) with 1. change (2 ^ 0) with 1. lia.
  - split; [pose proof (P 5 (- e)); nia|].
    replace (Z.max (- e) 0) with (- e) by lia. replace (Z.max e 0) with 0 by lia.
    change (10 ^ 0) with 1. change (2 ^ 0) with 1.
    rewrite (pow10_split (- e)) by lia. ring.
Qed.

Lemma trim_zeros_value fuel : forall c k m e,
  0 < c -> same_value c k m e ->
  0 < (trim_zeros fuel c k).1
  /\ same_value (trim_zeros fuel c k).1 (trim_zeros fuel c k).2 m e.
Proof.
  induction fuel as [|fuel IH]; intros c k m e Hc Hv; cbn [trim_zeros]; [done|].
  destruct (Z.ltb_spec 0 c) as [_|]; [|lia]. cbn [andb].
  destruct (Z.eqb_spec (c mod 10) 0) as [Hm|]; [|done].
  assert (Hc10 : c = 10 * (c / 10)).
  { pose proof (Z.div_mod c 10 ltac:(lia)). lia. }
  apply IH; [lia|]. unfold same_value in *.
  set (c' := c / 10) in *. clearbody c'. subst c.
  destruct (Z_lt_le_dec k 0) as [Hk|Hk].
  - replace (Z.max k 0) with 0 in Hv by lia.
    replace (Z.max (- k) 0) with (- k) in Hv by lia.
    replace (Z.max (k + 1) 0) with 0 by lia.
    replace (Z.max (- (k + 1)) 0) with (- (k + 1)) by lia.
    replace (- k) with (1 + - (k + 1)) in Hv by lia.
    rewrite (Z.pow_add_r 10 1 (- (k + 1))) in Hv by lia.
    change (10 ^ 1) with 10 in Hv. change (10 ^ 0) with 1 in *. lia.
  - replace (Z.max k 0) with k in Hv by lia.
    replace (Z.max (- k) 0) with 0 in Hv by lia.
    replace (Z.max (k + 1) 0) with (k + 1) by lia.
    replace (Z.max (- (k + 1)) 0) with 0 by lia.
    rewrite (Z.pow_add_r 10 k 1) by lia. change (10 ^ 1) with 10. lia.
Qed.

Lemma trim_exact m e :
  bounded prec emax m e = true ->
  let ck := trim (exact_decimal m e).1 (exact_decimal m e).2 in
  round_decimal false ck.1 ck.2 = S754_finite false m e.
Proof.
  intros Hb. destruct (exact_decimal_value m e) as [Hp Hv].
  destruct (trim_zeros_value (String.length (Itoa (exact_decimal m e).1))
              _ _ m e Hp Hv) as [Hp' Hv'].
  cbn zeta. unfold trim. by apply round_decimal_exact.
Qed.

Lemma candidate_sound x n q j ck :
  candidate x n q j = Some ck -> round_decimal false ck.1 ck.2 = x.
Proof.
  unfold candidate, parses_to. intros H.
  destruct (bool_decide _) eqn:E1 in H; destruct (bool_decide _) eqn:E2 in H;
    try discriminate; injection H as <-;
    try apply bool_decide_eq_true in E1; try apply bool_decide_eq_true in E2;
    try done.
  by destruct (_ || _).
Qed.

Lemma shortest_from_sound x n q j :
  round_decimal false (trim n q).1 (trim n q).2 = x ->
  round_decimal false (shortest_from x n q j).1 (shortest_from x n q j).2 = x.
Proof.
  intros H. induction j as [|j IH]; cbn [shortest_from];
    destruct (candidate x n q _) as [ck|] eqn:E;
    eauto using candidate_sound.
Qed.

(** The sign does not take part in the rounding. *)
Lemma round_aux_finite_sign s q e l m e' :
  binary_round_aux prec emax false q e l = S754_finite false m e' ->
  binary_round_aux prec emax s q e l = S754_finite s m e'.
Proof.
  unfold binary_round_aux.
  destruct (shr_fexp prec emax q e l) as [a b].
  destruct (shr_fexp prec emax _ b loc_Exact) as [a' b'].
  destruct (shr_m a'); try discriminate.
  destruct (b' <=? emax - prec); try discriminate.
  intros [= -> ->]. reflexivity.
Qed.

Lemma round_decimal_finite_sign s c k m e :
  round_decimal false c k = S754_finite false m e ->
  0 < c /\ round_decimal s c k = S754_finite s m e.
Proof.
  unfold round_decimal. destruct c as [|c|c]; try discriminate.
  intros H. split; [lia|]. destruct (Z.leb_spec 0 k) as [Hk|Hk].
  - assert (Hp : 0 < Z.pos c * 10 ^ k)
      by (apply Z.mul_pos_pos; [lia|apply Z.pow_pos_nonneg; lia]).
    destruct (Z.pos c * 10 ^ k) as [|N|N]; try lia.
    destruct s; [|exact H]. change (- Z.pos N) with (Z.neg N).
    unfold of_Z, binary_normalize, binary_round in *.
    destruct (shl_align N 0 _) as [mz ez].
    by apply round_aux_finite_sign.
  - destruct (SFdiv_core_binary _ _ _ _ _ _) as [[q0 e0] l0].
    by apply round_aux_finite_sign.
Qed.

(** [ParseFloat] reads the shortest digits of a float64 as that float64. *)
Lemma shortest_sound m e :
  bounded prec emax m e = true ->
  0 < (shortest m e).1
  /\ forall s, round_decimal s (shortest m e).1 (shortest m e).2
               = S754_finite s m e.
Proof.
  intros Hb. pose proof (trim_exact m e Hb) as H. cbn zeta in H.
  unfold shortest. destruct (exact_decimal m e) as [n q]. cbn [fst snd] in H.
  apply (shortest_from_sound _ n q (String.length (Itoa n) - 1)) in H.
  split; [|intros s].
  - by destruct (round_decimal_finite_sign false _ _ _ _ H).
  - by destruct (round_decimal_finite_sign s _ _ _ _ H).
Qed.

End ShortestDigits.

(* ===================================================================== *)
(** * Strings of digits                                                   *)
(* ===================================================================== *)

Section DigitStrings.
Import Strconv.
Open Scope string_scope.

Lemma is_digit_cases c :
  is_digit c = true ->
  (c = "0" \/ c = "1" \/ c = "2" \/ c = "3" \/ c = "4"
   \/ c = "5" \/ c = "6" \/ c = "7" \/ c = "8" \/ c = "9")%char.
Proof.
  destruct c as [[|] [|] [|] [|] [|] [|] [|] [|]]; vm_compute;
    intros H; try discriminate H; tauto.
Qed.

Lemma all_digits_app a b :
  all_digits (a ++ b) = all_digits a && all_digits b.
Proof.
  induction a as [|c a IH]; [done|].
  change (String c a ++ b) with (String c (a ++ b)).
  cbn [all_digits]. by rewrite IH, andb_assoc.
Qed.

Lemma all_digits_zeros n : all_digits (zeros n) = true.
Proof. induction n; [done|]. cbn [zeros all_digits]. by rewrite IHn. Qed.

Lemma all_digits_uint d : all_digits (NilEmpty.string_of_uint d) = true.
Proof. induction d; cbn [NilEmpty.string_of_uint all_digits]; by rewrite ?IHd. Qed.

(** A string of digits is a decimal number with as many digits. *)
Lemma uint_of_digits s :
  all_digits s = true ->
  exists d, NilEmpty.uint_of_string s = Some d
            /\ Unsigned.usize d = N.of_nat (String.length s).
Proof.
  induction s as [|c s IH]; [by exists Decimal.Nil|].
  cbn [all_digits]. intros H. apply andb_prop in H as [Hc Hs].
  destruct (IH Hs) as (d & Hd & Hn).
  cbn [NilEmpty.uint_of_string String.length]. rewrite Hd, Nat2N.inj_succ, <- Hn.
  destruct (is_digit_cases c Hc) as [->|[->|[->|[->|[->|[->|[->|[->|[->| ->]]]]]]]]];
    eexists; (split; [reflexivity|reflexivity]).
Qed.

Lemma of_uint_cons_value (d : Decimal.uint) (k : positive) :
  Z.pos (Pos.of_uint_acc d k)
  = Z.pos k * 10 ^ Z.of_N (Unsigned.usize d) + Z.of_uint d.
Proof.
  pose proof (Unsigned.of_uint_acc_rev d k) as H.
  rewrite <- Unsigned.of_uint_alt in H.
  apply (f_equal Z.of_N) in H.
  rewrite N2Z.inj_add, N2Z.inj_mul, N2Z.inj_pow in H.
  change (Z.of_N 10) with 10 in H. cbn [Z.of_N] in H. unfold Z.of_uint. lia.
Qed.

(** The first digit counts for its value times a power of ten. *)
Lemma digits_value_cons c s :
  is_digit c = true -> all_digits s = true ->
  digits_value (String c s)
  = digits_value (String c "") * 10 ^ Z.of_nat (String.length s)
    + digits_value s.
Proof.
  intros Hc Hs. destruct (uint_of_digits s Hs) as (d & Hd & Hn).
  unfold digits_value. cbn [NilEmpty.uint_of_string]. rewrite Hd.
  rewrite <- nat_N_Z, <- Hn.
  destruct (is_digit_cases c Hc) as [->|[->|[->|[->|[->|[->|[->|[->|[->| ->]]]]]]]]];
    cbn [uint_of_char]; unfold Z.of_uint at 1 2;
    cbn [Pos.of_uint Z.of_N Pos.of_uint_acc]; rewrite ?of_uint_cons_value;
    unfold Z.of_uint; lia.
Qed.

Lemma digits_value_app a b :
  all_digits a = true -> all_digits b = true ->
  digits_value (a ++ b)
  = digits_value a * 10 ^ Z.of_nat (String.length b) + digits_value b.
Proof.
  intros Ha Hb. induction a as [|c a IH].
  { change ("" ++ b) with b. change (digits_value "") with 0. lia. }
  cbn [all_digits] in Ha. apply andb_prop in Ha as [Hc Ha].
  change (String c a ++ b) with (String c (a ++ b)).
  rewrite digits_value_cons, (digits_value_cons c a), IH by
    (rewrite ?all_digits_app, ?Ha, ?Hb; done).
  rewrite length_append, Nat2Z.inj_add, Z.pow_add_r by lia. ring.
Qed.

Lemma digits_value_zeros n s : digits_value (zeros n ++ s) = digits_value s.
Proof.
  induction n as [|n IH]; [done|].
  change (zeros (S n) ++ s) with (String "0" (zeros n ++ s)).
  unfold digits_value in *. cbn [NilEmpty.uint_of_string].
  destruct (NilEmpty.uint_of_string (zeros n ++ s)) as [d|];
    destruct (NilEmpty.uint_of_string s) as [d'|]; cbn [uint_of_char]; try done.
Qed.

Lemma length_zeros n : String.length (zeros n) = n.
Proof. induction n; cbn [zeros String.length]; congruence. Qed.

Lemma digits_value_only_zeros n : digits_value (zeros n) = 0.
Proof.
  induction n as [|n IH]; [done|]. cbn [zeros].
  rewrite digits_value_cons, IH by (done || apply all_digits_zeros).
  change (digits_value (String "0" "")) with 0. lia.
Qed.

Lemma digits_value_pad a n :
  all_digits a = true -> digits_value (a ++ zeros n) = digits_value a * 10 ^ Z.of_nat n.
Proof.
  intros Ha. rewrite digits_value_app, length_zeros by (done || apply all_digits_zeros).
  rewrite digits_value_only_zeros. lia.
Qed.

End DigitStrings.

(* ===================================================================== *)
(** * Reading back what the formats print                                 *)
(* ===================================================================== *)

Section ScanFormats.
Import Strconv.
Import Json.
Open Scope string_scope.

Lemma string_app_cons c a b : String c a ++ b = String c (a ++ b).
Proof. reflexivity. Qed.

Lemma string_app_nil b : "" ++ b = b.
Proof. reflexivity. Qed.

(** ** [Itoa] *)

Lemma Itoa_pos p : Itoa (Z.pos p) = NilEmpty.string_of_uint (Pos.to_uint p).
Proof.
  unfold Itoa. cbn [Z.to_int NilZero.string_of_int].
  pose proof (Unsigned.to_uint_nonnil p) as H.
  unfold NilZero.string_of_uint. by destruct (Pos.to_uint p).
Qed.

Lemma Itoa_digits (c : Z) :
  0 <= c -> all_digits (Itoa c) = true /\ digits_value (Itoa c) = c.
Proof.
  intros Hc. destruct c as [|p|p]; [done| |lia].
  rewrite Itoa_pos. split; [apply all_digits_uint|].
  unfold digits_value. rewrite NilEmpty.usu. unfold Z.of_uint.
  by rewrite Unsigned.of_to.
Qed.

Lemma Itoa_head (c : Z) :
  0 < c ->
  exists d r, Itoa c = String d r /\ is_digit d = true /\ d <> "0"%char
              /\ all_digits r = true.
Proof.
  intros Hc. destruct c as [|p|p]; try lia.
  pose proof (Itoa_digits (Z.pos p) ltac:(lia)) as [Hd _].
  rewrite Itoa_pos in *.
  pose proof (to_uint_head p) as Hh. pose proof (Unsigned.to_uint_nonnil p) as Hn.
  destruct (Pos.to_uint p) as [|u|u|u|u|u|u|u|u|u|u];
    [done|by destruct (Hh u)|..];
    cbn [NilEmpty.string_of_uint all_digits] in *;
    eexists _, _; (split; [reflexivity|]); (split; [reflexivity|]);
    (split; [discriminate|]); by apply andb_prop in Hd as [_ Hd].
Qed.

Lemma Itoa_nonneg_head (c : Z) :
  0 <= c -> exists d r, Itoa c = String d r /\ is_digit d = true.
Proof.
  intros Hc. destruct (Z.eq_dec c 0) as [->|Hne].
  - by exists "0"%char, "".
  - destruct (Itoa_head c ltac:(lia)) as (d & r & H & Hd & _). eauto.
Qed.

(** ** [span_digits] *)

Lemma span_digits_app a r :
  all_digits a = true -> stops r -> span_digits (a ++ r) = (a, r).
Proof.
  intros Ha Hr. induction a as [|c a IH].
  - rewrite string_app_nil. destruct r as [|ch r]; [done|].
    cbn [stops] in Hr. cbn [span_digits]. by rewrite Hr.
  - cbn [all_digits] in Ha. apply andb_prop in Ha as [Hc Ha].
    rewrite string_app_cons. cbn [span_digits]. by rewrite Hc, (IH Ha).
Qed.

Lemma span_digits_all a : all_digits a = true -> span_digits a = (a, "").
Proof.
  intros Ha. induction a as [|c a IH]; [done|].
  cbn [all_digits] in Ha. apply andb_prop in Ha as [Hc Ha].
  cbn [span_digits]. by rewrite Hc, (IH Ha).
Qed.

Lemma int_part_ok_single d : int_part_ok (String d "") = true.
Proof. by destruct d as [[|] [|] [|] [|] [|] [|] [|] [|]]. Qed.

Lemma int_part_ok_head d r : d <> "0"%char -> int_part_ok (String d r) = true.
Proof.
  intros H. destruct d as [[|] [|] [|] [|] [|] [|] [|] [|]]; try reflexivity.
  by destruct H.
Qed.

Lemma strip_sign (neg : bool) d r :
  is_digit d = true ->
  split_sign ((if neg then "-" else "") ++ String d r) = (neg, String d r).
Proof.
  intros Hd. destruct neg; [reflexivity|]. rewrite string_app_nil.
  destruct (is_digit_cases d Hd) as [->|[->|[->|[->|[->|[->|[->|[->|[->| ->]]]]]]]]];
    reflexivity.
Qed.

(** ** The exponent *)

Lemma scan_exponent_none : scan_exponent "" = Some (0, "").
Proof. reflexivity. Qed.

Lemma scan_exponent_fmt (x : Z) :
  scan_exponent ("e" ++ (if (x <? 0)%Z then "-" else "+") ++ Itoa (Z.abs x))
  = Some (x, "").
Proof.
  destruct (Itoa_digits (Z.abs x) ltac:(lia)) as [Hd Hv].
  destruct (Itoa_nonneg_head (Z.abs x) ltac:(lia)) as (d & r & Hi & Hdd).
  rewrite string_app_cons, string_app_nil. unfold scan_exponent.
  change (Ascii.eqb "e" "e") with true. cbn [orb].
  destruct (Z.ltb_spec x 0) as [Hx|Hx]; rewrite string_app_cons, string_app_nil.
  - rewrite (span_digits_all _ Hd). rewrite Hi at 1. rewrite Hv. do 2 f_equal. lia.
  - rewrite (span_digits_all _ Hd). rewrite Hi at 1. rewrite Hv. do 2 f_equal. lia.
Qed.

(** ** The format 'e' *)

Lemma scan_fmt_e (neg : bool) d rest (dp : Z) :
  is_digit d = true -> all_digits rest = true ->
  scan_number ((if neg then "-" else "") ++ fmt_e (String d rest) dp)
  = Some (neg, digits_value (String d rest),
          dp - Z.of_nat (String.length (String d rest)), "").
Proof.
  intros Hd Hr. unfold fmt_e, scan_number.
  set (ex := "e" ++ (if (dp - 1 <? 0)%Z then "-" else "+") ++ Itoa (Z.abs (dp - 1))).
  assert (Hex : stops ex) by reflexivity.
  rewrite string_app_cons, (strip_sign neg d _ Hd).
  destruct rest as [|c rest].
  - rewrite string_app_nil. change (String d ex) with (String d "" ++ ex).
    rewrite (span_digits_app (String d "") ex) by (cbn [all_digits]; by rewrite ?Hd).
    rewrite int_part_ok_single. unfold scan_fraction.
    change ex with (String "e" ((if (dp - 1 <? 0)%Z then "-" else "+") ++ Itoa (Z.abs (dp - 1)))) at 1.
    cbv beta iota. fold ex. unfold ex. rewrite scan_exponent_fmt.
    cbn [String.length]. do 3 f_equal. lia.
  - change (String d (("." ++ String c rest) ++ ex))
      with (String d "" ++ String "." (String c rest ++ ex)).
    rewrite (span_digits_app (String d "") _) by (by cbn [all_digits]; rewrite ?Hd).
    rewrite int_part_ok_single. unfold scan_fraction.
    rewrite (span_digits_app (String c rest) ex Hr Hex).
    unfold ex. rewrite scan_exponent_fmt.
    cbn [String.length]. do 3 f_equal. lia.
Qed.

End ScanFormats.

(* ===================================================================== *)
(** * The format 'f'                                                      *)
(* ===================================================================== *)

Section ScanFormatF.
Import Strconv.
Import Json.
Open Scope string_scope.

Lemma string_take_drop n s : string_take n s ++ string_drop n s = s.
Proof.
  revert s. induction n as [|n IH]; intros [|c s]; try reflexivity.
  cbn [string_take string_drop]. by rewrite string_app_cons, IH.
Qed.

Lemma string_take_length n s :
  (n <= String.length s)%nat -> String.length (string_take n s) = n.
Proof.
  revert s. induction n as [|n IH]; intros [|c s] H; cbn in *; try lia.
  rewrite IH; lia.
Qed.

Lemma all_digits_take_drop n s :
  all_digits s = true ->
  all_digits (string_take n s) = true /\ all_digits (string_drop n s) = true.
Proof.
  intros H. rewrite <- (string_take_drop n s), all_digits_app in H.
  by apply andb_prop in H.
Qed.

(** [%f] with digits after the point. *)
Lemma scan_fmt_f (neg : bool) d r (dp : Z) :
  is_digit d = true -> d <> "0"%char -> all_digits r = true ->
  dp < Z.of_nat (String.length (String d r)) ->
  scan_number ((if neg then "-" else "") ++ fmt_f (String d r) dp)
  = Some (neg, digits_value (String d r),
          dp - Z.of_nat (String.length (String d r)), "").
Proof.
  intros Hd Hd0 Hr Hdp. set (ds := String d r) in *.
  assert (Hds : all_digits ds = true) by (cbn [ds all_digits]; by rewrite Hd, Hr).
  unfold fmt_f. destruct (Z.leb_spec dp 0) as [Hle|Hgt].
  - (* 0.000ddd *)
    set (n := Z.to_nat (- dp)).
    change ("0." ++ zeros n ++ ds) with (String "0" (String "." (zeros n ++ ds))).
    unfold scan_number. rewrite (strip_sign neg "0" _ eq_refl).
    change (String "0" (String "." (zeros n ++ ds)))
      with (String "0" "" ++ String "." (zeros n ++ ds)).
    rewrite (span_digits_app (String "0" "") (String "." (zeros n ++ ds))
               eq_refl eq_refl).
    rewrite int_part_ok_single. unfold scan_fraction.
    assert (Hf : all_digits (zeros n ++ ds) = true)
      by (by rewrite all_digits_app, all_digits_zeros, Hds).
    rewrite (span_digits_all _ Hf).
    assert (Hne : exists c t, zeros n ++ ds = String c t).
    { destruct n; [by exists d, r|]. cbn [zeros]. rewrite string_app_cons. eauto. }
    destruct Hne as (c & t & Hne). rewrite Hne at 1. rewrite scan_exponent_none.
    rewrite string_app_cons, string_app_nil.
    change (String "0" (zeros n ++ ds)) with (zeros (S n) ++ ds).
    rewrite digits_value_zeros, length_append, length_zeros.
    do 3 f_equal. unfold n. lia.
  - (* dd.ddd *)
    destruct (Z.ltb_spec dp (Z.of_nat (String.length ds))) as [_|]; [|lia].
    remember (Z.to_nat dp) as n eqn:En.
    destruct (all_digits_take_drop n ds Hds) as [Ht Hdr].
    assert (Hn : (0 < n < String.length ds)%nat) by lia.
    assert (Hhead : exists t, string_take n ds = String d t).
    { destruct n as [|n']; [lia|]. cbn [ds string_take]. eauto. }
    destruct Hhead as [t Hhead].
    assert (Hlen : String.length (string_drop n ds) = (String.length ds - n)%nat).
    { pose proof (string_take_drop n ds) as E. apply (f_equal String.length) in E.
      rewrite length_append, string_take_length in E by lia. lia. }
    assert (Htail : exists c u, string_drop n ds = String c u).
    { destruct (string_drop n ds) as [|c u]; [|eauto].
      change (String.length "") with 0%nat in Hlen. lia. }
    destruct Htail as (c & u & Htail).
    change ("." ++ string_drop n ds) with (String "." (string_drop n ds)).
    unfold scan_number. rewrite Hhead at 1.
    rewrite string_app_cons, (strip_sign neg d _ Hd), <- string_app_cons, <- Hhead.
    rewrite (span_digits_app (string_take n ds) (String "." (string_drop n ds)) Ht eq_refl).
    rewrite Hhead at 1. rewrite (int_part_ok_head d t Hd0).
    unfold scan_fraction. rewrite (span_digits_all _ Hdr).
    rewrite Htail at 1. rewrite scan_exponent_none.
    rewrite string_take_drop, Hlen. do 3 f_equal. lia.
Qed.

End ScanFormatF.

(* ===================================================================== *)
(** * Through json.Unmarshal                                              *)
(* ===================================================================== *)

Section ReadBack.
Import Strconv.
Import Json.
Open Scope string_scope.

(** ** Integer literals *)

Lemma int_literal_signed (neg : bool) d r :
  is_digit d = true -> d <> "0"%char -> all_digits r = true ->
  int_literal ((if neg then "-" else "") ++ String d r)
  = Some (neg, digits_value (String d r)).
Proof.
  intros Hd Hd0 Hr.
  assert (Hds : all_digits (String d r) = true) by (cbn [all_digits]; by rewrite Hd, Hr).
  destruct (uint_of_digits _ Hds) as (u & Hu & _).
  unfold digits_value. rewrite Hu. unfold int_literal.
  destruct (is_digit_cases d Hd) as [->|[->|[->|[->|[->|[->|[->|[->|[->| ->]]]]]]]]];
    [done|..]; destruct neg; rewrite ?string_app_cons, ?string_app_nil; cbv beta iota;
    by rewrite Hu.
Qed.

Lemma uint_of_string_stop a ch b :
  (forall o, uint_of_char ch o = None) ->
  NilEmpty.uint_of_string (a ++ String ch b) = None.
Proof.
  intros H. induction a as [|c a IH].
  - rewrite string_app_nil. cbn [NilEmpty.uint_of_string]. apply H.
  - rewrite string_app_cons. cbn [NilEmpty.uint_of_string]. by rewrite IH.
Qed.

(** A text with a character that is no digit is no integer literal. *)
Lemma int_literal_none (neg : bool) d t :
  is_digit d = true -> NilEmpty.uint_of_string (String d t) = None ->
  int_literal ((if neg then "-" else "") ++ String d t) = None.
Proof.
  intros Hd Hu. unfold int_literal.
  destruct (is_digit_cases d Hd) as [->|[->|[->|[->|[->|[->|[->|[->|[->| ->]]]]]]]]];
    destruct neg; rewrite ?string_app_cons, ?string_app_nil; cbv beta iota;
    rewrite ?Hu; try reflexivity; by destruct t.
Qed.

Lemma point_stops o : uint_of_char "." o = None.
Proof. by destruct o. Qed.

Lemma e_stops o : uint_of_char "e" o = None.
Proof. by destruct o. Qed.

Lemma fmt_e_not_int d rest (dp : Z) :
  is_digit d = true ->
  exists c t, fmt_e (String d rest) dp = String c t /\ is_digit c = true
              /\ NilEmpty.uint_of_string (String c t) = None.
Proof.
  intros Hd. unfold fmt_e. rewrite string_app_cons. exists d. eexists.
  split; [reflexivity|]. split; [exact Hd|].
  set (x := (if (dp - 1 <? 0)%Z then "-" else "+") ++ Itoa (Z.abs (dp - 1))).
  change ("e" ++ x) with (String "e" x).
  destruct rest as [|c rest].
  - change (String d ("" ++ String "e" x)) with (String d "" ++ String "e" x).
    apply uint_of_string_stop, e_stops.
  - change (String d (("." ++ String c rest) ++ String "e" x))
      with (String d "" ++ String "." (String c rest ++ String "e" x)).
    apply uint_of_string_stop, point_stops.
Qed.

Lemma fmt_f_not_int d r (dp : Z) :
  is_digit d = true -> dp < Z.of_nat (String.length (String d r)) ->
  exists c t, fmt_f (String d r) dp = String c t /\ is_digit c = true
              /\ NilEmpty.uint_of_string (String c t) = None.
Proof.
  intros Hd Hdp. unfold fmt_f. destruct (Z.leb_spec dp 0) as [Hle|Hgt].
  - exists "0"%char. eexists. split; [reflexivity|]. split; [reflexivity|].
    exact (uint_of_string_stop (String "0" "") "."
             (zeros (Z.to_nat (- dp)) ++ String d r) point_stops).
  - destruct (Z.ltb_spec dp (Z.of_nat (String.length (String d r)))) as [_|]; [|lia].
    remember (Z.to_nat dp) as n eqn:En.
    destruct n as [|n]; [lia|].
    assert (Hh : string_take (S n) (String d r) = String d (string_take n r))
      by reflexivity.
    exists d. eexists. split; [by rewrite Hh, string_app_cons|]. split; [exact Hd|].
    rewrite <- string_app_cons, <- Hh.
    change ("." ++ string_drop (S n) (String d r))
      with (String "." (string_drop (S n) (String d r))).
    apply uint_of_string_stop, point_stops.
Qed.

(** ** Through [json.Unmarshal] *)

Lemma skip_space_digit (neg : bool) d t :
  is_digit d = true ->
  skip_space ((if neg then "-" else "") ++ String d t)
  = (if neg then "-" else "") ++ String d t
  /\ String.prefix "null" ((if neg then "-" else "") ++ String d t) = false.
Proof.
  intros Hd. destruct neg; [done|]. rewrite string_app_nil.
  destruct (is_digit_cases d Hd) as [->|[->|[->|[->|[->|[->|[->|[->|[->| ->]]]]]]]]];
    done.
Qed.

(** A number with fraction or exponent goes through [ParseFloat]. *)
Lemma Unmarshal_scanned (neg : bool) d t M E v x :
  is_digit d = true -> NilEmpty.uint_of_string (String d t) = None ->
  scan_number ((if neg then "-" else "") ++ String d t) = Some (neg, M, E, "") ->
  round_decimal neg M E = x -> (forall s, x <> S754_infinity s) ->
  Unmarshal strconv_codec (bytes ((if neg then "-" else "") ++ String d t)) v
  = Ok x.
Proof.
  intros Hd Hu Hscan Hr Hfin. unfold Unmarshal, bytes.
  rewrite string_of_list_byte_of_string, (int_literal_none neg d t Hd Hu).
  cbn [decode_value strconv_codec]. unfold decode_number.
  rewrite string_of_list_byte_of_string.
  destruct (skip_space_digit neg d t Hd) as [-> ->].
  rewrite Hscan, Hr. cbn [skip_space]. destruct x; try done.
  by destruct (Hfin s).
Qed.

(** An integer literal is read by [float64(n)]. *)
Lemma Unmarshal_integer cd (neg : bool) d r v x :
  is_digit d = true -> d <> "0"%char -> all_digits r = true ->
  0 < digits_value (String d r) ->
  of_Z (if neg then - digits_value (String d r) else digits_value (String d r)) = x ->
  (forall s, x <> S754_infinity s) ->
  Unmarshal cd (bytes ((if neg then "-" else "") ++ String d r)) v = Ok x.
Proof.
  intros Hd Hd0 Hr Hpos Hx Hfin. unfold Unmarshal, bytes.
  rewrite string_of_list_byte_of_string, (int_literal_signed neg d r Hd Hd0 Hr).
  destruct (digits_value (String d r)) as [|n|n] eqn:E; try lia.
  rewrite Hx. destruct x; try done. by destruct (Hfin s).
Qed.

End ReadBack.

(* ===================================================================== *)
(** * The stored count is read back                                       *)
(* ===================================================================== *)

Section RoundTrip.
Import Strconv.
Import Json.
Open Scope string_scope.

(** What [format_number] prints for a finite number is read back. *)
Lemma format_reads_back (s : bool) m e v :
  bounded prec emax m e = true ->
  Unmarshal strconv_codec (bytes (format_number (S754_finite s m e))) v
  = Ok (S754_finite s m e).
Proof.
  intros Hb. destruct (shortest_sound m e Hb) as [Hc Hr].
  unfold format_number. destruct (shortest m e) as [c k]. cbn [fst snd] in *.
  cbv zeta.
  destruct (Itoa_head c Hc) as (d & r & Hi & Hd & Hd0 & Hdr).
  destruct (Itoa_digits c ltac:(lia)) as [_ Hv]. rewrite Hi in *.
  set (ds := String d r) in *. set (dp := Z.of_nat (String.length ds) + k).
  assert (Hfin : forall s', S754_finite s m e <> S754_infinity s') by done.
  destruct (SFltb _ _ || _).
  - destruct (fmt_e_not_int d r dp Hd) as (c0 & t & Hf & Hc0 & Hu).
    fold ds in Hf. rewrite Hf. apply (Unmarshal_scanned s c0 t c k v _ Hc0 Hu); [|apply Hr|exact Hfin].
    rewrite <- Hf. unfold ds. rewrite (scan_fmt_e s d r dp Hd Hdr). fold ds.
    rewrite Hv.
    do 3 f_equal. unfold dp. lia.
  - destruct (Z_lt_le_dec k 0) as [Hk|Hk].
    + assert (Hdp : dp < Z.of_nat (String.length ds)) by (unfold dp; lia).
      destruct (fmt_f_not_int d r dp Hd Hdp) as (c0 & t & Hf & Hc0 & Hu).
      fold ds in Hf. rewrite Hf.
      apply (Unmarshal_scanned s c0 t c k v _ Hc0 Hu); [|apply Hr|exact Hfin].
      rewrite <- Hf. unfold ds. rewrite (scan_fmt_f s d r dp Hd Hd0 Hdr Hdp).
      fold ds. rewrite Hv. do 3 f_equal. unfold dp. lia.
    + unfold fmt_f.
      assert (Hlen : 0 < Z.of_nat (String.length ds))
        by (unfold ds; cbn [String.length]; lia).
      destruct (Z.leb_spec dp 0) as [Hle|_]; [unfold dp in Hle; lia|].
      destruct (Z.ltb_spec dp (Z.of_nat (String.length ds))) as [Hlt|_];
        [unfold dp in Hlt; lia|].
      replace (dp - Z.of_nat (String.length ds)) with k by (unfold dp; lia).
      assert (Hpad : digits_value (ds ++ zeros (Z.to_nat k)) = c * 10 ^ k).
      { rewrite digits_value_pad, Hv, Z2Nat.id by
          (try lia; unfold ds; cbn [all_digits]; by rewrite Hd, Hdr). done. }
      assert (Hpos : 0 < c * 10 ^ k)
        by (apply Z.mul_pos_pos; [lia|apply Z.pow_pos_nonneg; lia]).
      unfold ds in *. rewrite string_app_cons in *.
      apply Unmarshal_integer; try done.
      * by rewrite all_digits_app, Hdr, all_digits_zeros.
      * by rewrite Hpad.
      * rewrite Hpad. specialize (Hr s). unfold round_decimal in Hr.
        destruct c as [|c|c]; try lia.
        destruct (Z.leb_spec 0 k); [exact Hr|lia].
Qed.

(** A whole number is written with its digits and read back. *)
Lemma integer_reads_back cd (s : bool) m e v :
  bounded prec emax m e = true -> integral m e = true ->
  Unmarshal cd (bytes ((if s then "-" else "") ++ Itoa (trunc_mag m e))) v
  = Ok (S754_finite s m e).
Proof.
  intros Hb Hi.
  assert (P : forall x, 0 <= x -> 0 < 2 ^ x) by (intros; apply Z.pow_pos_nonneg; lia).
  assert (Hv : trunc_mag m e * 2 ^ Z.max (- e) 0 = Z.pos m * 2 ^ Z.max e 0).
  { unfold integral, trunc_mag in *. destruct (Z.leb_spec 0 e) as [He|He].
    - replace (Z.max (- e) 0) with 0 by lia. replace (Z.max e 0) with e by lia.
      rewrite Z.shiftl_mul_pow2 by lia. change (2 ^ 0) with 1. lia.
    - cbn [orb] in Hi. apply Z.eqb_eq in Hi. rewrite Z.land_ones in Hi by lia.
      replace (Z.max (- e) 0) with (- e) by lia. replace (Z.max e 0) with 0 by lia.
      replace e with (- - e) at 1 by lia.
      rewrite Z.shiftl_opp_r, Z.shiftr_div_pow2 by lia. change (2 ^ 0) with 1.
      pose proof (Z.div_mod (Z.pos m) (2 ^ (- e)) ltac:(pose proof (P (- e)); lia)).
      lia. }
  assert (Hpos : 0 < trunc_mag m e).
  { pose proof (P (Z.max (- e) 0) ltac:(lia)). pose proof (P (Z.max e 0) ltac:(lia)).
    nia. }
  destruct (Itoa_head _ Hpos) as (d & r & Hit & Hd & Hd0 & Hdr).
  destruct (Itoa_digits (trunc_mag m e) ltac:(lia)) as [_ Hval].
  rewrite Hit in *. apply Unmarshal_integer; try done; rewrite ?Hval; [done|].
  destruct (trunc_mag m e) as [|N|N]; try lia.
  pose proof (of_Z_exact s N m e Hb Hv) as R. by destruct s.
Qed.

(** C7: for every float64 within the representable range (a zero or a
    finite number, whole or fractional, of either sign, so every
    non-negative count among them), [json.Marshal] succeeds and
    [json.Unmarshal] of the bytes it wrote yields the same value again,
    whatever the variable held before. *)
Theorem stored_value_reads_back (x v : float64) :
  finite_float64 x = true ->
  exists b, Marshal strconv_codec x = Ok b
            /\ Unmarshal strconv_codec b v = Ok x.
Proof.
  intros Hx. destruct x as [s|s| |s m e]; try discriminate.
  - destruct s; eexists; (split; [reflexivity|reflexivity]).
  - cbn [finite_float64] in Hx. unfold Marshal.
    destruct (integral m e && (trunc_mag m e <? 2 ^ 53)%Z) eqn:Hi.
    + apply andb_prop in Hi as [Hi _]. eexists. split; [reflexivity|].
      by apply integer_reads_back.
    + eexists. split; [reflexivity|]. by apply format_reads_back.
Qed.

Lemma stored_value_reads_back_witness :
  exists b, Marshal strconv_codec tenth = Ok b
            /\ Unmarshal strconv_codec b zero = Ok tenth.
Proof.
  apply (stored_value_reads_back tenth zero). reflexivity.
Defined.

(** What the model prints, on values whose Go output is known. *)
Lemma format_number_examples :
  format_number tenth = "0.1"
  /\ format_number (round_decimal false 15 (-8)) = "1.5e-7"
  /\ format_number (round_decimal false 1 (-6)) = "0.000001"
  /\ format_number (round_decimal false 1 20) = "100000000000000000000"
  /\ format_number (round_decimal false 1 21) = "1e+21"
  /\ format_number (of_Z (2 ^ 53)) = "9007199254740992"
  /\ format_number (S754_finite false 1 (-1074)) = "5e-324"
  /\ format_number (S754_finite true 9007199254740991 971)
     = "-1.7976931348623157e+308".
Proof. vm_compute. repeat split. Qed.

End RoundTrip.

(* ===================================================================== *)
(** * Frame rules: what a computation keeps                               *)
(* ===================================================================== *)

Section Keeps.
Context {R : World -> World -> Prop} `{!PreOrder R}.

Lemma keeps_ret {A} (a : A) : keeps R (mret a).
Proof. intros w. reflexivity. Qed.

Lemma keeps_bind {A B} (c : M A) (k : A -> M B) :
  keeps R c -> (forall a, keeps R (k a)) -> keeps R (c ≫= k).
Proof.
  intros Hc Hk w. unfold mbind, M_bind.
  pose proof (Hc w) as H1. destruct (c w) as [a w1]. cbn [snd] in H1.
  etrans; [exact H1|]. apply Hk.
Qed.

Lemma keeps_gets {A} (f : World -> A) : keeps R (gets f).
Proof. intros w. reflexivity. Qed.

End Keeps.

Ltac keeps_step :=
  lazymatch goal with
  | |- keeps _ (mret _) => apply keeps_ret
  | |- keeps _ (gets _) => apply keeps_gets
  | |- keeps _ (mbind _ _) => apply keeps_bind; [|intros ?]
  | |- keeps _ (match ?x with _ => _ end) => destruct x
  | |- keeps _ (let (_, _) := ?x in _) => destruct x
  end.

Create HintDb frame discriminated.

Ltac keeps_auto := repeat first [ solve [auto with frame nocore] | keeps_step ].

Section Others.
Context (p : Proc).

#[local] Instance same_others_preorder : PreOrder (same_others p).
Proof.
  split; [intros w; reflexivity|].
  intros a b c H1 H2. unfold same_others in *. congruence.
Qed.

Lemma locks_same_others {A} (c : M A) :
  (forall w, locks (c w).2 = locks w) -> keeps (same_others p) c.
Proof. intros H w. unfold same_others. by rewrite H. Qed.

Ltac locks_same :=
  apply locks_same_others; intros w; unfold open_fd, put; os_unfold; cbn [id];
  repeat (case_match; simplify_eq; cbn; try done).

Lemma os_Stat_others name : keeps (same_others p) (os_Stat name).
Proof. unfold os_Stat. locks_same. Qed.
Lemma os_Chmod_others name mode : keeps (same_others p) (os_Chmod name mode).
Proof. unfold os_Chmod. locks_same. Qed.
Lemma os_Remove_others name : keeps (same_others p) (os_Remove name).
Proof. unfold os_Remove. locks_same. Qed.
Lemma os_RemoveAll_others name : keeps (same_others p) (os_RemoveAll name).
Proof. unfold os_RemoveAll. locks_same. Qed.
Lemma os_Rename_others a b : keeps (same_others p) (os_Rename a b).
Proof. unfold os_Rename. locks_same. Qed.
Lemma os_MkdirAll_others a b : keeps (same_others p) (os_MkdirAll a b).
Proof. unfold os_MkdirAll. locks_same. Qed.
Lemma os_ReadDir_others a : keeps (same_others p) (os_ReadDir a).
Proof. unfold os_ReadDir. locks_same. Qed.
Lemma de_Info_others a b : keeps (same_others p) (de_Info a b).
Proof. unfold de_Info. locks_same. Qed.
Lemma os_OpenFile_others q a b c : keeps (same_others p) (os_OpenFile q a b c).
Proof. unfold os_OpenFile. locks_same. Qed.
Lemma file_Write_others q a b : keeps (same_others p) (file_Write q a b).
Proof. unfold file_Write. locks_same. Qed.
Lemma io_Copy_others q a b : keeps (same_others p) (io_Copy q a b).
Proof. unfold io_Copy. locks_same. Qed.
Lemma file_Sync_others q a : keeps (same_others p) (file_Sync q a).
Proof. unfold file_Sync. locks_same. Qed.
Lemma os_ReadFile_others a : keeps (same_others p) (os_ReadFile a).
Proof. unfold os_ReadFile. locks_same. Qed.
Lemma net_Listen_others a : keeps (same_others p) (net_Listen a).
Proof. unfold net_Listen. locks_same. Qed.
Lemma os_CreateTemp_others q a b : keeps (same_others p) (os_CreateTemp q a b).
Proof.
  unfold os_CreateTemp. generalize max_tries. intros n. locks_same.
Qed.

Lemma others_filter (Q : lockrec -> Prop) `{!forall r, Decision (Q r)} ls :
  (forall r, lk_pid r <> pid p -> Q r) ->
  others p (filter Q ls) = others p ls.
Proof.
  intros HQ. unfold others. induction ls as [|r ls IH]; [done|].
  rewrite !filter_cons. destruct (decide (lk_pid r ≠ pid p)) as [Hr|Hr].
  - rewrite decide_True by auto. rewrite filter_cons, decide_True by done.
    by rewrite IH.
  - destruct (decide (Q r)); [rewrite filter_cons, decide_False by done|]; exact IH.
Qed.

Lemma others_own ls : Forall (fun r => lk_pid r = pid p) ls -> others p ls = [].
Proof.
  unfold others. induction 1 as [|r ls Hr _ IH]; [done|].
  rewrite filter_cons, decide_False by (intros H; by apply H). exact IH.
Qed.

Lemma others_app l1 l2 : others p (l1 ++ l2) = others p l1 ++ others p l2.
Proof. unfold others. apply filter_app. Qed.

Lemma carve_pid lo hi r :
  Forall (fun r' => lk_pid r' = lk_pid r) (carve lo hi r).
Proof.
  unfold carve. repeat case_match; repeat constructor.
Qed.

Lemma others_relock path lo hi new ls :
  Forall (fun r => lk_pid r = pid p) new ->
  others p (relock p path lo hi new ls) = others p ls.
Proof.
  intros Hnew. unfold relock. rewrite others_app, (others_own new Hnew).
  cbn [app]. induction ls as [|r ls IH]; [done|].
  cbn [flat_map]. rewrite others_app, IH.
  change (r :: ls) with ([r] ++ ls). rewrite (others_app [r]). f_equal.
  unfold own.
  destruct (bool_decide_reflect (lk_pid r = pid p)) as [Hr|Hr]; cbn [andb];
    [|done].
  rewrite (others_own [r]) by (by constructor).
  destruct (String.eqb _ _); apply others_own; [|by constructor].
  eapply Forall_impl; [apply carve_pid|]. cbn. congruence.
Qed.

Lemma file_Close_others f : keeps (same_others p) (file_Close p f).
Proof.
  intros w. unfold file_Close, release, same_others. os_unfold.
  destruct (fdtab w !! _); cbn; [|done].
  apply others_filter. intros r Hr [Hp _]. done.
Qed.

Lemma os_Exit_others : keeps (same_others p) (os_Exit p).
Proof.
  intros w. unfold os_Exit, same_others. os_unfold. cbn.
  apply others_filter. done.
Qed.

Lemma syscall_FcntlFlock_others fd cmd lk :
  keeps (same_others p) (syscall_FcntlFlock p fd cmd lk).
Proof.
  intros w. unfold syscall_FcntlFlock, same_others. os_unfold. cbn [id].
  repeat (case_match; simplify_eq; cbn -[others relock]; try done);
    apply others_relock; repeat constructor.
Qed.

#[local] Hint Resolve os_Stat_others os_Chmod_others os_Remove_others
  os_RemoveAll_others os_Rename_others os_MkdirAll_others os_ReadDir_others
  de_Info_others os_OpenFile_others file_Write_others io_Copy_others
  file_Sync_others os_ReadFile_others net_Listen_others os_CreateTemp_others
  file_Close_others os_Exit_others syscall_FcntlFlock_others : frame.

Lemma CopyFile_others src dst : keeps (same_others p) (CopyFile p src dst).
Proof. unfold CopyFile, os_Open, os_Create. keeps_auto. Qed.
#[local] Hint Resolve CopyFile_others : frame.

Lemma CopyDir_at_others depth : forall src dst,
  keeps (same_others p) (CopyDir_at depth p src dst).
Proof.
  induction depth as [|depth IH]; intros src dst; cbn [CopyDir_at]; keeps_auto.
  match goal with |- keeps _ (_ ?l) => induction l as [|entry rest IHl] end;
    keeps_auto.
Qed.

Lemma CopyDir_others src dst : keeps (same_others p) (CopyDir p src dst).
Proof. apply CopyDir_at_others. Qed.
#[local] Hint Resolve CopyDir_others : frame.

Lemma Rename_others src dst : keeps (same_others p) (Rename p src dst).
Proof. unfold Rename. keeps_auto. Qed.
#[local] Hint Resolve Rename_others : frame.

Lemma writeTmpFile_others dir prefix content :
  keeps (same_others p) (writeTmpFile p dir prefix content).
Proof. unfold writeTmpFile. keeps_auto. Qed.
#[local] Hint Resolve writeTmpFile_others : frame.

Lemma WriteAtomic_others dir prefix file content perm :
  keeps (same_others p) (WriteAtomic p dir prefix file content perm).
Proof. unfold WriteAtomic. keeps_auto. Qed.

Lemma WriteAtomicTmpDir_others prefix file content perm :
  keeps (same_others p) (WriteAtomicTmpDir p prefix file content perm).
Proof. apply WriteAtomic_others. Qed.
#[local] Hint Resolve WriteAtomicTmpDir_others : frame.

Lemma close_file_others l : keeps (same_others p) (close_file p l).
Proof. unfold close_file. keeps_auto. Qed.
#[local] Hint Resolve close_file_others : frame.

Lemma lock_others exclusive blocking offset whence len l :
  keeps (same_others p) (lock p exclusive blocking offset whence len l).
Proof. unfold lock. keeps_auto. Qed.

Lemma unlock_others offset whence len l :
  keeps (same_others p) (unlock p offset whence len l).
Proof. unfold unlock. keeps_auto. Qed.
#[local] Hint Resolve lock_others unlock_others : frame.

Lemma hostname_others cd g rw : keeps (same_others p) (hostname cd p g rw).
Proof. unfold hostname. keeps_auto. Qed.
#[local] Hint Resolve hostname_others : frame.

Lemma hostname_times_others cd k : forall g,
  keeps (same_others p) (hostname_times cd p k g).
Proof. induction k; intros g; cbn [hostname_times]; keeps_auto. Qed.

Lemma createFile_others cd g name : keeps (same_others p) (createFile cd p g name).
Proof. unfold createFile, initFile. keeps_auto. Qed.
#[local] Hint Resolve createFile_others : frame.

Lemma main_others cd file listen : keeps (same_others p) (main cd p file listen).
Proof. unfold main, LockWrite, Unlock. keeps_auto. Qed.

End Others.

(* ===================================================================== *)
(** * When no lock conflicts                                              *)
(* ===================================================================== *)

Section Restart.
Import Json.
Open Scope string_scope.

Lemma conflict_none p path excl lo hi ls :
  (forall r, r ∈ ls -> lk_path r = path -> lk_pid r <> pid p ->
             overlaps (lk_lo r) (lk_hi r) lo hi = true ->
             (excl || lk_excl r) = false) ->
  conflict p path excl lo hi ls = None.
Proof.
  intros H. unfold conflict. destruct (List.find _ ls) as [r|] eqn:E; [|done].
  apply List.find_some in E as [Hin E]. apply list_elem_of_In in Hin.
  apply andb_prop in E as [E Ho]. apply andb_prop in E as [E Hx].
  apply andb_prop in E as [Hp Hpid].
  apply String.eqb_eq in Hp. apply negb_true_iff, bool_decide_eq_false in Hpid.
  rewrite (H r Hin Hp Hpid Ho) in Hx. discriminate.
Qed.

Lemma conflict_none_inv p path excl lo hi ls r :
  conflict p path excl lo hi ls = None ->
  r ∈ ls -> lk_path r = path -> lk_pid r <> pid p ->
  overlaps (lk_lo r) (lk_hi r) lo hi = true ->
  (excl || lk_excl r) = false.
Proof.
  intros Hc Hin Hp Hpid Ho.
  destruct (excl || lk_excl r) eqn:Hx; [|done].
  destruct (find_conflict p path excl lo hi ls r Hin Hp Hpid Hx Ho) as [r' Hr'].
  congruence.
Qed.

End Restart.

(* ===================================================================== *)
(** * The lock handle and the name space                                  *)
(* ===================================================================== *)

Section LockFrame.
Open Scope string_scope.

#[local] Instance extends_fs_preorder : PreOrder extends_fs.
Proof.
  split; [by intros w x|].
  intros a b c H1 H2 x Hx. rewrite H2, H1; [done|done|]. by rewrite H1.
Qed.

Lemma fs_extends_fs {A} (c : M A) :
  (forall w, fs (c w).2 = fs w) -> keeps extends_fs c.
Proof. intros H w x _. by rewrite H. Qed.

Lemma follow_missing fuel m name q :
  follow fuel m name = inr (q, ENOENT) -> m !! q = None.
Proof.
  revert name. induction fuel as [|fuel IH]; intros name; cbn [follow];
    destruct (m !! name) as [[| |t]|] eqn:E; try done.
  - by intros [= <-].
  - apply IH.
  - by intros [= <-].
Qed.

Lemma os_OpenFile_extends p name flag perm :
  has_flag flag O_TRUNC = false ->
  keeps extends_fs (os_OpenFile p name flag perm).
Proof.
  intros Ht w x Hx. unfold os_OpenFile, open_fd. os_unfold. cbn [id]. rewrite Ht.
  repeat (case_match; simplify_eq; cbn; try done).
  - apply lookup_insert_ne. intros ->. rewrite H1 in Hx. by destruct Hx.
  - apply lookup_insert_ne. intros ->.
    apply follow_missing in H1. cbn in H1. rewrite H1 in Hx. by destruct Hx.
Qed.

Lemma syscall_FcntlFlock_extends p fd cmd lk :
  keeps extends_fs (syscall_FcntlFlock p fd cmd lk).
Proof.
  apply fs_extends_fs. intros w. unfold syscall_FcntlFlock. os_unfold. cbn [id].
  repeat (case_match; simplify_eq; cbn; try done).
Qed.

Lemma file_Close_extends p f : keeps extends_fs (file_Close p f).
Proof.
  apply fs_extends_fs. intros w. unfold file_Close. os_unfold.
  repeat (case_match; simplify_eq; cbn; try done).
Qed.

#[local] Hint Resolve syscall_FcntlFlock_extends file_Close_extends : frame.

Lemma close_file_extends p l : keeps extends_fs (close_file p l).
Proof. unfold close_file. keeps_auto. Qed.
#[local] Hint Resolve close_file_extends : frame.

Lemma lock_extends p exclusive blocking offset whence len l :
  keeps extends_fs (lock p exclusive blocking offset whence len l).
Proof.
  unfold lock. keeps_auto. by apply os_OpenFile_extends.
Qed.

Lemma unlock_extends p offset whence len l :
  keeps extends_fs (unlock p offset whence len l).
Proof. unfold unlock. keeps_auto. Qed.

Lemma Owner_extends p l : keeps extends_fs (Owner p l).
Proof. unfold Owner. keeps_auto. Qed.

(** A non-blocking lock call returns. *)
Lemma lock_returns p exclusive offset whence len l w :
  (lock p exclusive false offset whence len l w).1.2 <> Blocked.
Proof.
  unfold lock, syscall_FcntlFlock, close_file. os_unfold. cbn [id].
  repeat (case_match; simplify_eq; cbn in *; try done).
Qed.

End LockFrame.

(* ===================================================================== *)
(** * Fresh descriptors                                                   *)
(* ===================================================================== *)

Section Descriptors.
Open Scope string_scope.

Lemma free_fd_ge fuel t p fd : (fd <= free_fd fuel t p fd)%Z.
Proof.
  revert fd. induction fuel as [|fuel IH]; intros fd; cbn [free_fd]; [lia|].
  destruct (t !! (p, fd)); [|lia]. specialize (IH (fd + 1)%Z). lia.
Qed.

Lemma free_fd_ext fuel t t' p fd :
  (forall j, (fd <= j)%Z -> t !! (p, j) = t' !! (p, j)) ->
  free_fd fuel t p fd = free_fd fuel t' p fd.
Proof.
  revert fd. induction fuel as [|fuel IH]; intros fd H; cbn [free_fd]; [done|].
  rewrite <- (H fd) by lia. destruct (t !! (p, fd)); [|done].
  apply IH. intros j Hj. apply H. lia.
Qed.

Lemma free_fd_free fuel : forall (t : gmap (Z * Z) OpenFD) p fd,
  (size t <= fuel)%nat -> t !! (p, free_fd fuel t p fd) = None.
Proof.
  induction fuel as [|fuel IH]; intros t p fd Hsz; cbn [free_fd].
  - assert (t = ∅) as -> by (apply map_size_empty_iff; lia). done.
  - destruct (t !! (p, fd)) as [d|] eqn:E; [|done].
    assert (Hd : (size (delete (p, fd) t) <= fuel)%nat).
    { rewrite map_size_delete_Some by eauto. lia. }
    specialize (IH (delete (p, fd) t) p (fd + 1)%Z Hd).
    rewrite <- (free_fd_ext fuel t (delete (p, fd) t)) in IH.
    2:{ intros j Hj. rewrite lookup_delete_ne; [done|]. intros [=]. lia. }
    rewrite lookup_delete_ne in IH; [done|].
    intros [= H]. pose proof (free_fd_ge fuel t p (fd + 1)). lia.
Qed.

Lemma next_fd_free p w : fdtab w !! (pid p, next_fd p w) = None.
Proof. unfold next_fd. by apply free_fd_free. Qed.

End Descriptors.

(* ===================================================================== *)
(** * System calls without environment faults                             *)
(* ===================================================================== *)

Section Exact.
Open Scope string_scope.

Lemma os_Open_file p name w c pm :
  script w = [] -> fs w !! name = Some (NFile c pm) ->
  os_Open p name w
  = (Ok {| f_name := name; f_fd := next_fd p w |},
     set_fdtab (<[(pid p, next_fd p w) := {| fd_path := name; fd_off := 0 |}]>
                  (fdtab w)) w).
Proof.
  intros Hs Hn. unfold os_Open, os_OpenFile. os_unfold.
  rewrite next_fault_nil, advance_nil by done. cbn [fault_errno id].
  change (has_flag O_RDONLY O_CREATE) with false. cbn [andb].
  rewrite (resolve_file _ _ _ _ Hn).
  change (has_flag O_RDONLY O_TRUNC) with false. reflexivity.
Qed.

Lemma os_Create_file p name w c pm :
  script w = [] -> fs w !! name = Some (NFile c pm) ->
  os_Create p name w
  = (Ok {| f_name := name; f_fd := next_fd p w |},
     set_fdtab (<[(pid p, next_fd p w) := {| fd_path := name; fd_off := 0 |}]>
                  (fdtab w))
       (set_fs (<[name := NFile [] pm]> (fs w)) w)).
Proof.
  intros Hs Hn. unfold os_Create, os_OpenFile. os_unfold.
  rewrite next_fault_nil, advance_nil by done. cbn [fault_errno id].
  change (has_flag _ O_EXCL) with false. rewrite andb_false_r.
  rewrite (resolve_file _ _ _ _ Hn).
  change (has_flag _ O_TRUNC) with true. reflexivity.
Qed.

Lemma os_Create_absent p name w :
  script w = [] -> fs w !! name = None ->
  os_Create p name w
  = (Ok {| f_name := name; f_fd := next_fd p w |},
     set_fdtab (<[(pid p, next_fd p w) := {| fd_path := name; fd_off := 0 |}]>
                  (fdtab w))
       (set_fs (<[name := NFile [] (new_perm 438 w)]> (fs w)) w)).
Proof.
  intros Hs Hn. unfold os_Create, os_OpenFile. os_unfold.
  rewrite next_fault_nil, advance_nil by done. cbn [fault_errno id].
  change (has_flag _ O_EXCL) with false. rewrite andb_false_r.
  rewrite (resolve_absent _ _ Hn).
  change (has_flag _ O_CREATE) with true. reflexivity.
Qed.

Lemma put_file p fd data w d c pm :
  fdtab w !! (pid p, fd) = Some d -> fs w !! fd_path d = Some (NFile c pm) ->
  put p fd data w
  = (tt, set_fs (<[fd_path d := NFile (write_at (fd_off d) data c) pm]> (fs w))
           (set_fdtab (<[(pid p, fd) := {| fd_path := fd_path d;
                                           fd_off := fd_off d + length data |}]>
                         (fdtab w)) w)).
Proof.
  intros Hd Hf. unfold put. os_unfold. cbn [id]. rewrite Hd. cbn. by rewrite Hf.
Qed.

Lemma io_Copy_file p dst src w s d c pm c' pm' :
  script w = [] ->
  fdtab w !! (pid p, f_fd src) = Some s ->
  fdtab w !! (pid p, f_fd dst) = Some d ->
  fs w !! fd_path s = Some (NFile c pm) ->
  fs w !! fd_path d = Some (NFile c' pm') ->
  io_Copy p dst src w
  = (Ok (length (drop (fd_off s) c)),
     set_fs (<[fd_path d := NFile (write_at (fd_off d) (drop (fd_off s) c) c') pm']>
               (fs w))
       (set_fdtab (<[(pid p, f_fd dst) :=
                       {| fd_path := fd_path d;
                          fd_off := fd_off d + length (drop (fd_off s) c) |}]>
                     (fdtab w)) w)).
Proof.
  intros Hs Hsrc Hdst Hfs Hfd. unfold io_Copy.
  unfold mbind at 1, M_bind at 1, gets at 1. cbn [id]. rewrite Hsrc, Hdst, Hfs.
  unfold mbind at 1, M_bind at 1. rewrite (tick_io_nil w Hs).
  unfold mbind, M_bind. rewrite (put_file p (f_fd dst) _ w d c' pm' Hdst Hfd).
  reflexivity.
Qed.

Lemma file_Sync_open p f w d :
  script w = [] -> fdtab w !! (pid p, f_fd f) = Some d ->
  file_Sync p f w = (None, w).
Proof.
  intros Hs Hd. unfold file_Sync. os_unfold. rewrite Hd.
  by rewrite next_fault_nil, advance_nil.
Qed.

Lemma file_Close_open p f w d :
  script w = [] -> fdtab w !! (pid p, f_fd f) = Some d ->
  file_Close p f w
  = (({| f_name := f_name f; f_fd := -1 |}, None),
     release p (f_fd f) (fd_path d) w).
Proof.
  intros Hs Hd. unfold file_Close. os_unfold. rewrite Hd.
  by rewrite next_fault_nil, advance_nil.
Qed.

Lemma os_Chmod_file name mode w c pm :
  script w = [] -> fs w !! name = Some (NFile c pm) ->
  os_Chmod name mode w
  = (None, set_fs (<[name := NFile c (Z.land mode ModePerm)]> (fs w)) w).
Proof.
  intros Hs Hn. unfold os_Chmod. os_unfold.
  rewrite next_fault_nil, advance_nil by done. cbn [fault_errno].
  by rewrite (resolve_file _ _ _ _ Hn).
Qed.

Lemma os_Remove_file name w c pm :
  script w = [] -> fs w !! name = Some (NFile c pm) ->
  os_Remove name w = (None, set_fs (delete name (fs w)) w).
Proof.
  intros Hs Hn. unfold os_Remove. os_unfold.
  rewrite next_fault_nil, advance_nil by done. cbn [fault_errno].
  by rewrite Hn.
Qed.

Lemma write_at_fresh data : write_at 0 data [] = data.
Proof. unfold write_at. cbn. by rewrite drop_nil, app_nil_r. Qed.

End Exact.

(* ===================================================================== *)
(** * CopyFile without environment faults                                 *)
(* ===================================================================== *)

Section CopyFileFacts.
Open Scope string_scope.

(** The source as [io.Copy] finds it once the destination is truncated. *)
Lemma CopyFile_run p src dst w c pm :
  script w = [] -> fs w !! src = Some (NFile c pm) ->
  (fs w !! dst = None \/ exists c' pm', fs w !! dst = Some (NFile c' pm')) ->
  exists w',
    CopyFile p src dst w = (None, w')
    /\ fs w' = <[dst := NFile (if decide (src = dst) then [] else c)
                          (Z.land pm ModePerm)]> (fs w)
    /\ fdtab w' = fdtab w /\ script w' = [] /\ umask w' = umask w
    /\ rand w' = rand w.
Proof.
  intros Hs Hsrc Hdst.
  unfold CopyFile. unfold mbind at 1, M_bind at 1.
  rewrite (os_Open_file p src w c pm Hs Hsrc).
  set (fd1 := next_fd p w).
  set (w1 := set_fdtab _ w).
  assert (Hfd1 : fdtab w !! (pid p, fd1) = None) by apply next_fd_free.
  set (fd2 := next_fd p w1).
  assert (Hfd2 : fdtab w1 !! (pid p, fd2) = None) by apply next_fd_free.
  assert (Hne : fd2 <> fd1).
  { intros E. rewrite E in Hfd2. subst w1. cbn in Hfd2.
    by rewrite lookup_insert_eq in Hfd2. }
  (* the destination once created or truncated *)
  assert (Hcreate : exists pm2,
    os_Create p dst w1
    = (Ok {| f_name := dst; f_fd := fd2 |},
       set_fdtab (<[(pid p, fd2) := {| fd_path := dst; fd_off := 0 |}]> (fdtab w1))
         (set_fs (<[dst := NFile [] pm2]> (fs w)) w1))
    /\ (src = dst -> pm2 = pm)).
  { destruct Hdst as [Hn|(c' & pm' & Hd)].
    - eexists. rewrite (os_Create_absent p dst w1 Hs Hn). split; [done|].
      intros ->. congruence.
    - eexists. rewrite (os_Create_file p dst w1 c' pm' Hs Hd). split; [done|].
      intros ->. congruence. }
  destruct Hcreate as (pm2 & Hcreate & Hpm2).
  unfold mbind at 1, M_bind at 1. unfold mbind at 1, M_bind at 1.
  rewrite Hcreate.
  set (w2 := set_fdtab _ (set_fs _ w1)).
  set (data := if decide (src = dst) then [] else c).
  assert (Hsrc2 : fs w2 !! src = Some (NFile data pm)).
  { subst w2 data. cbn. destruct (decide (src = dst)) as [->|Hsd].
    - by rewrite lookup_insert_eq, Hpm2.
    - by rewrite lookup_insert_ne. }
  unfold mbind at 1, M_bind at 1. unfold mbind at 1, M_bind at 1.
  rewrite (io_Copy_file p {| f_name := dst; f_fd := fd2 |}
             {| f_name := src; f_fd := fd1 |} w2
             {| fd_path := src; fd_off := 0 |} {| fd_path := dst; fd_off := 0 |}
             data pm [] pm2 Hs).
  2:{ subst w2 w1. cbn. rewrite lookup_insert_ne by congruence.
      by rewrite lookup_insert_eq. }
  2:{ subst w2. cbn. by rewrite lookup_insert_eq. }
  2:{ exact Hsrc2. }
  2:{ subst w2. cbn. by rewrite lookup_insert_eq. }
  cbn [fd_path fd_off drop]. rewrite write_at_fresh.
  set (w3 := set_fs _ (set_fdtab _ w2)).
  assert (Hout : fdtab w3 !! (pid p, fd2)
                 = Some {| fd_path := dst; fd_off := (0 + length data)%nat |}).
  { subst w3. cbn. by rewrite lookup_insert_eq. }
  unfold mbind at 1, M_bind at 1.
  rewrite (file_Sync_open p {| f_name := dst; f_fd := fd2 |} w3 _ Hs Hout).
  unfold mbind at 1, M_bind at 1.
  assert (Hsrc3 : fs w3 !! src = Some (NFile data (if decide (src = dst) then pm2 else pm))).
  { subst w3 w2. cbn. destruct (decide (src = dst)) as [->|Hsd].
    - by rewrite lookup_insert_eq.
    - rewrite !lookup_insert_ne by done. exact Hsrc. }
  rewrite (os_Stat_file src w3 _ _ Hs Hsrc3). cbn [info_of fi_Mode].
  assert (Hmode : (if decide (src = dst) then pm2 else pm) = pm)
    by (destruct (decide (src = dst)); auto).
  rewrite Hmode.
  assert (Hdst3 : fs w3 !! dst = Some (NFile data pm2)).
  { subst w3. cbn. by rewrite lookup_insert_eq. }
  rewrite (os_Chmod_file dst pm w3 data pm2 Hs Hdst3).
  set (w4 := set_fs _ w3).
  unfold mbind at 1, M_bind at 1.
  rewrite (file_Close_open p {| f_name := dst; f_fd := fd2 |} w4 _ Hs Hout).
  cbn [f_fd f_name fd_path].
  set (w5 := release p fd2 dst w4).
  unfold mbind at 1, M_bind at 1.
  assert (Hin : fdtab w5 !! (pid p, fd1) = Some {| fd_path := src; fd_off := 0 |}).
  { subst w5 w4 w3 w2 w1. cbn.
    rewrite lookup_delete_ne by congruence.
    rewrite !lookup_insert_ne by congruence. by rewrite lookup_insert_eq. }
  unfold mbind, M_bind, mret, M_ret. cbn beta iota.
  rewrite (file_Close_open p {| f_name := src; f_fd := fd1 |} w5 _ Hs Hin).
  cbn [f_fd f_name fd_path].
  eexists. split; [reflexivity|].
  assert (Hfd2' : fdtab w !! (pid p, fd2) = None).
  { subst w1. cbn in Hfd2. by rewrite lookup_insert_ne in Hfd2 by congruence. }
  clear Hout Hsrc3 Hdst3 Hin Hsrc2 Hcreate Hfd2.
  subst w5 w4 w3 w2 w1. cbn.
  split; [by rewrite !insert_insert_eq|].
  split; [|done].
  rewrite insert_insert_eq, delete_insert_eq.
  rewrite delete_insert_ne by congruence.
  rewrite delete_insert_eq.
  rewrite (delete_id (fdtab w)) by exact Hfd2'.
  by apply delete_id.
Qed.

End CopyFileFacts.

(* ===================================================================== *)
(** * The cross-device fallback of Rename                                 *)
(* ===================================================================== *)

Section RenameFallback.
Open Scope string_scope.

Lemma os_Rename_cross_device src dst w :
  script w = [Fail FEXDEV] ->
  os_Rename src dst w
  = (Some (LinkError "rename" src dst EXDEV), set_script [] w).
Proof.
  intros Hs. unfold os_Rename. os_unfold. unfold next_fault, advance.
  by rewrite Hs.
Qed.

Lemma Rename_fallback_file p src dst w c pm :
  script w = [Fail FEXDEV] -> fs w !! src = Some (NFile c pm) -> src <> dst ->
  (fs w !! dst = None \/ exists c' pm', fs w !! dst = Some (NFile c' pm')) ->
  exists w',
    Rename p src dst w = (None, w')
    /\ fs w' = <[dst := NFile c (Z.land pm ModePerm)]> (delete src (fs w))
    /\ fdtab w' = fdtab w /\ script w' = [].
Proof.
  intros Hs Hsrc Hne Hdst. unfold Rename. unfold mbind at 1, M_bind at 1.
  rewrite (os_Rename_cross_device src dst w Hs).
  rewrite LinkError_cross_device. rewrite bool_decide_eq_true_2 by done.
  set (w1 := set_script [] w).
  unfold mbind at 1, M_bind at 1.
  rewrite (os_Stat_file src w1 c pm eq_refl Hsrc). cbn [info_of fi_IsDir].
  destruct (CopyFile_run p src dst w1 c pm eq_refl Hsrc Hdst)
    as (w2 & Hcp & Hfs2 & Hfd2 & Hs2 & _).
  unfold mbind at 1, M_bind at 1. rewrite Hcp.
  rewrite decide_False in Hfs2 by done.
  unfold mbind, M_bind, mret, M_ret.
  rewrite (os_Remove_file src w2 c pm Hs2)
    by (rewrite Hfs2, lookup_insert_ne by done; exact Hsrc).
  eexists. split; [reflexivity|]. cbn.
  rewrite Hfs2. split; [by rewrite delete_insert_ne|]. done.
Qed.

End RenameFallback.

(* ===================================================================== *)
(** * What CopyDir checks first                                           *)
(* ===================================================================== *)

Section CopyDirFacts.
Open Scope string_scope.

Lemma resolve_dir m name pm :
  m !! name = Some (NDir pm) -> resolve m name = inl (name, NDir pm).
Proof. intros H. by apply follow_entry. Qed.

Lemma os_Stat_dir name w pm :
  script w = [] -> fs w !! name = Some (NDir pm) ->
  os_Stat name w = (Ok (info_of (NDir pm)), w).
Proof.
  intros Hs Hn. unfold os_Stat, mbind, M_bind, mret, M_ret, gets.
  rewrite (tick_nil w Hs). cbn beta iota. by rewrite (resolve_dir _ _ _ Hn).
Qed.

Lemma PATH_MAX_succ : exists n, PATH_MAX = S n.
Proof. exists (Z.to_nat 4095). vm_compute. reflexivity. Qed.

Lemma CopyDir_source_file p src dst w c pm :
  script w = [] -> fs w !! Filepath.Clean src = Some (NFile c pm) ->
  CopyDir p src dst w = (Some ErrSourceDir, w).
Proof.
  intros Hs Hsrc. unfold CopyDir. destruct PATH_MAX_succ as [n ->].
  cbn [CopyDir_at]. unfold mbind at 1, M_bind at 1.
  by rewrite (os_Stat_file _ w c pm Hs Hsrc).
Qed.

Lemma CopyDir_source_missing p src dst w :
  script w = [] -> fs w !! Filepath.Clean src = None ->
  CopyDir p src dst w
  = (Some (PathError "stat" (Filepath.Clean src) ENOENT), w).
Proof.
  intros Hs Hsrc. unfold CopyDir. destruct PATH_MAX_succ as [n ->].
  cbn [CopyDir_at]. unfold mbind at 1, M_bind at 1.
  by rewrite (os_Stat_absent _ w Hs Hsrc).
Qed.

Lemma CopyDir_destination_exists p src dst w pm n :
  script w = [] -> fs w !! Filepath.Clean src = Some (NDir pm) ->
  fs w !! Filepath.Clean dst = Some n -> (forall t, n <> NSymlink t) ->
  CopyDir p src dst w = (Some ErrDestinationExists, w).
Proof.
  intros Hs Hsrc Hdst Hn. unfold CopyDir. destruct PATH_MAX_succ as [k ->].
  cbn [CopyDir_at]. unfold mbind at 1, M_bind at 1.
  rewrite (os_Stat_dir _ w pm Hs Hsrc). cbn [info_of fi_IsDir negb].
  unfold mbind at 1, M_bind at 1.
  unfold os_Stat, mbind, M_bind, mret, M_ret, gets.
  rewrite (tick_nil w Hs). cbn beta iota.
  unfold resolve. by rewrite (follow_entry _ _ _ _ Hdst Hn).
Qed.

Lemma os_MkdirAll_absent path perm w :
  script w = [] -> fs w !! path = None ->
  os_MkdirAll path perm w
  = (None, set_fs (<[path := NDir (new_perm perm w)]> (fs w)) w).
Proof.
  intros Hs Hn. unfold os_MkdirAll. os_unfold.
  rewrite next_fault_nil, advance_nil by done. cbn [fault_errno id].
  by rewrite Hn.
Qed.

Lemma os_ReadDir_dir name w pm :
  script w = [] -> fs w !! name = Some (NDir pm) ->
  os_ReadDir name w
  = (Ok (merge_sort entry_le
           ((fun '(c, n) => {| de_Name := c; de_node := n |})
              <$> children (fs w) name)), w).
Proof.
  intros Hs Hn. unfold os_ReadDir. os_unfold.
  rewrite next_fault_nil, advance_nil by done. cbn [fault_errno].
  by rewrite (resolve_dir _ _ _ Hn).
Qed.

End CopyDirFacts.

(* ===================================================================== *)
(** * The atomic writer without environment faults                        *)
(* ===================================================================== *)

Section AtomicWrite.
Open Scope string_scope.

(** The pattern that [writeTmpFile] hands to [os.CreateTemp]. *)
Lemma os_CreateTemp_first p dir pattern w pre suf :
  script w = [] -> prefixAndSuffix pattern = Ok (pre, suf) ->
  fs w !! joinPath (if String.eqb dir "" then os_TempDir p else dir)
            (pre ++ Itoa (Z.of_nat (rand w)) ++ suf) = None ->
  os_CreateTemp p dir pattern w
  = (Ok {| f_name := joinPath (if String.eqb dir "" then os_TempDir p else dir)
                       (pre ++ Itoa (Z.of_nat (rand w)) ++ suf);
           f_fd := next_fd p w |},
     set_fdtab
       (<[(pid p, next_fd p w) :=
            {| fd_path := joinPath (if String.eqb dir "" then os_TempDir p else dir)
                            (pre ++ Itoa (Z.of_nat (rand w)) ++ suf);
               fd_off := 0 |}]> (fdtab w))
       (set_fs (<[joinPath (if String.eqb dir "" then os_TempDir p else dir)
                    (pre ++ Itoa (Z.of_nat (rand w)) ++ suf)
                  := NFile [] (new_perm 384 w)]> (fs w))
          (set_rand (S (rand w)) w))).
Proof.
  intros Hs Hps Hfree. unfold os_CreateTemp. rewrite Hps.
  destruct max_tries_succ as [n ->]. os_unfold. cbn [id].
  rewrite next_fault_nil, advance_nil by done. cbn [fault_errno].
  rewrite createTemp_try_first by exact Hfree. reflexivity.
Qed.

Lemma file_Write_fresh p f data w path pm :
  script w = [] ->
  fdtab w !! (pid p, f_fd f) = Some {| fd_path := path; fd_off := 0 |} ->
  fs w !! path = Some (NFile [] pm) ->
  file_Write p f data w
  = (Ok (length data),
     set_fs (<[path := NFile data pm]> (fs w))
       (set_fdtab (<[(pid p, f_fd f) := {| fd_path := path;
                                           fd_off := (0 + length data)%nat |}]>
                     (fdtab w)) w)).
Proof.
  intros Hs Hfd Hfs. unfold file_Write.
  unfold mbind at 1, M_bind at 1, gets at 1. rewrite Hfd.
  unfold mbind at 1, M_bind at 1. rewrite (tick_io_nil w Hs).
  unfold mbind, M_bind, mret, M_ret.
  rewrite (put_file p (f_fd f) data w _ [] pm Hfd Hfs).
  cbn [fd_path fd_off]. by rewrite write_at_fresh.
Qed.

Lemma writeTmpFile_first p dir prefix content w pre suf :
  script w = [] ->
  prefixAndSuffix (if negb (Contains prefix "*") then prefix ++ "_*" else prefix)
  = Ok (pre, suf) ->
  fs w !! joinPath (if String.eqb dir "" then os_TempDir p else dir)
            (pre ++ Itoa (Z.of_nat (rand w)) ++ suf) = None ->
  exists w',
    writeTmpFile p dir prefix content w
    = (Ok (joinPath (if String.eqb dir "" then os_TempDir p else dir)
             (pre ++ Itoa (Z.of_nat (rand w)) ++ suf)), w')
    /\ fs w' = <[joinPath (if String.eqb dir "" then os_TempDir p else dir)
                   (pre ++ Itoa (Z.of_nat (rand w)) ++ suf)
                 := NFile content (new_perm 384 w)]> (fs w)
    /\ fdtab w' = fdtab w /\ script w' = [] /\ rand w' = S (rand w)
    /\ umask w' = umask w.
Proof.
  intros Hs Hps Hfree. unfold writeTmpFile.
  set (name := joinPath _ _) in *.
  unfold mbind at 1, M_bind at 1.
  rewrite (os_CreateTemp_first p dir _ w pre suf Hs Hps Hfree).
  fold name. set (w1 := set_fdtab _ _).
  unfold mbind at 1, M_bind at 1.
  rewrite (file_Write_fresh p _ content w1 name (new_perm 384 w) Hs).
  2:{ subst w1. cbn. by rewrite lookup_insert_eq. }
  2:{ subst w1. cbn. by rewrite lookup_insert_eq. }
  set (w2 := set_fs _ _).
  unfold mbind, M_bind, mret, M_ret.
  rewrite (file_Close_open p _ w2 {| fd_path := name; fd_off := (0 + length content)%nat |} Hs).
  2:{ subst w2. cbn. by rewrite lookup_insert_eq. }
  eexists. split; [reflexivity|]. subst w2 w1. cbn.
  split; [by rewrite insert_insert_eq|].
  split; [|done].
  rewrite insert_insert_eq, delete_insert_eq. apply delete_id, next_fd_free.
Qed.

Lemma os_Rename_file src dst w c pm :
  script w = [] -> fs w !! src = Some (NFile c pm) ->
  (forall dm, fs w !! dst <> Some (NDir dm)) ->
  os_Rename src dst w
  = (None, set_fs (<[dst := NFile c pm]> (delete src (fs w))) w).
Proof.
  intros Hs Hsrc Hdst. unfold os_Rename. os_unfold.
  rewrite next_fault_nil, advance_nil by done. cbn [fault_errno].
  rewrite Hsrc. destruct (fs w !! dst) as [[| |]|] eqn:E; try done.
  by destruct (Hdst perm).
Qed.

Lemma WriteAtomic_first p dir prefix file content perm w pre suf :
  script w = [] ->
  prefixAndSuffix (if negb (Contains prefix "*") then prefix ++ "_*" else prefix)
  = Ok (pre, suf) ->
  fs w !! joinPath (if String.eqb dir "" then os_TempDir p else dir)
            (pre ++ Itoa (Z.of_nat (rand w)) ++ suf) = None ->
  (forall dm, fs w !! file <> Some (NDir dm)) ->
  exists w',
    WriteAtomic p dir prefix file content perm w = (None, w')
    /\ fs w' = <[file := NFile content (Z.land perm ModePerm)]> (fs w)
    /\ fdtab w' = fdtab w /\ script w' = [] /\ rand w' = S (rand w).
Proof.
  intros Hs Hps Hfree Hdir.
  destruct (writeTmpFile_first p dir prefix content w pre suf Hs Hps Hfree)
    as (w1 & Hw & Hfs1 & Hfd1 & Hs1 & Hr1 & _).
  set (tmp := joinPath _ _) in *.
  unfold WriteAtomic. unfold mbind at 1, M_bind at 1. rewrite Hw.
  unfold mbind at 1, M_bind at 1.
  rewrite (os_Chmod_file tmp perm w1 content (new_perm 384 w) Hs1)
    by (rewrite Hfs1; apply lookup_insert_eq).
  set (w2 := set_fs _ w1).
  rewrite Rename_same_device by (subst w2; cbn; rewrite Hs1; constructor).
  rewrite (os_Rename_file tmp file w2 content (Z.land perm ModePerm)).
  2:{ subst w2. cbn. exact Hs1. }
  2:{ subst w2. cbn. apply lookup_insert_eq. }
  2:{ intros dm. subst w2. cbn. rewrite Hfs1, insert_insert_eq.
      destruct (decide (tmp = file)) as [<-|Hne].
      - by rewrite lookup_insert_eq.
      - rewrite lookup_insert_ne by done. apply Hdir. }
  eexists. split; [reflexivity|]. subst w2. cbn.
  rewrite Hfs1, insert_insert_eq, delete_insert_eq.
  split; [|done]. by rewrite delete_id.
Qed.

(** A prefix with a path separator is refused before any system call. *)
Lemma Contains_app_l s t c :
  Contains s (String c "") = true -> Contains (s ++ t) (String c "") = true.
Proof.
  induction s as [|a s IH]; [done|].
  change (String a s ++ t) with (String a (s ++ t)).
  cbn [Contains String.prefix].
  destruct (ascii_dec c a); [intros _; by destruct (s ++ t)|].
  cbn [orb]. exact IH.
Qed.

Lemma writeTmpFile_separator p dir prefix content w :
  Contains prefix "/" = true ->
  writeTmpFile p dir prefix content w
  = (Err (ErrPatternHasSeparator
            (if negb (Contains prefix "*") then prefix ++ "_*" else prefix)), w).
Proof.
  intros Hc. unfold writeTmpFile, os_CreateTemp, prefixAndSuffix.
  assert (Hp : Contains (if negb (Contains prefix "*") then prefix ++ "_*"
                         else prefix) "/" = true).
  { destruct (negb _); [by apply Contains_app_l|done]. }
  rewrite Hp. reflexivity.
Qed.

End AtomicWrite.

(* ===================================================================== *)
(** * Record locks: ranges and conflicts                                  *)
(* ===================================================================== *)

Section RecordLocks.
Open Scope string_scope.

Lemma flock_range_wf ft off size lo hi :
  flock_range ft off size = Some (lo, hi) ->
  (0 <= lo)%Z /\ le_end lo hi = true.
Proof.
  unfold flock_range.
  destruct (if (l_Whence ft =? 0)%Z then Some 0%Z
            else if (l_Whence ft =? 1)%Z then Some off
            else if (l_Whence ft =? 2)%Z then Some size else None) as [b|];
    [|done].
  destruct (Z.eqb_spec (l_Len ft) 0).
  - destruct (Z.ltb_spec (b + l_Start ft) 0); [done|].
    intros [= <- <-]. split; [lia|done].
  - destruct (Z.ltb_spec 0 (l_Len ft)).
    + destruct (Z.ltb_spec (b + l_Start ft) 0); [done|].
      intros [= <- <-]. split; [lia|]. cbn. apply Z.leb_le. lia.
    + destruct (Z.ltb_spec (b + l_Start ft + l_Len ft) 0); [done|].
      intros [= <- <-]. split; [lia|]. cbn. apply Z.leb_le. lia.
Qed.

(** A lock on the whole file overlaps every range. *)
Lemma overlaps_whole lo hi :
  (0 <= lo)%Z -> le_end lo hi = true -> overlaps 0 None lo hi = true.
Proof.
  intros Hlo Hle. unfold overlaps. cbn [le_end]. rewrite andb_true_r.
  destruct hi as [h|]; [|done]. cbn in *. apply Z.leb_le.
  apply Z.leb_le in Hle. lia.
Qed.

Lemma lock_excluded p path w r c pm exclusive blocking offset whence len :
  r ∈ locks w -> lk_path r = path -> lk_pid r <> pid p ->
  lk_excl r = true -> lk_lo r = 0%Z -> lk_hi r = None ->
  fs w !! path = Some (NFile c pm) ->
  (lock p exclusive blocking offset whence len (NewFcntlLockfile path) w).1.2
  <> Returned None.
Proof.
  intros Hin Hpath Hpid Hex Hlo Hhi Hfile.
  unfold lock, NewFcntlLockfile, os_OpenFile.
  unfold mbind, M_bind, mret, M_ret, gets, modify, tick.
  cbn [Lockfile.file Path maintainFile ft set_file set_ft id].
  destruct (fault_errno (next_fault w)) as [e|]; [done|].
  assert (Hc : has_flag (Z.lor O_CREATE O_RDWR) O_CREATE = true) by reflexivity.
  assert (He : has_flag (Z.lor O_CREATE O_RDWR) O_EXCL = false) by reflexivity.
  assert (Ht : has_flag (Z.lor O_CREATE O_RDWR) O_TRUNC = false) by reflexivity.
  rewrite Hc, He, Ht. cbn [andb fs advance set_script].
  rewrite (resolve_file _ _ _ _ Hfile). unfold open_fd.
  cbn [Lockfile.file Path maintainFile ft set_file set_ft File_Fd f_fd].
  unfold syscall_FcntlFlock, mbind, M_bind, mret, M_ret, gets, modify, tick.
  cbn [id fdtab set_fdtab]. rewrite lookup_insert_eq.
  set (lk := {| l_Type := _ |}).
  assert (Hfail : forall w0, (let (l0, w') := close_file p
             {| Path := path;
                Lockfile.file := Some {| f_name := path;
                   f_fd := free_fd (size (fdtab w)) (fdtab w) (pid p) 3 |};
                maintainFile := true; ft := Some lk |} w0 in
            (l0, Returned (Some ErrFailedToLock), w')).1.2 <> Returned None).
  { intros w0. by destruct (close_file _ _ _) as [? ?]. }
  destruct (fault_errno (next_fault _)) as [e|]; [apply Hfail|].
  cbn [fd_path fd_off].
  destruct (flock_range _ _ _) as [[lo hi]|] eqn:Hr; [|apply Hfail].
  apply flock_range_wf in Hr as [Hlo0 Hle].
  assert (Hty : (l_Type lk =? F_UNLCK)%Z = false) by (by destruct exclusive).
  assert (Hty2 : ((l_Type lk =? F_RDLCK) || (l_Type lk =? F_WRLCK))%Z = true)
    by (by destruct exclusive).
  assert (Hcmd : ((if blocking then F_SETLKW else F_SETLK) =? F_GETLK)%Z = false)
    by (by destruct blocking).
  assert (Hcmd2 : (((if blocking then F_SETLKW else F_SETLK) =? F_SETLK)
                   || ((if blocking then F_SETLKW else F_SETLK) =? F_SETLKW))%Z = true)
    by (by destruct blocking).
  rewrite Hcmd, Hcmd2, Hty, Hty2.
  cbn [locks advance set_script set_fdtab].
  destruct (find_conflict p path (l_Type lk =? F_WRLCK)%Z lo hi (locks w) r Hin Hpath
              Hpid) as [r' ->].
  { by rewrite Hex, orb_true_r. }
  { rewrite Hlo, Hhi. by apply overlaps_whole. }
  destruct blocking; [done|]. apply Hfail.
Qed.


Lemma FcntlFlock_set p fd path off w ft lo hi :
  fdtab w !! (pid p, fd) = Some {| fd_path := path; fd_off := off |} ->
  script w = [] ->
  flock_range ft (Z.of_nat off) (file_size (fs w) path) = Some (lo, hi) ->
  ((l_Type ft =? F_RDLCK) || (l_Type ft =? F_WRLCK))%Z = true ->
  syscall_FcntlFlock p fd F_SETLK ft w
  = match conflict p path (l_Type ft =? F_WRLCK)%Z lo hi (locks w) with
    | Some _ => (Returned (ft, Some (SyscallError EAGAIN)), w)
    | None =>
        (Returned (ft, None),
         set_locks (relock p path lo hi
                      [ {| lk_path := path; lk_pid := pid p;
                           lk_excl := (l_Type ft =? F_WRLCK)%Z;
                           lk_lo := lo; lk_hi := hi |} ] (locks w)) w)
    end.
Proof.
  intros Hfd Hs Hr Hty. unfold syscall_FcntlFlock.
  unfold mbind, M_bind, mret, M_ret, gets, modify. cbn [id].
  rewrite Hfd. rewrite (tick_nil w Hs). cbn beta iota. cbn [fd_path fd_off].
  rewrite Hr.
  change (F_SETLK =? F_GETLK)%Z with false.
  change ((F_SETLK =? F_SETLK)%Z || (F_SETLK =? F_SETLKW)%Z) with true.
  assert (Hu : (l_Type ft =? F_UNLCK)%Z = false).
  { apply orb_prop in Hty as [H|H]; apply Z.eqb_eq in H; by rewrite H. }
  rewrite Hu, Hty. cbn iota.
  by destruct (conflict _ _ _ _ _ _).
Qed.




End RecordLocks.

(* ===================================================================== *)
(** * The life of a lock handle                                           *)
(* ===================================================================== *)

Section HandleLife.
Open Scope string_scope.

Lemma syscall_FcntlFlock_fdtab p fd cmd lk w :
  fdtab (syscall_FcntlFlock p fd cmd lk w).2 = fdtab w.
Proof.
  unfold syscall_FcntlFlock. os_unfold. cbn [id].
  repeat (case_match; simplify_eq; cbn; try done).
Qed.

Lemma syscall_FcntlFlock_open p fd cmd lk w lk' :
  (syscall_FcntlFlock p fd cmd lk w).1 = Returned (lk', None) ->
  is_Some (fdtab w !! (pid p, fd)).
Proof.
  unfold syscall_FcntlFlock. os_unfold. cbn [id].
  destruct (fdtab w !! (pid p, fd)); [eauto|done].
Qed.

Lemma lock_opened p exclusive blocking offset whence len l w f w' :
  Lockfile.file l = None ->
  os_OpenFile p (Path l) (Z.lor O_CREATE O_RDWR) 438 w = (Ok f, w') ->
  lock p exclusive blocking offset whence len l w
  = lock p exclusive blocking offset whence len (set_file (Some f) l) w'.
Proof.
  intros Hf Ho. unfold lock. unfold mbind, M_bind, mret, M_ret.
  rewrite Hf, Ho. reflexivity.
Qed.

Lemma lock_open_failed p exclusive blocking offset whence len l w e w' :
  Lockfile.file l = None ->
  os_OpenFile p (Path l) (Z.lor O_CREATE O_RDWR) 438 w = (Err e, w') ->
  lock p exclusive blocking offset whence len l w = ((l, Returned (Some e)), w').
Proof.
  intros Hf Ho. unfold lock. unfold mbind, M_bind, mret, M_ret.
  rewrite Hf, Ho. reflexivity.
Qed.

Lemma lock_success_held p exclusive blocking offset whence len l w l1 w1 f :
  Lockfile.file l = Some f ->
  lock p exclusive blocking offset whence len l w = ((l1, Returned None), w1) ->
  Lockfile.file l1 = Some f
  /\ is_Some (fdtab w1 !! (pid p, f_fd f))
  /\ maintainFile l1 = maintainFile l /\ ft l1 <> None.
Proof.
  intros Hf. unfold lock. unfold mbind, M_bind, mret, M_ret.
  rewrite Hf. cbn [Lockfile.file set_ft]. rewrite Hf. cbn [File_Fd].
  destruct (syscall_FcntlFlock _ _ _ _ w) as [r w2] eqn:Hfc.
  pose proof (syscall_FcntlFlock_fdtab p (f_fd f)
                (if blocking then F_SETLKW else F_SETLK)
                {| l_Type := if exclusive then F_WRLCK else F_RDLCK;
                   l_Whence := int16 whence; l_Start := offset; l_Len := len;
                   l_Pid := int32 (pid p) |} w) as Ht.
  pose proof (syscall_FcntlFlock_open p (f_fd f)
                (if blocking then F_SETLKW else F_SETLK)
                {| l_Type := if exclusive then F_WRLCK else F_RDLCK;
                   l_Whence := int16 whence; l_Start := offset; l_Len := len;
                   l_Pid := int32 (pid p) |} w) as Ho.
  rewrite Hfc in Ht, Ho. cbn [fst snd] in Ht, Ho.
  destruct r as [[lk' [e|]]|].
  - destruct (maintainFile _); [destruct (close_file _ _ _)|]; intros [=].
  - intros [= <- <-]. cbn. rewrite Ht. split; [done|].
    split; [by eapply Ho|]. done.
  - intros [=].
Qed.

(** A lock call that obtains the lock leaves the file of the handle open. *)
Lemma lock_success_open p exclusive blocking offset whence len l w l1 w1 :
  lock p exclusive blocking offset whence len l w = ((l1, Returned None), w1) ->
  exists f, Lockfile.file l1 = Some f
            /\ is_Some (fdtab w1 !! (pid p, f_fd f))
            /\ maintainFile l1 = maintainFile l /\ ft l1 <> None.
Proof.
  destruct (Lockfile.file l) as [f|] eqn:Hf.
  - intros H. exists f. by eapply lock_success_held.
  - destruct (os_OpenFile p (Path l) (Z.lor O_CREATE O_RDWR) 438 w)
      as [[f|e] w'] eqn:Ho.
    + rewrite (lock_opened _ _ _ _ _ _ _ _ _ _ Hf Ho). intros H. exists f.
      by eapply (lock_success_held _ _ _ _ _ _ (set_file (Some f) l)).
    + rewrite (lock_open_failed _ _ _ _ _ _ _ _ _ _ Hf Ho). intros [=].
Qed.

(** [unlock] on an open handle that keeps its own file. *)
Lemma unlock_closes p offset whence len l w f d :
  Lockfile.file l = Some f -> fdtab w !! (pid p, f_fd f) = Some d ->
  maintainFile l = true -> ft l <> None ->
  exists l2 w2,
    unlock p offset whence len l w = (Normal l2, w2)
    /\ Lockfile.file l2 = Some {| f_name := f_name f; f_fd := -1 |}
    /\ fdtab w2 = delete (pid p, f_fd f) (fdtab w)
    /\ Forall (fun r => ¬ (lk_pid r = pid p ∧ lk_path r = fd_path d)) (locks w2).
Proof.
  intros Hf Hd Hm Hft. unfold unlock.
  destruct (ft l) as [ft0|]; [|done].
  unfold mbind, M_bind, mret, M_ret. cbn [Lockfile.file set_ft maintainFile].
  rewrite Hf, Hm. cbn [File_Fd].
  destruct (syscall_FcntlFlock _ _ _ _ w) as [r w1] eqn:Hfc.
  pose proof (syscall_FcntlFlock_fdtab p (f_fd f) F_SETLK
                {| l_Type := F_UNLCK; l_Whence := int16 whence;
                   l_Start := offset; l_Len := len; l_Pid := l_Pid ft0 |} w) as Ht.
  rewrite Hfc in Ht. cbn [snd] in Ht.
  unfold close_file. cbn [Lockfile.file set_ft]. rewrite Hf.
  unfold mbind, M_bind, mret, M_ret.
  unfold file_Close. os_unfold. rewrite Ht, Hd.
  eexists _, _. split; [reflexivity|]. cbn. rewrite Ht.
  split; [done|]. split; [done|].
  apply Forall_forall. intros rec Hr. by apply list_elem_of_filter in Hr as [Hr _].
Qed.

End HandleLife.

(* ===================================================================== *)
(** * Owner, and handles made from an open file                           *)
(* ===================================================================== *)

Section OwnerFacts.
Open Scope string_scope.

Lemma conflict_some p path excl lo hi ls r :
  conflict p path excl lo hi ls = Some r ->
  r ∈ ls /\ lk_path r = path /\ lk_pid r <> pid p.
Proof.
  unfold conflict. intros E. apply List.find_some in E as [Hin E].
  apply list_elem_of_In in Hin.
  apply andb_prop in E as [E _]. apply andb_prop in E as [E _].
  apply andb_prop in E as [Hp Hpid].
  apply String.eqb_eq in Hp. apply negb_true_iff, bool_decide_eq_false in Hpid.
  done.
Qed.

Lemma Owner_result p l w n :
  (Owner p l w).1 = Normal n ->
  n = (-1)%Z \/ exists r, r ∈ locks w /\ lk_pid r = n /\ lk_pid r <> pid p.
Proof.
  unfold Owner. destruct (ft l) as [ft0|]; [|done].
  unfold syscall_FcntlFlock. os_unfold. cbn [id].
  destruct (fdtab w !! _) as [d|]; cbn; [|intros [= <-]; by left].
  destruct (fault_errno (next_fault w)); cbn; [intros [= <-]; by left|].
  destruct (flock_range _ _ _) as [[lo hi]|]; cbn; [|intros [= <-]; by left].
  change (F_GETLK =? F_GETLK)%Z with true. cbn.
  destruct (conflict _ _ _ _ _ _) as [r|] eqn:Hc; cbn.
  - apply conflict_some in Hc as (Hin & _ & Hpid).
    destruct (lk_excl r); cbn; intros [= <-]; right; eauto.
  - intros [= <-]. by left.
Qed.

Lemma Owner_reads_only p l w :
  fs (Owner p l w).2 = fs w /\ locks (Owner p l w).2 = locks w
  /\ fdtab (Owner p l w).2 = fdtab w.
Proof.
  unfold Owner. destruct (ft l) as [ft0|]; [|done].
  unfold syscall_FcntlFlock. os_unfold. cbn [id].
  repeat (case_match; simplify_eq; cbn; try done).
Qed.

Lemma FcntlFlock_get p fd path off w ft lo hi :
  fdtab w !! (pid p, fd) = Some {| fd_path := path; fd_off := off |} ->
  script w = [] ->
  flock_range ft (Z.of_nat off) (file_size (fs w) path) = Some (lo, hi) ->
  syscall_FcntlFlock p fd F_GETLK ft w
  = (Returned
       (match conflict p path (l_Type ft =? F_WRLCK)%Z lo hi (locks w) with
        | Some r =>
            ({| l_Type := if lk_excl r then F_WRLCK else F_RDLCK;
                l_Whence := 0; l_Start := lk_lo r;
                l_Len := match lk_hi r with
                         | Some h => (h - lk_lo r + 1)%Z
                         | None => 0%Z
                         end;
                l_Pid := lk_pid r |}, None)
        | None =>
            ({| l_Type := F_UNLCK; l_Whence := l_Whence ft;
                l_Start := l_Start ft; l_Len := l_Len ft;
                l_Pid := l_Pid ft |}, None)
        end), w).
Proof.
  intros Hfd Hs Hr. unfold syscall_FcntlFlock.
  unfold mbind, M_bind, mret, M_ret, gets, modify. cbn [id].
  rewrite Hfd. rewrite (tick_nil w Hs). cbn beta iota. cbn [fd_path fd_off].
  rewrite Hr. reflexivity.
Qed.

Lemma Owner_after_failed_LockWrite p f w path off r :
  fdtab w !! (pid p, f_fd f) = Some {| fd_path := path; fd_off := off |} ->
  script w = [] ->
  r ∈ locks w -> lk_path r = path -> lk_pid r <> pid p ->
  lk_lo r = 0%Z -> lk_hi r = None ->
  exists l' r',
    LockWrite p (NewFcntlLockfileFromFile f) w
    = ((l', Returned (Some ErrFailedToLock)), w)
    /\ Lockfile.file l' = Some f
    /\ r' ∈ locks w /\ lk_path r' = path /\ lk_pid r' <> pid p
    /\ Owner p l' w = (Normal (lk_pid r'), w).
Proof.
  intros Hfd Hs Hin Hpath Hpid Hlo Hhi.
  destruct (find_conflict p path true 0 None (locks w) r Hin Hpath Hpid eq_refl)
    as [r' Hc].
  { unfold overlaps. by rewrite Hlo, Hhi. }
  destruct (conflict_some _ _ _ _ _ _ _ Hc) as (Hin' & Hpath' & Hpid').
  unfold LockWrite, lock, NewFcntlLockfileFromFile.
  unfold mbind, M_bind, mret, M_ret.
  cbn [Lockfile.file Path maintainFile ft set_file set_ft File_Fd].
  set (lk := {| l_Type := F_WRLCK |}).
  rewrite (FcntlFlock_set p (f_fd f) path off w lk 0 None Hfd Hs eq_refl eq_refl).
  change (l_Type lk =? F_WRLCK)%Z with true. rewrite Hc.
  eexists _, r'. split; [reflexivity|]. cbn [Lockfile.file].
  repeat (split; [done|]).
  unfold Owner. unfold mbind, M_bind, mret, M_ret.
  cbn [ft Lockfile.file File_Fd set_ft].
  rewrite (FcntlFlock_get p (f_fd f) path off w lk 0 None Hfd Hs eq_refl).
  change (l_Type lk =? F_WRLCK)%Z with true. rewrite Hc.
  cbn [l_Type l_Pid]. by destruct (lk_excl r').
Qed.

(** The file of a handle made from an open file stays open. *)
Lemma lock_keeps_given_file p exclusive blocking offset whence len l w f :
  maintainFile l = false -> Lockfile.file l = Some f ->
  let r := lock p exclusive blocking offset whence len l w in
  fdtab r.2 = fdtab w /\ Lockfile.file r.1.1 = Some f
  /\ maintainFile r.1.1 = false.
Proof.
  intros Hm Hf. unfold lock. unfold mbind, M_bind, mret, M_ret.
  rewrite Hf. cbn [Lockfile.file set_ft maintainFile]. rewrite Hf, Hm.
  cbn [File_Fd].
  pose proof (syscall_FcntlFlock_fdtab p (f_fd f)
                (if blocking then F_SETLKW else F_SETLK)
                {| l_Type := if exclusive then F_WRLCK else F_RDLCK;
                   l_Whence := int16 whence; l_Start := offset; l_Len := len;
                   l_Pid := int32 (pid p) |} w) as Ht.
  destruct (syscall_FcntlFlock _ _ _ _ w) as [[[lk' [e|]]|] w2]; cbn in *; done.
Qed.

Lemma unlock_keeps_given_file p offset whence len l w f :
  maintainFile l = false -> Lockfile.file l = Some f ->
  let r := unlock p offset whence len l w in
  fdtab r.2 = fdtab w
  /\ (forall l', r.1 = Normal l' ->
       Lockfile.file l' = Some f /\ maintainFile l' = false).
Proof.
  intros Hm Hf. unfold unlock. destruct (ft l) as [ft0|]; [|done].
  unfold mbind, M_bind, mret, M_ret.
  cbn [Lockfile.file set_ft maintainFile]. rewrite Hf, Hm. cbn [File_Fd].
  pose proof (syscall_FcntlFlock_fdtab p (f_fd f) F_SETLK
                {| l_Type := F_UNLCK; l_Whence := int16 whence;
                   l_Start := offset; l_Len := len; l_Pid := l_Pid ft0 |} w) as Ht.
  destruct (syscall_FcntlFlock _ _ _ _ w) as [r w2]; cbn in *.
  split; [done|]. by intros l' [= <-].
Qed.

Lemma int16_wrap z k : int16 (z + k * 65536) = int16 z.
Proof.
  unfold int16. change (2 ^ 16)%Z with 65536%Z.
  replace (z + k * 65536 + 2 ^ 15)%Z with (z + 2 ^ 15 + k * 65536)%Z by lia.
  by rewrite Z_mod_plus_full.
Qed.

End OwnerFacts.

(* ===================================================================== *)
(** * Descriptors are closed again                                        *)
(* ===================================================================== *)

Section DescriptorHygiene.
Open Scope string_scope.

#[local] Instance same_fdtab_preorder : PreOrder same_fdtab.
Proof.
  split; [by intros w|]. intros a b c H1 H2. unfold same_fdtab in *. congruence.
Qed.

Ltac fdtab_same :=
  intros w; unfold same_fdtab; os_unfold; cbn [id];
  repeat (case_match; simplify_eq; cbn; try done).

Lemma os_Stat_fdtab name : keeps same_fdtab (os_Stat name).
Proof. unfold os_Stat. fdtab_same. Qed.
Lemma os_Chmod_fdtab name mode : keeps same_fdtab (os_Chmod name mode).
Proof. unfold os_Chmod. fdtab_same. Qed.
Lemma os_Remove_fdtab name : keeps same_fdtab (os_Remove name).
Proof. unfold os_Remove. fdtab_same. Qed.
Lemma os_RemoveAll_fdtab name : keeps same_fdtab (os_RemoveAll name).
Proof. unfold os_RemoveAll. fdtab_same. Qed.
Lemma os_Rename_fdtab a b : keeps same_fdtab (os_Rename a b).
Proof. unfold os_Rename. fdtab_same. Qed.
Lemma os_MkdirAll_fdtab a b : keeps same_fdtab (os_MkdirAll a b).
Proof. unfold os_MkdirAll. fdtab_same. Qed.
Lemma os_ReadDir_fdtab a : keeps same_fdtab (os_ReadDir a).
Proof. unfold os_ReadDir. fdtab_same. Qed.
Lemma de_Info_fdtab a b : keeps same_fdtab (de_Info a b).
Proof. unfold de_Info. fdtab_same. Qed.
Lemma os_ReadFile_fdtab a : keeps same_fdtab (os_ReadFile a).
Proof. unfold os_ReadFile. fdtab_same. Qed.
Lemma net_Listen_fdtab a : keeps same_fdtab (net_Listen a).
Proof. unfold net_Listen. fdtab_same. Qed.
Lemma file_Sync_fdtab p f : keeps same_fdtab (file_Sync p f).
Proof. unfold file_Sync. fdtab_same. Qed.
Lemma FcntlFlock_fdtab p fd cmd lk :
  keeps same_fdtab (syscall_FcntlFlock p fd cmd lk).
Proof. intros w. apply syscall_FcntlFlock_fdtab. Qed.

Lemma os_OpenFile_opens p name flag perm w r w' :
  os_OpenFile p name flag perm w = (r, w') ->
  match r with
  | Ok f => fdtab w !! (pid p, f_fd f) = None
            /\ exists d, fdtab w' = <[(pid p, f_fd f) := d]> (fdtab w)
  | Err _ => fdtab w' = fdtab w
  end.
Proof.
  pose proof (next_fd_free p w) as Hfree. unfold next_fd in Hfree.
  unfold os_OpenFile, open_fd. os_unfold. cbn [id].
  repeat (case_match; simplify_eq; cbn; try done);
    intros [= <- <-]; cbn; try done;
    (split; [exact Hfree|eexists; reflexivity]).
Qed.

Lemma os_CreateTemp_opens p dir pattern w r w' :
  os_CreateTemp p dir pattern w = (r, w') ->
  match r with
  | Ok f => fdtab w !! (pid p, f_fd f) = None
            /\ exists d, fdtab w' = <[(pid p, f_fd f) := d]> (fdtab w)
  | Err _ => fdtab w' = fdtab w
  end.
Proof.
  pose proof (next_fd_free p w) as Hfree. unfold next_fd in Hfree.
  unfold os_CreateTemp, open_fd. generalize max_tries. intros n.
  os_unfold. cbn [id].
  repeat (case_match; simplify_eq; cbn; try done);
    intros [= <- <-]; cbn; try done;
    (split; [exact Hfree|eexists; reflexivity]).
Qed.

Lemma put_fdtab p fd data w :
  delete (pid p, fd) (fdtab (put p fd data w).2) = delete (pid p, fd) (fdtab w).
Proof.
  unfold put. os_unfold. cbn [id].
  repeat (case_match; simplify_eq; cbn; try done); by rewrite delete_insert_eq.
Qed.

Lemma file_Write_fdtab p f data w :
  delete (pid p, f_fd f) (fdtab (file_Write p f data w).2)
  = delete (pid p, f_fd f) (fdtab w).
Proof.
  unfold file_Write. unfold mbind at 1, M_bind at 1, gets at 1.
  destruct (fdtab w !! _); [|done].
  unfold mbind at 1, M_bind at 1, tick_io.
  destruct (next_fault w); unfold mbind, M_bind, mret, M_ret.
  - pose proof (put_fdtab p (f_fd f) data (advance w)) as H.
    by destruct (put _ _ _ _).
  - done.
  - pose proof (put_fdtab p (f_fd f) (take n data) (advance w)) as H.
    by destruct (put _ _ _ _).
Qed.

Lemma io_Copy_fdtab p dst src w :
  delete (pid p, f_fd dst) (fdtab (io_Copy p dst src w).2)
  = delete (pid p, f_fd dst) (fdtab w).
Proof.
  unfold io_Copy. unfold mbind at 1, M_bind at 1, gets at 1. cbn [id].
  destruct (fdtab w !! (pid p, f_fd src)) as [s|]; [|done].
  destruct (fdtab w !! (pid p, f_fd dst)) as [d|]; [|done].
  destruct (fs w !! fd_path s) as [[c pm|pm|t]|]; try done;
    unfold mbind at 1, M_bind at 1, tick_io;
    destruct (next_fault w); unfold mbind, M_bind, mret, M_ret; try done;
    match goal with
    | |- context [put p ?fd ?data ?w0] =>
        pose proof (put_fdtab p fd data w0) as H; by destruct (put _ _ _ _)
    end.
Qed.

Lemma file_Close_fdtab p f w :
  fdtab (file_Close p f w).2 = delete (pid p, f_fd f) (fdtab w).
Proof.
  unfold file_Close. os_unfold.
  destruct (fdtab w !! _) eqn:E; cbn; [done|]. by rewrite delete_id.
Qed.

#[local] Hint Resolve os_Stat_fdtab os_Chmod_fdtab os_Remove_fdtab
  os_RemoveAll_fdtab os_Rename_fdtab os_MkdirAll_fdtab os_ReadDir_fdtab
  de_Info_fdtab os_ReadFile_fdtab net_Listen_fdtab file_Sync_fdtab
  FcntlFlock_fdtab : frame.

Lemma fdtab_restore (t t1 t2 tX : gmap (Z * Z) OpenFD) k1 k2 d1 d2 :
  t !! k1 = None -> t1 = <[k1 := d1]> t ->
  t1 !! k2 = None -> t2 = <[k2 := d2]> t1 ->
  delete k2 tX = delete k2 t2 ->
  delete k1 (delete k2 tX) = t.
Proof.
  intros H1 -> H2 -> ->.
  rewrite delete_insert_eq, (delete_id _ k2) by done.
  rewrite delete_insert_eq. by apply delete_id.
Qed.

Ltac close_step :=
  match goal with
  | |- context [file_Close ?p ?f ?w] =>
      let H := fresh "Hc" in
      pose proof (file_Close_fdtab p f w) as H;
      destruct (file_Close p f w) as [[? ?] ?]; cbn [snd] in H
  end.

Lemma CopyFile_fdtab p src dst : keeps same_fdtab (CopyFile p src dst).
Proof.
  intros w. unfold same_fdtab, CopyFile, os_Open, os_Create.
  unfold mbind at 1, M_bind at 1.
  destruct (os_OpenFile p src O_RDONLY 0 w) as [[input|e] w1] eqn:H1;
    apply os_OpenFile_opens in H1; [|done].
  destruct H1 as (Hf1 & d1 & Ht1).
  unfold mbind at 1, M_bind at 1. unfold mbind at 1, M_bind at 1.
  destruct (os_OpenFile p dst _ 438 w1) as [[output|e] w2] eqn:H2;
    apply os_OpenFile_opens in H2.
  - destruct H2 as (Hf2 & d2 & Ht2).
    unfold mbind at 1, M_bind at 1. unfold mbind at 1, M_bind at 1.
    pose proof (io_Copy_fdtab p output input w2) as H3.
    destruct (io_Copy p output input w2) as [r3 w3]. cbn [snd] in H3.
    destruct r3 as [n|e].
    + unfold mbind at 1, M_bind at 1.
      pose proof (file_Sync_fdtab p output w3) as H4. unfold same_fdtab in H4.
      destruct (file_Sync p output w3) as [[e|] w4]; cbn [snd] in H4.
      * unfold mbind, M_bind, mret, M_ret. close_step. close_step.
        cbn [snd]. rewrite Hc0, Hc.
        eapply fdtab_restore; [exact Hf1|exact Ht1|exact Hf2|exact Ht2|].
        by rewrite H4.
      * unfold mbind at 1, M_bind at 1.
        pose proof (os_Stat_fdtab src w4) as H5. unfold same_fdtab in H5.
        destruct (os_Stat src w4) as [[si|e] w5]; cbn [snd] in H5.
        -- pose proof (os_Chmod_fdtab dst (fi_Mode si) w5) as H6.
           unfold same_fdtab in H6.
           destruct (os_Chmod dst (fi_Mode si) w5) as [e6 w6]. cbn [snd] in H6.
           unfold mbind, M_bind, mret, M_ret. close_step. close_step.
           cbn [snd]. rewrite Hc0, Hc.
           eapply fdtab_restore; [exact Hf1|exact Ht1|exact Hf2|exact Ht2|].
           by rewrite H6, H5, H4.
        -- unfold mbind, M_bind, mret, M_ret. close_step. close_step.
           cbn [snd]. rewrite Hc0, Hc.
           eapply fdtab_restore; [exact Hf1|exact Ht1|exact Hf2|exact Ht2|].
           by rewrite H5, H4.
    + unfold mbind, M_bind, mret, M_ret. close_step. close_step.
      cbn [snd]. rewrite Hc0, Hc.
      eapply fdtab_restore; [exact Hf1|exact Ht1|exact Hf2|exact Ht2|exact H3].
  - unfold mbind, M_bind, mret, M_ret. close_step.
    cbn [snd]. rewrite Hc, H2, Ht1, delete_insert_eq. by apply delete_id.
Qed.

Lemma writeTmpFile_fdtab p dir prefix content :
  keeps same_fdtab (writeTmpFile p dir prefix content).
Proof.
  intros w. unfold same_fdtab, writeTmpFile.
  unfold mbind at 1, M_bind at 1.
  destruct (os_CreateTemp p dir _ w) as [[f|e] w1] eqn:H1;
    apply os_CreateTemp_opens in H1; [|done].
  destruct H1 as (Hf1 & d1 & Ht1).
  unfold mbind at 1, M_bind at 1.
  pose proof (file_Write_fdtab p f content w1) as H2.
  destruct (file_Write p f content w1) as [[n|e] w2]; cbn [snd] in H2.
  - unfold mbind, M_bind, mret, M_ret. close_step. cbn [snd].
    rewrite Hc, H2, Ht1, delete_insert_eq. by apply delete_id.
  - unfold mbind, M_bind, mret, M_ret.
    pose proof (os_Remove_fdtab (f_name f) w2) as H3. unfold same_fdtab in H3.
    destruct (os_Remove (f_name f) w2) as [r3 w3]. cbn [snd] in H3.
    close_step. cbn [snd].
    rewrite Hc, H3, H2, Ht1, delete_insert_eq. by apply delete_id.
Qed.

#[local] Hint Resolve CopyFile_fdtab writeTmpFile_fdtab : frame.

Lemma CopyDir_at_fdtab p depth : forall src dst,
  keeps same_fdtab (CopyDir_at depth p src dst).
Proof.
  induction depth as [|depth IH]; intros src dst; cbn [CopyDir_at]; keeps_auto.
  match goal with |- keeps _ (_ ?l) => induction l as [|entry rest IHl] end;
    keeps_auto.
Qed.

Lemma CopyDir_fdtab p src dst : keeps same_fdtab (CopyDir p src dst).
Proof. apply CopyDir_at_fdtab. Qed.
#[local] Hint Resolve CopyDir_fdtab : frame.

Lemma Rename_fdtab p src dst : keeps same_fdtab (Rename p src dst).
Proof. unfold Rename. keeps_auto. Qed.
#[local] Hint Resolve Rename_fdtab : frame.

Lemma WriteAtomic_fdtab p dir prefix file content perm :
  keeps same_fdtab (WriteAtomic p dir prefix file content perm).
Proof. unfold WriteAtomic. keeps_auto. Qed.

Lemma WriteAtomicTmpDir_fdtab p prefix file content perm :
  keeps same_fdtab (WriteAtomicTmpDir p prefix file content perm).
Proof. apply WriteAtomic_fdtab. Qed.
#[local] Hint Resolve WriteAtomicTmpDir_fdtab : frame.

Lemma WriteAtomicTmp_fdtab p prefix content :
  keeps same_fdtab (WriteAtomicTmp p prefix content).
Proof. unfold WriteAtomicTmp. keeps_auto. Qed.

Lemma hostname_fdtab cd p g rw : keeps same_fdtab (hostname cd p g rw).
Proof. unfold hostname. keeps_auto. Qed.

Lemma createFile_fdtab cd p g name : keeps same_fdtab (createFile cd p g name).
Proof. unfold createFile, initFile. keeps_auto. Qed.

End DescriptorHygiene.

(* ===================================================================== *)
(** * The ways out of main                                                *)
(* ===================================================================== *)

Section MainPaths.
Import Json.
Open Scope string_scope.

Lemma os_Exit_drops p w :
  Forall (fun r => lk_pid r <> pid p) (locks (os_Exit p w).2)
  /\ fs (os_Exit p w).2 = fs w.
Proof.
  unfold os_Exit. os_unfold. cbn. split; [|done].
  apply Forall_forall. intros r Hr. by apply list_elem_of_filter in Hr as [Hr _].
Qed.

Lemma main_empty_flag cd p file listen w :
  file = "" \/ listen = "" ->
  (main cd p file listen w).1 = Exit 1
  /\ extends_fs w (main cd p file listen w).2
  /\ Forall (fun r => lk_pid r <> pid p) (locks (main cd p file listen w).2).
Proof.
  intros Hflag.
  destruct (main cd p file listen w) as [out w'] eqn:Hm. cbn [fst snd].
  revert Hm. unfold main, LockWrite. unfold mbind at 1, M_bind at 1.
  pose proof (lock_returns p true 0 SeekStart 0 (NewFcntlLockfile (lockFile p)) w) as Hret.
  pose proof (lock_extends p true false 0 SeekStart 0 (NewFcntlLockfile (lockFile p)) w)
    as Hext.
  destruct (lock p true false 0 SeekStart 0 _ w) as [[fl r] w1].
  cbn [fst snd] in Hret, Hext.
  assert (Hexit : forall w0, extends_fs w w0 ->
            (os_Exit p;; mret (Exit 1)) w0 = (out, w') ->
            out = Exit 1 /\ extends_fs w w'
            /\ Forall (fun r => lk_pid r <> pid p) (locks w')).
  { intros w0 H0. unfold mbind, M_bind, mret, M_ret.
    destruct (os_Exit_drops p w0) as [Hl Hf].
    destruct (os_Exit p w0) as [[] w2]. cbn [fst snd] in *.
    intros [= <- <-].
    split; [done|]. split; [|done]. intros x Hx. rewrite Hf. by apply H0. }
  destruct r as [[e|]|]; [by apply Hexit| |done].
  cbn [listenAddr fileName].
  assert (Hb : String.eqb listen "" || String.eqb file "" = true).
  { destruct Hflag as [-> | ->]; [by rewrite orb_true_r|done]. }
  rewrite Hb. by apply Hexit.
Qed.

Lemma os_OpenFile_lock_spec p path w f w' :
  (fs w !! path = None \/ exists c pm, fs w !! path = Some (NFile c pm)) ->
  os_OpenFile p path (Z.lor O_CREATE O_RDWR) 438 w = (Ok f, w') ->
  fdtab w !! (pid p, f_fd f) = None
  /\ fdtab w' = <[(pid p, f_fd f) := {| fd_path := path; fd_off := 0 |}]> (fdtab w).
Proof.
  intros Hfile. pose proof (next_fd_free p w) as Hfree. unfold next_fd in Hfree.
  unfold os_OpenFile, open_fd. os_unfold. cbn [id].
  destruct (fault_errno (next_fault w)); [done|].
  change (has_flag (Z.lor O_CREATE O_RDWR) O_CREATE) with true.
  change (has_flag (Z.lor O_CREATE O_RDWR) O_EXCL) with false.
  change (has_flag (Z.lor O_CREATE O_RDWR) O_TRUNC) with false.
  cbn [andb fs advance set_script].
  destruct Hfile as [Hn|(c & pm & Hc)].
  - rewrite (resolve_absent _ _ Hn). cbn. by intros [= <- <-].
  - rewrite (resolve_file _ _ _ _ Hc). cbn. by intros [= <- <-].
Qed.

Lemma lock_success_fdtab p exclusive blocking offset whence len l w l1 w1 f :
  Lockfile.file l = Some f ->
  lock p exclusive blocking offset whence len l w = ((l1, Returned None), w1) ->
  fdtab w1 = fdtab w.
Proof.
  intros Hf. unfold lock. unfold mbind, M_bind, mret, M_ret.
  rewrite Hf. cbn [Lockfile.file set_ft]. rewrite Hf. cbn [File_Fd].
  pose proof (syscall_FcntlFlock_fdtab p (f_fd f)
                (if blocking then F_SETLKW else F_SETLK)
                {| l_Type := if exclusive then F_WRLCK else F_RDLCK;
                   l_Whence := int16 whence; l_Start := offset; l_Len := len;
                   l_Pid := int32 (pid p) |} w) as Ht.
  destruct (syscall_FcntlFlock _ _ _ _ w) as [[[lk' [e|]]|] w2]; cbn [snd] in Ht.
  - destruct (maintainFile _); [destruct (close_file _ _ _)|]; intros [=].
  - by intros [= <- <-].
  - intros [=].
Qed.

Lemma lock_new_handle p exclusive blocking offset whence len path w l1 w1 :
  (fs w !! path = None \/ exists c pm, fs w !! path = Some (NFile c pm)) ->
  lock p exclusive blocking offset whence len (NewFcntlLockfile path) w
  = ((l1, Returned None), w1) ->
  exists f, Lockfile.file l1 = Some f /\ maintainFile l1 = true /\ ft l1 <> None
            /\ fdtab w !! (pid p, f_fd f) = None
            /\ fdtab w1 = <[(pid p, f_fd f) := {| fd_path := path; fd_off := 0 |}]>
                            (fdtab w).
Proof.
  intros Hfile.
  destruct (os_OpenFile p path (Z.lor O_CREATE O_RDWR) 438 w)
    as [[f|e] w'] eqn:Ho.
  - rewrite (lock_opened p _ _ _ _ _ (NewFcntlLockfile path) w f w' eq_refl Ho).
    intros H. exists f.
    destruct (lock_success_held p exclusive blocking offset whence len
                (set_file (Some f) (NewFcntlLockfile path)) w' l1 w1 f eq_refl H)
      as (H1 & _ & H3 & H4).
    pose proof (lock_success_fdtab p exclusive blocking offset whence len
                  (set_file (Some f) (NewFcntlLockfile path)) w' l1 w1 f eq_refl H)
      as H5.
    destruct (os_OpenFile_lock_spec p path w f w' Hfile Ho) as [H6 H7].
    repeat split; try done. by rewrite H5.
  - rewrite (lock_open_failed p _ _ _ _ _ (NewFcntlLockfile path) w e w' eq_refl Ho).
    intros [=].
Qed.

Lemma main_return cd p file listen w w' :
  (fs w !! lockFile p = None \/ exists c pm, fs w !! lockFile p = Some (NFile c pm)) ->
  main cd p file listen w = (Return, w') ->
  fdtab w' = fdtab w
  /\ Forall (fun r => ¬ (lk_pid r = pid p ∧ lk_path r = lockFile p)) (locks w').
Proof.
  intros Hfile. unfold main, LockWrite. unfold mbind at 1, M_bind at 1.
  destruct (lock p true false 0 SeekStart 0 _ w) as [[fl r] w1] eqn:Hl.
  assert (Hexit : forall w0, (os_Exit p;; mret (Exit 1)) w0 <> (Return, w')).
  { intros w0. unfold mbind, M_bind, mret, M_ret.
    by destruct (os_Exit p w0) as [[] ?]. }
  destruct r as [[e|]|]; [intros H; by destruct (Hexit _ H)| |done].
  destruct (lock_new_handle _ _ _ _ _ _ _ _ _ _ Hfile Hl)
    as (f & Hf & Hm & Hft & Hfree & Ht1).
  cbn [listenAddr fileName number].
  destruct (_ || _); [intros H; by destruct (Hexit _ H)|].
  unfold mbind at 1, M_bind at 1.
  pose proof (createFile_fdtab cd p
                {| fileName := file; listenAddr := listen; number := zero |}
                file w1) as H2. unfold same_fdtab in H2.
  destruct (createFile _ _ _ _ w1) as [[e|] w2]; cbn [snd] in H2;
    [intros H; by destruct (Hexit _ H)|].
  unfold mbind at 1, M_bind at 1.
  pose proof (os_ReadFile_fdtab file w2) as H3. unfold same_fdtab in H3.
  destruct (os_ReadFile file w2) as [[content|e] w3]; cbn [snd] in H3;
    [|intros H; by destruct (Hexit _ H)].
  destruct (Unmarshal _ _ _) as [x|e]; [|intros H; by destruct (Hexit _ H)].
  unfold mbind at 1, M_bind at 1.
  match goal with |- context [net_Listen ?a w3] =>
    pose proof (net_Listen_fdtab a w3) as H4;
    destruct (net_Listen a w3) as [[e|] w4] end;
    unfold same_fdtab in H4; cbn [snd] in H4; [|done].
  unfold Unlock.
  destruct (unlock_closes p 0 SeekStart 0 fl w4 f
              {| fd_path := lockFile p; fd_off := 0 |} Hf) as (l2 & w5 & Hu & _ & Ht5 & Hl5);
    [|done|done|].
  { rewrite H4, H3, H2, Ht1. apply lookup_insert_eq. }
  unfold mbind, M_bind, mret, M_ret. rewrite Hu. intros [= <-].
  split; [|exact Hl5].
  rewrite Ht5, H4, H3, H2, Ht1, delete_insert_eq. by apply delete_id.
Qed.

End MainPaths.

(* ===================================================================== *)
(** * filepath.Clean on joined paths                                      *)
(* ===================================================================== *)

Section CleanFacts.
Import Filepath.
Open Scope string_scope.

Lemma split_nonempty s : split s <> [].
Proof.
  induction s as [|c s IH]; [done|]. cbn [split].
  destruct (split s); [done|]. by destruct (Ascii.eqb c "/").
Qed.

Lemma split_app_slash a b : split (a ++ "/" ++ b) = app (split a) (split b).
Proof.
  induction a as [|c a IH].
  - change ("" ++ "/" ++ b) with (String "/" b). cbn [split].
    destruct (split b) eqn:E; [by destruct (split_nonempty b)|]. done.
  - change (String c a ++ "/" ++ b) with (String c (a ++ "/" ++ b)).
    cbn [split]. rewrite IH.
    destruct (split a) as [|h t] eqn:E; [by destruct (split_nonempty a)|].
    cbn [app]. by destruct (Ascii.eqb c "/").
Qed.

Lemma Contains_slash_cons c s :
  Contains (String c s) "/" = Ascii.eqb c "/" || Contains s "/".
Proof.
  cbn [Contains String.prefix].
  destruct (ascii_dec "/" c) as [<-|Hne].
  - by destruct s.
  - destruct (Ascii.eqb_spec c "/"); [congruence|done].
Qed.

Lemma split_plain name : Contains name "/" = false -> split name = [name].
Proof.
  induction name as [|c s IH]; [done|].
  rewrite Contains_slash_cons. intros H. apply orb_false_elim in H as [Hc Hs].
  cbn [split]. rewrite (IH Hs), Hc. done.
Qed.

Lemma concat_snoc l name :
  String.concat "/" (app l [name])
  = match l with [] => name | _ => String.concat "/" l ++ "/" ++ name end.
Proof.
  induction l as [|a l IH]; [done|].
  destruct l as [|b l]; [done|].
  change (app (a :: b :: l) [name]) with (a :: app (b :: l) [name]).
  cbn [String.concat] in *. cbn [app] in IH |- *. rewrite IH.
  by rewrite <- !append_assoc_rev.
Qed.

Lemma push_plain rooted stack name :
  plain_name name -> push rooted stack name = name :: stack.
Proof.
  intros (H1 & H2 & H3 & _). unfold push.
  destruct (String.eqb_spec name ""); [done|].
  destruct (String.eqb_spec name "."); [done|].
  destruct (String.eqb_spec name ".."); [done|]. done.
Qed.

Lemma prefix_slash_app d t :
  d <> "" -> String.prefix "/" (d ++ t) = String.prefix "/" d.
Proof.
  destruct d as [|c d]; [done|]. intros _.
  change (String c d ++ t) with (String c (d ++ t)). cbn [String.prefix].
  destruct (ascii_dec "/" c); [|done].
  transitivity true; [by destruct (d ++ t)|by destruct d].
Qed.

Lemma Clean_join d name :
  plain_dir d -> plain_name name ->
  Clean (d ++ "/" ++ name) = d ++ "/" ++ name.
Proof.
  intros (Hc & Hdot & Hsuf) Hname.
  assert (Hd : d <> "") by (intros ->; discriminate Hc).
  unfold Clean in *. rewrite (prefix_slash_app d _ Hd).
  rewrite split_app_slash, (split_plain name) by apply Hname.
  rewrite fold_left_app. cbn [fold_left].
  rewrite push_plain by done. cbn [rev]. rewrite concat_snoc.
  set (st := fold_left _ (split d) []) in *.
  destruct (String.prefix "/" d) eqn:Hr.
  - destruct (rev st) as [|a l] eqn:E.
    + cbn in Hc. subst d. done.
    + by subst d.
  - destruct (rev st) as [|a l] eqn:E.
    + cbn in Hc. by subst d.
    + destruct (String.eqb_spec (String.concat "/" (a :: l)) "") as [He|He].
      * by subst d.
      * rewrite Hc.
        destruct (String.eqb_spec (d ++ "/" ++ name) ""); [|done].
        by destruct d.
Qed.

End CleanFacts.

(* ===================================================================== *)
(** * Listing a directory                                                 *)
(* ===================================================================== *)

Section Listing.
Open Scope string_scope.

Lemma string_prefix_app s t : String.prefix s (s ++ t) = true.
Proof.
  induction s as [|a s IH]; [by destruct t|].
  change (String a s ++ t) with (String a (s ++ t)). cbn [String.prefix].
  by destruct (ascii_dec a a).
Qed.

Lemma prefix_split a p :
  String.prefix a p = true -> p = a ++ string_drop (String.length a) p.
Proof.
  revert p. induction a as [|c a IH]; intros p; [done|].
  destruct p as [|c' p]; [done|]. cbn [String.prefix].
  destruct (ascii_dec c c') as [<-|]; [|done].
  intros H. cbn [String.length string_drop].
  change (String c a ++ string_drop (String.length a) p)
    with (String c (a ++ string_drop (String.length a) p)).
  by rewrite <- (IH p H).
Qed.

Lemma child_name_Some dir p c :
  child_name dir p = Some c <->
  p = below dir ++ c /\ c <> "" /\ Contains c "/" = false.
Proof.
  unfold child_name, under. split.
  - destruct (String.prefix (below dir) p) eqn:Hp; [|done].
    apply prefix_split in Hp.
    destruct (String.eqb_spec (string_drop (String.length (below dir)) p) "");
      [done|].
    destruct (Contains _ "/") eqn:Hc; [done|]. cbn [orb].
    intros [= <-]. done.
  - intros (-> & Hne & Hc). rewrite string_prefix_app, string_drop_app.
    destruct (String.eqb_spec c ""); [done|]. by rewrite Hc.
Qed.

Lemma children_elem m dir c n :
  (c, n) ∈ children m dir <->
  m !! (below dir ++ c) = Some n /\ c <> "" /\ Contains c "/" = false.
Proof.
  unfold children. rewrite list_elem_of_omap. split.
  - intros ([p n'] & Hin & Hf). apply elem_of_map_to_list in Hin.
    destruct (child_name dir p) as [c'|] eqn:E; [|done].
    cbn in Hf. injection Hf as <- <-.
    apply child_name_Some in E as (-> & H1 & H2). done.
  - intros (Hm & H1 & H2). exists (below dir ++ c, n). split.
    + by apply elem_of_map_to_list.
    + assert (E : child_name dir (below dir ++ c) = Some c)
        by (by apply child_name_Some).
      by rewrite E.
Qed.

Lemma entries_elem m dir e :
  e ∈ merge_sort entry_le
        ((fun '(c, n) => {| de_Name := c; de_node := n |}) <$> children m dir) <->
  m !! (below dir ++ de_Name e) = Some (de_node e)
  /\ de_Name e <> "" /\ Contains (de_Name e) "/" = false.
Proof.
  rewrite merge_sort_Permutation, list_elem_of_fmap. split.
  - intros ([c n] & -> & Hin). by apply children_elem in Hin.
  - intros H. exists (de_Name e, de_node e). split; [by destruct e|].
    by apply children_elem.
Qed.

Lemma below_plain d : plain_dir d -> below d = d ++ "/".
Proof. intros (_ & _ & H). unfold below. by rewrite H. Qed.

Lemma under_self d : plain_dir d -> under d d = false.
Proof.
  intros Hd. unfold under. rewrite (below_plain d Hd).
  destruct (String.prefix (d ++ "/") d) eqn:E; [|done].
  apply prefix_split in E. apply (f_equal String.length) in E.
  rewrite !length_append in E. cbn in E. lia.
Qed.

Lemma Join_plain d name :
  plain_dir d -> plain_name name ->
  Filepath.Join [d; name] = d ++ "/" ++ name.
Proof.
  intros Hd Hn. cbn [Filepath.Join].
  assert (d <> "") by (intros ->; by destruct Hd as [Hc _]).
  destruct (String.eqb_spec d ""); [done|].
  change (String.concat "/" [d; name]) with (d ++ "/" ++ name).
  by apply Clean_join.
Qed.

Lemma perm_not_symlink pm :
  Z.land pm ModePerm = pm -> (Z.land pm ModeSymlink =? 0)%Z = true.
Proof.
  intros H. apply Z.eqb_eq. rewrite <- H, <- Z.land_assoc.
  change (Z.land ModePerm ModeSymlink) with 0%Z. apply Z.land_0_r.
Qed.

End Listing.

(* ===================================================================== *)
(** * Temporary names, refused renames and whence                         *)
(* ===================================================================== *)

Section TempNames.
Open Scope string_scope.

Lemma under_joinPath dir x : under dir (joinPath dir x) = true.
Proof. unfold under, joinPath. apply string_prefix_app. Qed.

Lemma createTemp_try_under tries m dir pre suf r name r' :
  createTemp_try tries m dir pre suf r = Some (name, r') -> under dir name = true.
Proof.
  revert r. induction tries as [|tries IH]; intros r; cbn [createTemp_try]; [done|].
  destruct (m !! _); [apply IH|]. intros [= <- _]. apply under_joinPath.
Qed.

Lemma os_CreateTemp_under p dir pattern w f w' :
  os_CreateTemp p dir pattern w = (Ok f, w') ->
  under (if String.eqb dir "" then os_TempDir p else dir) (f_name f) = true.
Proof.
  unfold os_CreateTemp. destruct (prefixAndSuffix pattern) as [[pre suf]|e];
    [|done].
  generalize max_tries. intros n. os_unfold. unfold open_fd. cbn [id].
  destruct (fault_errno (next_fault w)); [done|].
  destruct (createTemp_try _ _ _ _ _ _) as [[name r]|] eqn:E; [|done].
  cbn. intros [= <- _]. cbn. by eapply createTemp_try_under.
Qed.

Lemma writeTmpFile_under p dir prefix content w tmp w' :
  writeTmpFile p dir prefix content w = (Ok tmp, w') ->
  under (if String.eqb dir "" then os_TempDir p else dir) tmp = true.
Proof.
  unfold writeTmpFile. unfold mbind at 1, M_bind at 1.
  destruct (os_CreateTemp p dir _ w) as [[f|e] w1] eqn:Hc; [|done].
  apply os_CreateTemp_under in Hc.
  unfold mbind, M_bind, mret, M_ret.
  destruct (file_Write _ _ _ _) as [[n|e] w2].
  - destruct (file_Close _ _ _). by intros [= <- _].
  - destruct (os_Remove _ _). by destruct (file_Close _ _ _).
Qed.

Lemma WriteAtomicTmp_spec p prefix content w r w' :
  WriteAtomicTmp p prefix content w = (r, w') ->
  fdtab w' = fdtab w
  /\ match r with
     | Ok tmp => fs w !! tmp = None /\ under (os_TempDir p) tmp = true
                 /\ fs w' = <[tmp := NFile content (new_perm 384 w)]> (fs w)
     | Err _ => extends_fs w w'
     end.
Proof.
  intros H. pose proof (WriteAtomicTmp_fdtab p prefix content w) as Hfd.
  rewrite H in Hfd. split; [exact Hfd|].
  revert H. unfold WriteAtomicTmp. unfold mbind, M_bind, mret, M_ret.
  destruct (writeTmpFile p (os_TempDir p) prefix content w) as [[tmp|e] w1] eqn:Hw;
    intros [= <- <-].
  - pose proof (writeTmpFile_under _ _ _ _ _ _ _ Hw) as Hu.
    apply writeTmpFile_spec in Hw as (_ & _ & _ & Hfree & Hfs & _).
    split; [done|]. split; [|done].
    revert Hu. unfold os_TempDir at 1.
    destruct (String.eqb_spec (if String.eqb (TMPDIR p) "" then "/tmp" else TMPDIR p) "");
      [|done].
    by destruct (os_TempDir_nonempty p).
  - apply writeTmpFile_spec in Hw as (_ & _ & _ & Hext & _). exact Hext.
Qed.

Lemma Rename_without_cross_device p src dst w :
  fault_errno (next_fault w) <> Some EXDEV ->
  Rename p src dst w = (None, (os_Rename src dst w).2).
Proof.
  intros Hx.
  destruct ((os_Rename src dst w).1) as [e|] eqn:He.
  - destruct (os_Rename_error _ _ _ _ He) as (en & -> & Hdev).
    apply (Rename_other_error p src dst w _ He).
    rewrite LinkError_cross_device. apply bool_decide_eq_false. intros ->.
    destruct (Hdev eq_refl) as (f & rest & Hs & Hf).
    apply Hx. unfold next_fault. by rewrite Hs.
  - unfold Rename, mbind, M_bind.
    destruct (os_Rename src dst w) as [r w1]. simpl in He. by subst r.
Qed.

Lemma os_Rename_refused src dst w :
  fs w !! src = None \/ (exists dm, fs w !! dst = Some (NDir dm)) ->
  is_Some (os_Rename src dst w).1 /\ fs (os_Rename src dst w).2 = fs w.
Proof.
  intros H. unfold os_Rename. os_unfold.
  destruct (fault_errno (next_fault w)); cbn; [eauto|].
  destruct H as [Hs|[dm Hd]].
  - rewrite Hs. cbn. eauto.
  - rewrite Hd. destruct (fs w !! src) as [[| |]|]; cbn; eauto.
Qed.

Lemma lock_whence_int16 p exclusive blocking offset whence len l w k :
  lock p exclusive blocking offset (whence + k * 65536) len l w
  = lock p exclusive blocking offset whence len l w.
Proof. unfold lock. by rewrite int16_wrap. Qed.

Lemma unlock_whence_int16 p offset whence len l w k :
  unlock p offset (whence + k * 65536) len l w = unlock p offset whence len l w.
Proof. unfold unlock. by rewrite int16_wrap. Qed.

End TempNames.

(* ===================================================================== *)
(** * CopyDir on a flat directory: the loop                               *)
(* ===================================================================== *)

Section FlatCopy.
Open Scope string_scope.

Lemma de_Info_ok dir e w :
  script w = [] -> de_Info dir e w = (Ok (info_of (de_node e)), w).
Proof.
  intros Hs. unfold de_Info, mbind, M_bind, mret, M_ret.
  by rewrite (tick_nil w Hs).
Qed.

Lemma flat_copy_child m src dst name c pmf :
  plain_dir dst -> plain_name name ->
  m !! (src ++ "/" ++ name) = Some (NFile c pmf) ->
  flat_copy m src dst (dst ++ "/" ++ name)
  = Some (NFile c (Z.land pmf ModePerm)).
Proof.
  intros Hd (Hne & _ & _ & Hc) Hm. unfold flat_copy.
  assert (E : child_name dst (dst ++ "/" ++ name) = Some name).
  { apply child_name_Some. rewrite (below_plain dst Hd).
    by rewrite <- append_assoc_rev. }
  by rewrite E, Hm.
Qed.

Lemma flat_copy_other m src dst name n :
  plain_dir dst -> plain_name name ->
  m !! (src ++ "/" ++ name) = Some n -> (forall c pmf, n <> NFile c pmf) ->
  flat_copy m src dst (dst ++ "/" ++ name) = None.
Proof.
  intros Hd (Hne & _ & _ & Hc) Hm Hn. unfold flat_copy.
  assert (E : child_name dst (dst ++ "/" ++ name) = Some name).
  { apply child_name_Some. rewrite (below_plain dst Hd).
    by rewrite <- append_assoc_rev. }
  rewrite E, Hm. destruct n; try done. by destruct (Hn content perm).
Qed.

Lemma under_child dst name : plain_dir dst -> under dst (dst ++ "/" ++ name) = true.
Proof.
  intros Hd. unfold under. rewrite (below_plain dst Hd).
  rewrite append_assoc_rev. apply string_prefix_app.
Qed.

Lemma CopyDir_flat_run p src dst w pm :
  script w = [] -> plain_dir src -> plain_dir dst ->
  fs w !! src = Some (NDir pm) ->
  (forall x, x = dst \/ under dst x = true -> fs w !! x = None) ->
  under src dst = false ->
  (forall name n, fs w !! (src ++ "/" ++ name) = Some n ->
     name <> "" -> Contains name "/" = false ->
     name <> "." /\ name <> ".." /\ (forall dm, n <> NDir dm)
     /\ (forall c pmf, n = NFile c pmf -> Z.land pmf ModePerm = pmf)) ->
  exists w',
    CopyDir p src dst w = (None, w')
    /\ fs w' !! dst = Some (NDir (new_perm (Z.lor ModeDir pm) w))
    /\ (forall x, under dst x = true -> fs w' !! x = flat_copy (fs w) src dst x)
    /\ (forall x, x <> dst -> under dst x = false -> fs w' !! x = fs w !! x)
    /\ fdtab w' = fdtab w /\ script w' = [].
Proof.
  intros Hs Hsrc Hdst Hdir Hfree Hout Hflat.
  pose proof Hsrc as (Hcs & _ & _). pose proof Hdst as (Hcd & _ & _).
  assert (Hdabs : fs w !! dst = None) by (apply Hfree; by left).
  unfold CopyDir. destruct PATH_MAX_succ as [k ->].
  cbn [CopyDir_at]. rewrite Hcs, Hcd.
  unfold mbind at 1, M_bind at 1.
  rewrite (os_Stat_dir _ w pm Hs Hdir). cbn [info_of fi_IsDir fi_Mode negb].
  unfold mbind at 1, M_bind at 1.
  rewrite (os_Stat_absent _ w Hs Hdabs).
  change (is_ErrNotExist _) with true. cbn [negb].
  unfold mbind at 1, M_bind at 1.
  rewrite (os_MkdirAll_absent _ _ w Hs Hdabs).
  set (m1 := <[dst := NDir (new_perm (Z.lor ModeDir pm) w)]> (fs w)).
  set (w1 := set_fs m1 w).
  unfold mbind at 1, M_bind at 1.
  assert (Hsrc1 : fs w1 !! src = Some (NDir pm)).
  { subst w1 m1. cbn. rewrite lookup_insert_ne; [done|]. congruence. }
  rewrite (os_ReadDir_dir _ w1 pm Hs Hsrc1).
  set (E := merge_sort _ _).
  (* what the entries of the listing are *)
  set (Q := fun e : DirEntry =>
              fs w !! (src ++ "/" ++ de_Name e) = Some (de_node e)
              /\ plain_name (de_Name e)
              /\ (forall dm, de_node e <> NDir dm)
              /\ (forall c pmf, de_node e = NFile c pmf -> Z.land pmf ModePerm = pmf)).
  assert (HE : forall e, e ∈ E -> Q e).
  { intros e He. apply entries_elem in He as (Hm & Hne & Hc).
    rewrite (below_plain src Hsrc), <- append_assoc_rev in Hm.
    subst w1 m1. cbn in Hm.
    assert (Hk : src ++ "/" ++ de_Name e <> dst).
    { intros Heq. unfold under in Hout. rewrite (below_plain src Hsrc) in Hout.
      rewrite <- Heq, append_assoc_rev, string_prefix_app in Hout. done. }
    rewrite lookup_insert_ne in Hm by done.
    destruct (Hflat _ _ Hm Hne Hc) as (H1 & H2 & H3 & H4).
    repeat split; done. }
  assert (HEall : forall name c pmf,
            fs w !! (src ++ "/" ++ name) = Some (NFile c pmf) ->
            name <> "" -> Contains name "/" = false ->
            exists e, e ∈ E /\ de_Name e = name).
  { intros name c pmf Hm Hne Hc.
    exists {| de_Name := name; de_node := NFile c pmf |}. split; [|done].
    apply entries_elem. cbn [de_Name de_node].
    rewrite (below_plain src Hsrc), <- append_assoc_rev.
    subst w1 m1. cbn. rewrite lookup_insert_ne; [done|].
    intros Heq. rewrite Heq, Hm in Hdabs. done. }
  (* the loop *)
  set (Inv := fun (S : string -> Prop) (wi : World) =>
    script wi = [] /\ fdtab wi = fdtab w
    /\ (forall x, under dst x = false -> fs wi !! x = m1 !! x)
    /\ (forall x, under dst x = true ->
          fs wi !! x = None \/ fs wi !! x = flat_copy (fs w) src dst x)
    /\ (forall name, S name ->
          fs wi !! (dst ++ "/" ++ name)
          = flat_copy (fs w) src dst (dst ++ "/" ++ name))).
  match goal with |- context [?f E w1] => set (loop := f) end.
  assert (Hloop : forall l wi (S : string -> Prop),
            (forall e, e ∈ l -> Q e) -> Inv S wi ->
            exists w', loop l wi = (None, w')
                       /\ Inv (fun n => S n \/ exists e, e ∈ l /\ de_Name e = n) w').
  { induction l as [|e rest IH]; intros wi S HQ HI.
    - exists wi. split; [reflexivity|].
      destruct HI as (I1 & I2 & I3 & I4 & I5). repeat split; try done.
      intros name [HS|(e & He & _)]; [by apply I5|]. by apply elem_of_nil in He.
    - destruct (HQ e (list_elem_of_here _ _)) as (Hm & Hpl & Hnd & Hpm).
      destruct HI as (I1 & I2 & I3 & I4 & I5).
      assert (Hrest : forall e', e' ∈ rest -> Q e')
        by (intros e' He'; apply HQ; by apply list_elem_of_further).
      assert (Hgrow : forall w2 (S2 : string -> Prop),
                Inv S2 w2 -> (forall n, S n \/ de_Name e = n -> S2 n) ->
                exists w', loop rest w2 = (None, w')
                  /\ Inv (fun n => S n \/ exists e0, e0 ∈ e :: rest /\ de_Name e0 = n) w').
      { intros w2 S2 HI2 HS2.
        destruct (IH w2 S2 Hrest HI2) as (w' & Hl & J1 & J2 & J3 & J4 & J5).
        exists w'. split; [exact Hl|]. repeat split; try done.
        intros n [HS|(e0 & He0 & Hn)].
        - apply J5. left. apply HS2. by left.
        - apply elem_of_cons in He0 as [->|He0].
          + apply J5. left. apply HS2. by right.
          + apply J5. right. eauto. }
      unfold loop at 1. lazy beta iota fix. fold loop.
      rewrite (Join_plain src _ Hsrc Hpl), (Join_plain dst _ Hdst Hpl).
      assert (Hisdir : de_IsDir e = false).
      { unfold de_IsDir. destruct (de_node e) eqn:En; try done.
        by destruct (Hnd perm). }
      rewrite Hisdir.
      unfold mbind at 1, M_bind at 1. rewrite (de_Info_ok src e wi I1).
      destruct (de_node e) as [c pmf|dm|t] eqn:En.
      + (* a regular file *)
        cbn [info_of fi_Mode]. rewrite (perm_not_symlink pmf (Hpm c pmf eq_refl)).
        cbn [negb].
        assert (Hsfile : fs wi !! (src ++ "/" ++ de_Name e) = Some (NFile c pmf)).
        { rewrite I3.
          - subst m1. rewrite lookup_insert_ne; [done|].
            intros Heq. rewrite Heq, Hm in Hdabs. done.
          - destruct (under dst (src ++ "/" ++ de_Name e)) eqn:Hu; [|done].
            rewrite (Hfree _ (or_intror Hu)) in Hm. done. }
        assert (Hdfile : fs wi !! (dst ++ "/" ++ de_Name e) = None
                         \/ exists c' pm', fs wi !! (dst ++ "/" ++ de_Name e)
                                           = Some (NFile c' pm')).
        { destruct (I4 _ (under_child dst (de_Name e) Hdst)) as [H|H]; [by left|].
          right. rewrite H, (flat_copy_child _ _ _ _ c pmf Hdst Hpl Hm). eauto. }
        assert (Hne : src ++ "/" ++ de_Name e <> dst ++ "/" ++ de_Name e).
        { intros Heq. rewrite Heq in Hm.
          rewrite (Hfree _ (or_intror (under_child dst (de_Name e) Hdst))) in Hm.
          done. }
        destruct (CopyFile_run p _ _ wi c pmf I1 Hsfile Hdfile)
          as (w2 & Hcp & Hfs2 & Hfd2 & Hs2 & _).
        rewrite decide_False in Hfs2 by done.
        unfold mbind at 1, M_bind at 1. rewrite Hcp.
        apply Hgrow with (S2 := fun n => S n \/ de_Name e = n); [|done].
        repeat split.
        * done.
        * congruence.
        * intros x Hx. rewrite Hfs2, lookup_insert_ne; [by apply I3|].
          intros <-. by rewrite (under_child dst (de_Name e) Hdst) in Hx.
        * intros x Hx. rewrite Hfs2.
          destruct (decide (x = dst ++ "/" ++ de_Name e)) as [->|Hxn].
          -- right. rewrite lookup_insert_eq.
             by rewrite (flat_copy_child _ _ _ _ c pmf Hdst Hpl Hm).
          -- rewrite lookup_insert_ne by done. by apply I4.
        * intros n Hn. rewrite Hfs2.
          destruct (decide (dst ++ "/" ++ n = dst ++ "/" ++ de_Name e)) as [Heq|Hxn].
          -- rewrite Heq, lookup_insert_eq.
             by rewrite (flat_copy_child _ _ _ _ c pmf Hdst Hpl Hm).
          -- rewrite lookup_insert_ne by done.
             destruct Hn as [Hn|Hn]; [by apply I5|]. by subst n.
      + by destruct (Hnd dm).
      + (* a symbolic link is skipped *)
        cbn [info_of fi_Mode].
        change (negb (Z.land (Z.lor ModeSymlink ModePerm) ModeSymlink =? 0)%Z)
          with true. cbn iota.
        apply Hgrow with (S2 := fun n => S n \/ de_Name e = n); [|done].
        repeat split; try done.
        intros n [Hn|Hn]; [by apply I5|]. subst n.
        assert (Hnone : flat_copy (fs w) src dst (dst ++ "/" ++ de_Name e) = None)
          by (by apply (flat_copy_other _ _ _ _ (NSymlink t) Hdst Hpl Hm)).
        rewrite Hnone.
        destruct (I4 _ (under_child dst (de_Name e) Hdst)) as [H|H]; congruence. }
  destruct (Hloop E w1 (fun _ => False) HE) as (w' & Hl & J1 & J2 & J3 & J4 & J5).
  { subst Inv. cbn beta. repeat split; try done.
    intros x Hx. left. subst w1 m1. cbn.
    rewrite lookup_insert_ne; [by apply Hfree; right|].
    intros <-. by rewrite (under_self dst Hdst) in Hx. }
  exists w'. split; [exact Hl|].
  split.
  { rewrite J3 by (by apply under_self). subst m1. apply lookup_insert_eq. }
  split.
  { intros x Hx. destruct (flat_copy (fs w) src dst x) as [nd|] eqn:Hfc.
    - pose proof Hfc as Hfc'. unfold flat_copy in Hfc'.
      destruct (child_name dst x) as [name|] eqn:Hcn; [|done].
      apply child_name_Some in Hcn as (-> & Hne & Hc).
      rewrite (below_plain dst Hdst), <- append_assoc_rev in Hfc |- *.
      destruct (fs w !! (src ++ "/" ++ name)) as [[c pmf| |]|] eqn:Hm; try done.
      destruct (HEall name c pmf Hm Hne Hc) as (e & He & Hname).
      rewrite J5 by (right; eauto). exact Hfc.
    - destruct (J4 x Hx) as [H|H]; congruence. }
  split; [|split; [exact J2|exact J1]].
  intros x Hx Hu. rewrite J3 by done. subst m1. by rewrite lookup_insert_ne.
Qed.

End FlatCopy.

(* ===================================================================== *)
(** * CopyDir on a flat directory                                         *)
(* ===================================================================== *)

Section FlatCopyTrees.
Open Scope string_scope.

Lemma CopyDir_copies_flat p src dst w pm :
  script w = [] -> plain_dir src -> plain_dir dst ->
  fs w !! src = Some (NDir pm) -> under src dst = false ->
  vacant (fs w) dst -> flat_dir (fs w) src ->
  exists w',
    CopyDir p src dst w = (None, w')
    /\ fs w' !! dst = Some (NDir (new_perm (Z.lor ModeDir pm) w))
    /\ (forall x, under dst x = true -> fs w' !! x = flat_copy (fs w) src dst x)
    /\ (forall x, x <> dst -> under dst x = false -> fs w' !! x = fs w !! x)
    /\ fdtab w' = fdtab w /\ script w' = [].
Proof.
  intros Hs Hsrc Hdst Hdir Hout Hvac Hflat.
  apply (CopyDir_flat_run p src dst w pm Hs Hsrc Hdst Hdir); [|exact Hout|].
  - intros x Hx. destruct (fs w !! x) as [n|] eqn:E; [|done].
    destruct (Hvac x n E) as [H1 H2]. destruct Hx as [->|Hx]; [done|congruence].
  - intros name n Hm Hne Hc.
    pose proof (Hflat _ n Hm) as Hf. cbn beta in Hf.
    assert (E : child_name src (src ++ "/" ++ name) = Some name).
    { apply child_name_Some. rewrite (below_plain src Hsrc).
      by rewrite <- append_assoc_rev. }
    rewrite E in Hf. unfold flat_entry in Hf.
    apply andb_prop in Hf as [Hf Hn]. apply andb_prop in Hf as [H1 H2].
    apply negb_true_iff in H1, H2.
    split; [by intros ->|]. split; [by intros ->|].
    destruct n; [|done|done]. split; [done|].
    intros c pmf [= <- <-]. by apply Z.eqb_eq.
Qed.

End FlatCopyTrees.

(* ===================================================================== *)
(** * Rename of a flat directory across devices                           *)
(* ===================================================================== *)

Section MoveDirectory.
Open Scope string_scope.

Lemma prefix_comparable a b x :
  String.prefix a x = true -> String.prefix b x = true ->
  String.prefix a b = true \/ String.prefix b a = true.
Proof.
  revert a b. induction x as [|c x IH]; intros a b.
  - destruct a, b; try done; by left.
  - destruct a as [|ca a]; [intros _ _; left; by destruct b|].
    destruct b as [|cb b]; [intros _ _; by right|].
    cbn [String.prefix].
    destruct (ascii_dec ca c) as [->|]; [|done].
    destruct (ascii_dec cb c) as [->|]; [|done].
    destruct (ascii_dec c c); [|done]. apply IH.
Qed.

Lemma prefix_snoc a b c :
  String.prefix a (b ++ String c "") = true ->
  a = b ++ String c "" \/ String.prefix a b = true.
Proof.
  revert a. induction b as [|cb b IH]; intros a.
  - destruct a as [|ca a]; [by right|].
    change ("" ++ String c "") with (String c ""). cbn [String.prefix].
    destruct (ascii_dec ca c) as [->|]; [|done].
    destruct a; [intros _; by left|done].
  - destruct a as [|ca a]; [by right|].
    change (String cb b ++ String c "") with (String cb (b ++ String c "")).
    cbn [String.prefix]. destruct (ascii_dec ca cb) as [->|]; [|done].
    intros H. destruct (IH a H) as [->|H']; [by left|by right].
Qed.

Lemma append_inv_r a b c : a ++ c = b ++ c -> a = b.
Proof.
  intros H.
  assert (Hl : String.length a = String.length b).
  { apply (f_equal String.length) in H. rewrite !length_append in H. lia. }
  revert b H Hl. induction a as [|ca a IH]; intros [|cb b] H Hl; try done.
  change (String ca (a ++ c) = String cb (b ++ c)) in H.
  injection H as -> H. f_equal. apply IH; [done|]. cbn in Hl. lia.
Qed.

(** Two plain directories with a common path below them are one below the
    other, or the same. *)
Lemma under_both a b x :
  plain_dir a -> plain_dir b -> under a x = true -> under b x = true ->
  a = b \/ under a b = true \/ under b a = true.
Proof.
  intros Ha Hb. unfold under. rewrite (below_plain a Ha), (below_plain b Hb).
  intros H1 H2. destruct (prefix_comparable _ _ _ H1 H2) as [H|H].
  - apply prefix_snoc in H as [H|H]; [|by right; left].
    left. by apply append_inv_r in H.
  - apply prefix_snoc in H as [H|H]; [|by right; right].
    left. symmetry. by apply append_inv_r in H.
Qed.

Lemma os_RemoveAll_ok path w :
  script w = [] -> os_RemoveAll path w = (None, set_fs (prune path (fs w)) w).
Proof.
  intros Hs. unfold os_RemoveAll. os_unfold.
  by rewrite next_fault_nil, advance_nil.
Qed.

Lemma prune_lookup path m x :
  prune path m !! x
  = if decide (x <> path /\ under path x = false) then m !! x else None.
Proof.
  unfold prune. destruct (decide _) as [H|H].
  - destruct (m !! x) as [n|] eqn:E.
    + by apply map_lookup_filter_Some.
    + apply map_lookup_filter_None. left. done.
  - apply map_lookup_filter_None. right. intros n _. exact H.
Qed.

Lemma Rename_fallback_flat_dir p src dst w pm :
  script w = [Fail FEXDEV] -> plain_dir src -> plain_dir dst ->
  fs w !! src = Some (NDir pm) -> under src dst = false ->
  vacant (fs w) dst -> flat_dir (fs w) src ->
  exists w',
    Rename p src dst w = (None, w')
    /\ fs w' !! dst = Some (NDir (new_perm (Z.lor ModeDir pm) w))
    /\ (forall x, under dst x = true -> fs w' !! x = flat_copy (fs w) src dst x)
    /\ (forall x, x = src \/ under src x = true -> fs w' !! x = None)
    /\ (forall x, x <> dst -> under dst x = false ->
                  x <> src -> under src x = false -> fs w' !! x = fs w !! x)
    /\ fdtab w' = fdtab w.
Proof.
  intros Hs Hsrc Hdst Hdir Hout Hvac Hflat.
  assert (Hsd : src <> dst).
  { intros ->. by destruct (Hvac _ _ Hdir). }
  assert (Hds : under dst src = false) by (by destruct (Hvac _ _ Hdir)).
  unfold Rename. unfold mbind at 1, M_bind at 1.
  rewrite (os_Rename_cross_device src dst w Hs).
  rewrite LinkError_cross_device. rewrite bool_decide_eq_true_2 by done.
  set (w1 := set_script [] w).
  unfold mbind at 1, M_bind at 1.
  rewrite (os_Stat_dir src w1 pm eq_refl Hdir). cbn [info_of fi_IsDir].
  destruct (CopyDir_copies_flat p src dst w1 pm eq_refl Hsrc Hdst Hdir Hout Hvac Hflat)
    as (w2 & Hcp & J1 & J2 & J3 & J4 & Hs2).
  unfold mbind at 1, M_bind at 1. rewrite Hcp.
  unfold mbind, M_bind, mret, M_ret.
  rewrite (os_RemoveAll_ok src w2 Hs2).
  eexists. split; [reflexivity|]. cbn [fs set_fs fdtab].
  split.
  { rewrite prune_lookup, decide_True by (split; [by intros ->|done]). exact J1. }
  split.
  { intros x Hx. rewrite prune_lookup.
    destruct (decide (x <> src /\ under src x = false)) as [_|Hn]; [by apply J2|].
    exfalso. apply Hn. split.
    - intros ->. congruence.
    - destruct (under src x) eqn:Hu; [|done].
      destruct (under_both src dst x Hsrc Hdst Hu Hx) as [?|[?|?]]; congruence. }
  split.
  { intros x Hx. rewrite prune_lookup, decide_False; [done|].
    intros [H1 H2]. destruct Hx as [->|Hx]; [done|congruence]. }
  split; [|exact J4].
  intros x H1 H2 H3 H4. rewrite prune_lookup, decide_True by done. by apply J3.
Qed.

End MoveDirectory.

(* ===================================================================== *)
(** * The handler on whole counts                                         *)
(* ===================================================================== *)

Section CountingRequests.
Import Json.
Open Scope string_scope.

Lemma hostname_times_fdtab cd p k : forall g,
  keeps same_fdtab (hostname_times cd p k g).
Proof.
  induction k as [|k IH]; intros g w; cbn [hostname_times]; [done|].
  unfold mbind, M_bind. pose proof (hostname_fdtab cd p g new_response w) as H.
  destruct (hostname cd p g new_response w) as [[g' rw] w1]. cbn [snd] in H.
  unfold same_fdtab in *. by rewrite IH.
Qed.

(** X1: on a whole count [n] with [n + 1] below [2^53], and without
    environment faults, GET /hostname answers 200 with the decimal digits
    of [n + 1], leaves [number] at [n + 1] and the counter file holding
    those digits with mode 0644; no descriptor stays open. *)
Theorem hostname_counts_whole cd p g w n :
  (0 <= n)%Z -> (n + 1 < 2 ^ 53)%Z -> number g = of_Z n ->
  script w = [] -> fs w !! temp_name p (rand w) = None ->
  (forall dm, fs w !! fileName g <> Some (NDir dm)) ->
  let r := hostname cd p g new_response w in
  reply r.1.2 = (200%Z, bytes (Itoa (n + 1)))
  /\ number r.1.1 = of_Z (n + 1)
  /\ fs r.2 = <[fileName g := NFile (bytes (Itoa (n + 1))) 420]> (fs w)
  /\ fdtab r.2 = fdtab w.
Proof.
  intros Hn Hlt Hg Hs Hfree Hdir.
  pose proof (hostname_fdtab cd p g new_response w) as Hfd.
  destruct (hostname_whole cd p g w n Hn Hlt Hg Hs Hfree Hdir)
    as (w' & Hh & Hfs & _).
  cbn zeta. rewrite Hh in Hfd |- *. cbn [fst snd] in *. done.
Qed.

Lemma hostname_counts_whole_witness :
  let r := hostname plain_codec service (globals_at (of_Z 41)) new_response
             (machine (Some "41") []) in
  reply r.1.2 = (200%Z, bytes (Itoa (41 + 1)))
  /\ number r.1.1 = of_Z (41 + 1)
  /\ fs r.2 = <[fileName (globals_at (of_Z 41))
                := NFile (bytes (Itoa (41 + 1))) 420]>
                (fs (machine (Some "41") []))
  /\ fdtab r.2 = fdtab (machine (Some "41") []).
Proof.
  apply (hostname_counts_whole plain_codec service (globals_at (of_Z 41))
           (machine (Some "41") []) 41).
  - lia.
  - lia.
  - reflexivity.
  - reflexivity.
  - reflexivity.
  - intros dm H. vm_compute in H. discriminate H.
Defined.

(** X2: [k] requests in a row on a whole count [n], without environment
    faults and with [n + k] below [2^53]: [number] ends at [n + k], GET
    /latest answers those digits, the counter file holds them, every other
    entry of the name space is as before (no temporary file is left) and
    no descriptor stays open. *)
Theorem requests_accumulate cd p g w n (k : nat) :
  (0 <= n)%Z -> (n + Z.of_nat k < 2 ^ 53)%Z -> number g = of_Z n ->
  script w = [] -> staging_clear p (fileName g) w ->
  (forall dm, fs w !! fileName g <> Some (NDir dm)) ->
  let r := hostname_times cd p k g w in
  number r.1 = of_Z (n + Z.of_nat k)
  /\ reply (latestCounter r.1 new_response)
     = (200%Z, bytes (Itoa (n + Z.of_nat k)))
  /\ (k <> O ->
      on_disk r.2 (fileName g) = Some (bytes (Itoa (n + Z.of_nat k))))
  /\ (forall x, x <> fileName g -> fs r.2 !! x = fs w !! x)
  /\ fdtab r.2 = fdtab w.
Proof.
  intros Hn Hlt Hg Hs Hclear Hdir.
  pose proof (hostname_times_fdtab cd p k g w) as Hfd.
  destruct (hostname_times_ok cd p k g w n Hn Hlt Hg Hs Hclear Hdir)
    as (w' & Hh & _ & Hfr & Hfile).
  cbn zeta. rewrite Hh in Hfd |- *. cbn [fst snd number set_number] in *.
  split; [done|]. split.
  { unfold latestCounter. cbn [number set_number]. by rewrite to_int_of_Z by lia. }
  split; [|done].
  intros Hk. unfold on_disk. by rewrite (resolve_file _ _ _ _ (Hfile Hk)).
Qed.

Lemma requests_accumulate_witness :
  let g := globals_at zero in
  let w := machine None [] in
  let r := hostname_times plain_codec service 3 g w in
  number r.1 = of_Z (0 + Z.of_nat 3)
  /\ reply (latestCounter r.1 new_response)
     = (200%Z, bytes (Itoa (0 + Z.of_nat 3)))
  /\ (3%nat <> O ->
      on_disk r.2 (fileName g) = Some (bytes (Itoa (0 + Z.of_nat 3))))
  /\ (forall x, x <> fileName g -> fs r.2 !! x = fs w !! x)
  /\ fdtab r.2 = fdtab w.
Proof.
  apply (requests_accumulate plain_codec service (globals_at zero)
           (machine None []) 0 3).
  - lia.
  - vm_compute. reflexivity.
  - reflexivity.
  - reflexivity.
  - intros k. split; [reflexivity|].
    split; intros H; vm_compute in H; discriminate H.
  - intros dm H. vm_compute in H. discriminate H.
Defined.

(** X3: at [2^53] the count no longer moves.  [number++] rounds back to
    [2^53], so a request without environment faults is answered 200 with
    9007199254740992 again and [number] stays what it was. *)
Theorem counter_saturates cd p g w :
  number g = of_Z (2 ^ 53) -> script w = [] ->
  fs w !! temp_name p (rand w) = None ->
  (forall dm, fs w !! fileName g <> Some (NDir dm)) ->
  let r := hostname cd p g new_response w in
  reply r.1.2 = (200%Z, bytes "9007199254740992")
  /\ number r.1.1 = number g
  /\ incr (of_Z (2 ^ 53 - 1)) = of_Z (2 ^ 53).
Proof.
  intros Hg Hs Hfree Hdir.
  assert (Hi : incr (number g) = of_Z (2 ^ 53)) by (rewrite Hg; vm_compute; reflexivity).
  destruct (hostname_ok cd p g new_response w
              (format_float cd (of_Z (2 ^ 53))) Hs) as (w' & Hh & _); try done.
  { by rewrite Hi. }
  cbn zeta. rewrite Hh, Hi. cbn [fst snd number set_number].
  split; [reflexivity|]. split; [by rewrite Hg|].
  vm_compute. reflexivity.
Qed.

Lemma counter_saturates_witness :
  let g := globals_at (of_Z (2 ^ 53)) in
  let r := hostname plain_codec service g new_response
             (machine (Some "9007199254740992") []) in
  reply r.1.2 = (200%Z, bytes "9007199254740992")
  /\ number r.1.1 = number g
  /\ incr (of_Z (2 ^ 53 - 1)) = of_Z (2 ^ 53).
Proof.
  apply (counter_saturates plain_codec service (globals_at (of_Z (2 ^ 53)))
           (machine (Some "9007199254740992") [])).
  - reflexivity.
  - reflexivity.
  - reflexivity.
  - intros dm H. vm_compute in H. discriminate H.
Defined.

End CountingRequests.

(* ===================================================================== *)
(** * Start-up                                                            *)
(* ===================================================================== *)

Section StartUp.
Import Json.
Open Scope string_scope.

(** X4: when the counter file holds the decimal digits of a whole count
    [n] below [2^53], start-up without environment faults reaches the
    serving state with [number = n], GET /latest answers those digits, and
    the counter file is left as it was. *)
Theorem main_resumes_count cd p file listen w n pm :
  file <> "" -> listen <> "" -> script w = [] -> (0 <= n < 2 ^ 53)%Z ->
  fs w !! file = Some (NFile (bytes (Itoa n)) pm) -> file <> lockFile p ->
  lock_available p w ->
  exists fl w1,
    main cd p file listen w
    = (Serving {| fileName := file; listenAddr := listen; number := of_Z n |} fl,
       w1)
    /\ reply (latestCounter {| fileName := file; listenAddr := listen;
                               number := of_Z n |} new_response)
       = (200%Z, bytes (Itoa n))
    /\ fs w1 !! file = Some (NFile (bytes (Itoa n)) pm).
Proof.
  intros Hfile Hlisten Hs Hn Hcnt Hne Hlock.
  destruct (main_resume_ok cd p file listen w n pm Hfile Hlisten Hs Hn Hcnt Hne Hlock)
    as (fl & w1 & Hmain & _ & _ & Hfs & _).
  exists fl, w1. split; [exact Hmain|]. split.
  - unfold latestCounter. cbn [number]. by rewrite to_int_of_Z.
  - by rewrite Hfs.
Qed.

Lemma main_resumes_count_witness :
  exists fl w1,
    main plain_codec service "counter.txt" ":8080" (machine (Some "7") [])
    = (Serving {| fileName := "counter.txt"; listenAddr := ":8080";
                  number := of_Z 7 |} fl, w1)
    /\ reply (latestCounter {| fileName := "counter.txt"; listenAddr := ":8080";
                               number := of_Z 7 |} new_response)
       = (200%Z, bytes (Itoa 7))
    /\ fs w1 !! "counter.txt" = Some (NFile (bytes (Itoa 7)) 420).
Proof.
  apply (main_resumes_count plain_codec service "counter.txt" ":8080"
           (machine (Some "7") []) 7 420).
  - discriminate.
  - discriminate.
  - reflexivity.
  - lia.
  - reflexivity.
  - vm_compute. discriminate.
  - split; [left; reflexivity | reflexivity].
Defined.

(** X5: the count survives a restart.  Start [main] where the counter
    file is absent, serve [k] requests without environment faults, end the
    process, and start [main] again as a process with the same temporary
    directory: it reaches the serving state with [number = k], and GET
    /latest answers the digits of [k]. *)
Theorem count_survives_restart cd p p' file listen listen' w (k : nat) :
  file <> "" -> listen <> "" -> listen' <> "" -> script w = [] ->
  fs w !! file = None -> file <> lockFile p ->
  lock_available p w -> staging_clear p file w ->
  (Z.of_nat k < 2 ^ 53)%Z -> os_TempDir p' = os_TempDir p ->
  exists g fl w1,
    main cd p file listen w = (Serving g fl, w1)
    /\ let served := hostname_times cd p k g w1 in
       let down := (os_Exit p served.2).2 in
       exists fl' w2,
         main cd p' file listen' down
         = (Serving {| fileName := file; listenAddr := listen';
                       number := of_Z (Z.of_nat k) |} fl', w2)
         /\ reply (latestCounter {| fileName := file; listenAddr := listen';
                                    number := of_Z (Z.of_nat k) |} new_response)
            = (200%Z, bytes (Itoa (Z.of_nat k))).
Proof.
  intros Hfile Hlisten Hlisten' Hs Habs Hne Hlock Hclear Hk Htmp.
  assert (Hsame : lockFile p' = lockFile p) by (unfold lockFile; by rewrite Htmp).
  destruct (main_startup_ok cd p file listen w Hfile Hlisten Hs Habs Hne Hlock Hclear)
    as (fl & w1 & Hmain & Hs1 & _ & Hf1 & Hfs1 & Hlf1 & _).
  set (g := {| fileName := file; listenAddr := listen; number := zero |}) in *.
  exists g, fl, w1. split; [exact Hmain|]. cbn zeta.
  assert (Hclear1 : staging_clear p (fileName g) w1).
  { intros j. destruct (Hclear j) as (Hj & Hjf & Hjl). cbn [fileName g].
    split; [|done]. by rewrite Hfs1. }
  assert (Hdir1 : forall dm, fs w1 !! fileName g <> Some (NDir dm)).
  { intros dm. cbn [fileName g]. by rewrite Hf1. }
  destruct (hostname_times_ok cd p k g w1 0 ltac:(lia) ltac:(lia) eq_refl Hs1
              Hclear1 Hdir1) as (w' & Hserved & Hs' & Hfr & Hcnt).
  cbn [fileName g] in Hfr, Hcnt.
  pose proof (hostname_times_others p cd k g w1) as Ho2.
  pose proof (main_others p cd file listen w) as Ho1.
  rewrite Hmain in Ho1. rewrite Hserved in Ho2 |- *. cbn [snd] in *.
  unfold same_others in Ho1, Ho2.
  set (down := (os_Exit p w').2).
  assert (Hfsd : fs down = fs w') by reflexivity.
  assert (Hsd : script down = []) by exact Hs'.
  assert (Hld : locks down = others p (locks w)).
  { change (locks down) with (others p (locks w')). congruence. }
  assert (Hcontent : exists pm, fs down !! file = Some (NFile (bytes (Itoa (Z.of_nat k))) pm)).
  { rewrite Hfsd. destruct k as [|k'].
    - cbn [hostname_times] in Hserved.
      assert (w' = w1) as -> by (by injection Hserved). eauto.
    - exists 420%Z. by apply Hcnt. }
  destruct Hcontent as [pm Hcontent].
  assert (Havail : lock_available p' down).
  { split.
    - right. rewrite Hsame, Hfsd, Hfr by done. exact Hlf1.
    - apply conflict_none. intros r Hin Hp Hpid Hov. exfalso.
      rewrite Hld in Hin. apply list_elem_of_filter in Hin as [Hr Hin].
      destruct Hlock as [_ Hc].
      rewrite Hsame in Hp.
      pose proof (conflict_none_inv _ _ _ _ _ _ r Hc Hin Hp Hr Hov). done. }
  destruct (main_resume_ok cd p' file listen' down (Z.of_nat k) pm Hfile Hlisten'
              Hsd ltac:(lia) Hcontent ltac:(by rewrite Hsame) Havail)
    as (fl' & w2 & Hmain' & _).
  exists fl', w2. split; [exact Hmain'|].
  unfold latestCounter. cbn [number]. by rewrite to_int_of_Z by lia.
Qed.

Lemma count_survives_restart_witness :
  exists g fl w1,
    main plain_codec service "counter.txt" ":8080" (machine None [])
    = (Serving g fl, w1)
    /\ let served := hostname_times plain_codec service 3 g w1 in
       let down := (os_Exit service served.2).2 in
       exists fl' w2,
         main plain_codec second_instance "counter.txt" ":9090" down
         = (Serving {| fileName := "counter.txt"; listenAddr := ":9090";
                       number := of_Z (Z.of_nat 3) |} fl', w2)
         /\ reply (latestCounter {| fileName := "counter.txt";
                                    listenAddr := ":9090";
                                    number := of_Z (Z.of_nat 3) |} new_response)
            = (200%Z, bytes (Itoa (Z.of_nat 3))).
Proof.
  apply (count_survives_restart plain_codec service second_instance
           "counter.txt" ":8080" ":9090" (machine None []) 3).
  - discriminate.
  - discriminate.
  - discriminate.
  - reflexivity.
  - reflexivity.
  - vm_compute. discriminate.
  - split; [left; reflexivity | reflexivity].
  - intros k. split; [reflexivity|].
    split; intros H; vm_compute in H; discriminate H.
  - vm_compute. reflexivity.
  - reflexivity.
Defined.

(** X6: with an empty file name or an empty listen address [main] ends
    in [os.Exit(1)] in every world and under every fault; by then it has
    changed or removed no entry of the name space (it may have created the
    lock file), and the process holds no record lock afterwards. *)
Theorem main_rejects_empty_flags cd p file listen w :
  file = "" \/ listen = "" ->
  let r := main cd p file listen w in
  r.1 = Exit 1
  /\ (forall x, is_Some (fs w !! x) -> fs r.2 !! x = fs w !! x)
  /\ Forall (fun rec => lk_pid rec <> pid p) (locks r.2).
Proof. intros H. exact (main_empty_flag cd p file listen w H). Qed.

Lemma main_rejects_empty_flags_witness :
  let w := machine (Some "7") [] in
  let r := main plain_codec service "" ":8080" w in
  r.1 = Exit 1
  /\ (forall x, is_Some (fs w !! x) -> fs r.2 !! x = fs w !! x)
  /\ Forall (fun rec => lk_pid rec <> pid service) (locks r.2).
Proof.
  apply (main_rejects_empty_flags plain_codec service "" ":8080"
           (machine (Some "7") [])).
  left. reflexivity.
Defined.

(** X7: when [main] returns (the listener could not be bound), the
    deferred [flock.Unlock()] has run: the descriptor table is what it was
    before start-up and the process holds no record lock on the lock
    file.  This holds under every fault of the environment. *)
Theorem main_return_releases_lock cd p file listen w :
  (fs w !! lockFile p = None
   \/ exists c pm, fs w !! lockFile p = Some (NFile c pm)) ->
  (main cd p file listen w).1 = Return ->
  let w' := (main cd p file listen w).2 in
  fdtab w' = fdtab w
  /\ Forall (fun rec => ¬ (lk_pid rec = pid p ∧ lk_path rec = lockFile p))
       (locks w').
Proof.
  intros Hfile Hret. cbn zeta.
  destruct (main cd p file listen w) as [out w'] eqn:Hm. cbn [fst snd] in *.
  subst out. exact (main_return cd p file listen w w' Hfile Hm).
Qed.

Lemma main_return_releases_lock_witness :
  let w := machine (Some "7") [Pass; Pass; Pass; Pass; Fail FEACCES] in
  let w' := (main plain_codec service "counter.txt" ":8080" w).2 in
  fdtab w' = fdtab w
  /\ Forall (fun rec => ¬ (lk_pid rec = pid service
                           ∧ lk_path rec = lockFile service)) (locks w').
Proof.
  apply (main_return_releases_lock plain_codec service "counter.txt" ":8080"
           (machine (Some "7") [Pass; Pass; Pass; Pass; Fail FEACCES])).
  - left. reflexivity.
  - vm_compute. reflexivity.
Defined.

End StartUp.

(* ===================================================================== *)
(** * package fhandler: what the functions do                             *)
(* ===================================================================== *)

Section FhandlerBehaviour.
Open Scope string_scope.

(** X8: unless [os.Rename] fails with a cross-device link, [Rename]
    returns nil and leaves the world as [os.Rename] left it.  So when the
    source does not exist, or the destination is an existing directory,
    [os.Rename] fails, [Rename] still returns nil, and the name space is
    unchanged. *)
Theorem Rename_error_only_cross_device p src dst w :
  fault_errno (next_fault w) <> Some EXDEV ->
  Rename p src dst w = (None, (os_Rename src dst w).2)
  /\ ((fs w !! src = None \/ exists dm, fs w !! dst = Some (NDir dm)) ->
      is_Some (os_Rename src dst w).1 /\ fs (Rename p src dst w).2 = fs w).
Proof.
  intros Hx. pose proof (Rename_without_cross_device p src dst w Hx) as HR.
  split; [exact HR|]. intros H. rewrite HR. cbn [snd].
  exact (os_Rename_refused src dst w H).
Qed.

Lemma Rename_error_only_cross_device_witness :
  let w := machine (Some "7") [] in
  Rename service "missing.txt" "counter.txt" w
  = (None, (os_Rename "missing.txt" "counter.txt" w).2)
  /\ ((fs w !! "missing.txt" = None
       \/ exists dm, fs w !! "counter.txt" = Some (NDir dm)) ->
      is_Some (os_Rename "missing.txt" "counter.txt" w).1
      /\ fs (Rename service "missing.txt" "counter.txt" w).2 = fs w).
Proof.
  apply (Rename_error_only_cross_device service "missing.txt" "counter.txt"
           (machine (Some "7") [])).
  vm_compute. discriminate.
Defined.

(** X9: the cross-device fallback.  When [os.Rename] fails with a
    cross-device link and nothing else fails, a regular file is copied to
    the destination (absent, or a regular file that is replaced) and the
    source is removed: the destination holds the content of the source
    with its permission bits, the source is gone, and no descriptor stays
    open. *)
Theorem Rename_fallback_moves_file p src dst w c pm :
  script w = [Fail FEXDEV] -> fs w !! src = Some (NFile c pm) -> src <> dst ->
  (fs w !! dst = None \/ exists c' pm', fs w !! dst = Some (NFile c' pm')) ->
  let r := Rename p src dst w in
  r.1 = None
  /\ fs r.2 = <[dst := NFile c (Z.land pm ModePerm)]> (delete src (fs w))
  /\ fdtab r.2 = fdtab w.
Proof.
  intros Hs Hsrc Hne Hdst.
  destruct (Rename_fallback_file p src dst w c pm Hs Hsrc Hne Hdst)
    as (w' & HR & Hfs & Hfd & _).
  cbn zeta. rewrite HR. done.
Qed.

Lemma Rename_fallback_moves_file_witness :
  let w := machine (Some "7") [Fail FEXDEV] in
  let r := Rename service "counter.txt" "/mnt/counter.txt" w in
  r.1 = None
  /\ fs r.2 = <["/mnt/counter.txt" := NFile (bytes "7") (Z.land 420 ModePerm)]>
                (delete "counter.txt" (fs w))
  /\ fdtab r.2 = fdtab w.
Proof.
  apply (Rename_fallback_moves_file service "counter.txt" "/mnt/counter.txt"
           (machine (Some "7") [Fail FEXDEV]) (bytes "7") 420).
  - reflexivity.
  - reflexivity.
  - discriminate.
  - left. reflexivity.
Defined.

(** X10: [Rename] of a flat directory across devices.  When the one
    fault of the environment is that os.Rename fails with EXDEV, for a
    source directory that holds regular files and symbolic links only and
    a destination at and below which nothing exists: [Rename] returns nil,
    the destination holds the copies that [CopyDir] makes, nothing is left
    at or below the source (its symbolic links are gone without a copy),
    every other path is as before, and no descriptor stays open. *)
Theorem Rename_fallback_moves_flat_directory p src dst w pm :
  script w = [Fail FEXDEV] -> plain_dir src -> plain_dir dst ->
  fs w !! src = Some (NDir pm) -> under src dst = false ->
  vacant (fs w) dst -> flat_dir (fs w) src ->
  let r := Rename p src dst w in
  r.1 = None
  /\ fs r.2 !! dst = Some (NDir (new_perm (Z.lor ModeDir pm) w))
  /\ (forall x, under dst x = true -> fs r.2 !! x = flat_copy (fs w) src dst x)
  /\ (forall x, x = src \/ under src x = true -> fs r.2 !! x = None)
  /\ (forall x, x <> dst -> under dst x = false ->
                x <> src -> under src x = false -> fs r.2 !! x = fs w !! x)
  /\ fdtab r.2 = fdtab w.
Proof.
  intros Hs Hsrc Hdst Hdir Hout Hvac Hflat.
  destruct (Rename_fallback_flat_dir p src dst w pm Hs Hsrc Hdst Hdir Hout Hvac Hflat)
    as (w' & HR & H).
  cbn zeta. rewrite HR. split; [done|exact H].
Qed.

Lemma Rename_fallback_moves_flat_directory_witness :
  let w := set_script [Fail FEXDEV] data_tree in
  let r := Rename service "/srv/data" "/mnt/data" w in
  r.1 = None
  /\ fs r.2 !! "/mnt/data" = Some (NDir (new_perm (Z.lor ModeDir 493) w))
  /\ (forall x, under "/mnt/data" x = true ->
      fs r.2 !! x = flat_copy (fs w) "/srv/data" "/mnt/data" x)
  /\ (forall x, x = "/srv/data" \/ under "/srv/data" x = true ->
      fs r.2 !! x = None)
  /\ (forall x, x <> "/mnt/data" -> under "/mnt/data" x = false ->
                x <> "/srv/data" -> under "/srv/data" x = false ->
                fs r.2 !! x = fs w !! x)
  /\ fdtab r.2 = fdtab w.
Proof.
  apply (Rename_fallback_moves_flat_directory service "/srv/data" "/mnt/data"
           (set_script [Fail FEXDEV] data_tree) 493).
  - reflexivity.
  - split; [reflexivity|split; [discriminate|reflexivity]].
  - split; [reflexivity|split; [discriminate|reflexivity]].
  - reflexivity.
  - reflexivity.
  - apply (bool_decide_unpack _). vm_compute. exact I.
  - apply (bool_decide_unpack _). vm_compute. exact I.
Defined.

(** X11: without environment faults [CopyFile] of a regular file onto
    another path (absent, or a regular file) returns nil; the destination
    then holds the content of the source with the permission bits of the
    source, every other entry is as before, and both descriptors are
    closed. *)
Theorem CopyFile_copies p src dst w c pm :
  script w = [] -> fs w !! src = Some (NFile c pm) -> src <> dst ->
  (fs w !! dst = None \/ exists c' pm', fs w !! dst = Some (NFile c' pm')) ->
  let r := CopyFile p src dst w in
  r.1 = None
  /\ fs r.2 = <[dst := NFile c (Z.land pm ModePerm)]> (fs w)
  /\ fdtab r.2 = fdtab w.
Proof.
  intros Hs Hsrc Hne Hdst.
  destruct (CopyFile_run p src dst w c pm Hs Hsrc Hdst)
    as (w' & HR & Hfs & Hfd & _).
  rewrite decide_False in Hfs by done. cbn zeta. rewrite HR. done.
Qed.

Lemma CopyFile_copies_witness :
  let w := machine (Some "7") [] in
  let r := CopyFile service "counter.txt" "backup.txt" w in
  r.1 = None
  /\ fs r.2 = <["backup.txt" := NFile (bytes "7") (Z.land 420 ModePerm)]> (fs w)
  /\ fdtab r.2 = fdtab w.
Proof.
  apply (CopyFile_copies service "counter.txt" "backup.txt"
           (machine (Some "7") []) (bytes "7") 420).
  - reflexivity.
  - reflexivity.
  - discriminate.
  - left. reflexivity.
Defined.

(** X12: [CopyFile] of a file onto itself empties it: [os.Create]
    truncates the file before [io.Copy] reads it, and the call still
    returns nil. *)
Theorem CopyFile_onto_itself_truncates p src w c pm :
  script w = [] -> fs w !! src = Some (NFile c pm) ->
  let r := CopyFile p src src w in
  r.1 = None
  /\ fs r.2 = <[src := NFile [] (Z.land pm ModePerm)]> (fs w).
Proof.
  intros Hs Hsrc.
  destruct (CopyFile_run p src src w c pm Hs Hsrc (or_intror (ex_intro _ c (ex_intro _ pm Hsrc))))
    as (w' & HR & Hfs & _).
  rewrite decide_True in Hfs by done. cbn zeta. rewrite HR. done.
Qed.

Lemma CopyFile_onto_itself_truncates_witness :
  let w := machine (Some "7") [] in
  let r := CopyFile service "counter.txt" "counter.txt" w in
  r.1 = None
  /\ fs r.2 = <["counter.txt" := NFile [] (Z.land 420 ModePerm)]> (fs w).
Proof.
  apply (CopyFile_onto_itself_truncates service "counter.txt"
           (machine (Some "7") []) (bytes "7") 420).
  - reflexivity.
  - reflexivity.
Defined.

(** X13: what [CopyDir] refuses, without environment faults: a source
    that does not exist gives the error of [os.Stat], a source that is a
    regular file gives [ErrSourceDir], and a destination that exists gives
    [ErrDestinationExists]; in each case the world is left as it was. *)
Theorem CopyDir_refuses p src dst w :
  script w = [] ->
  (fs w !! Filepath.Clean src = None ->
   CopyDir p src dst w
   = (Some (PathError "stat" (Filepath.Clean src) ENOENT), w))
  /\ (forall c pm, fs w !! Filepath.Clean src = Some (NFile c pm) ->
      CopyDir p src dst w = (Some ErrSourceDir, w))
  /\ (forall pm n, fs w !! Filepath.Clean src = Some (NDir pm) ->
      fs w !! Filepath.Clean dst = Some n -> (forall t, n <> NSymlink t) ->
      CopyDir p src dst w = (Some ErrDestinationExists, w)).
Proof.
  intros Hs. split; [|split].
  - by apply CopyDir_source_missing.
  - intros c pm. by apply CopyDir_source_file.
  - intros pm n. by apply CopyDir_destination_exists.
Qed.

Lemma CopyDir_refuses_witness :
  let w := machine (Some "7") [] in
  (fs w !! Filepath.Clean "./counter.txt" = None ->
   CopyDir service "./counter.txt" "copy" w
   = (Some (PathError "stat" (Filepath.Clean "./counter.txt") ENOENT), w))
  /\ (forall c pm, fs w !! Filepath.Clean "./counter.txt" = Some (NFile c pm) ->
      CopyDir service "./counter.txt" "copy" w = (Some ErrSourceDir, w))
  /\ (forall pm n, fs w !! Filepath.Clean "./counter.txt" = Some (NDir pm) ->
      fs w !! Filepath.Clean "copy" = Some n -> (forall t, n <> NSymlink t) ->
      CopyDir service "./counter.txt" "copy" w = (Some ErrDestinationExists, w)).
Proof.
  apply (CopyDir_refuses service "./counter.txt" "copy" (machine (Some "7") [])).
  reflexivity.
Defined.

(** X14: [CopyDir] of a flat directory.  Without environment faults, for
    a source directory that holds regular files and symbolic links only
    and a destination at and below which nothing exists: [CopyDir] returns
    nil, the destination is a directory with the permission bits of the
    source less the umask, below it there is exactly one copy of every
    regular file of the source, under the same name and with the same
    content and permission bits, the symbolic links are not copied,
    everything outside the destination is as before, and no descriptor
    stays open. *)
Theorem CopyDir_copies_flat_directory p src dst w pm :
  script w = [] -> plain_dir src -> plain_dir dst ->
  fs w !! src = Some (NDir pm) -> under src dst = false ->
  vacant (fs w) dst -> flat_dir (fs w) src ->
  let r := CopyDir p src dst w in
  r.1 = None
  /\ fs r.2 !! dst = Some (NDir (new_perm (Z.lor ModeDir pm) w))
  /\ (forall x, under dst x = true -> fs r.2 !! x = flat_copy (fs w) src dst x)
  /\ (forall x, x <> dst -> under dst x = false -> fs r.2 !! x = fs w !! x)
  /\ fdtab r.2 = fdtab w.
Proof.
  intros Hs Hsrc Hdst Hdir Hout Hvac Hflat.
  destruct (CopyDir_copies_flat p src dst w pm Hs Hsrc Hdst Hdir Hout Hvac Hflat)
    as (w' & HR & H1 & H2 & H3 & H4 & _).
  cbn zeta. rewrite HR. done.
Qed.

Lemma CopyDir_copies_flat_directory_witness :
  let w := data_tree in
  let r := CopyDir service "/srv/data" "/srv/copy" w in
  r.1 = None
  /\ fs r.2 !! "/srv/copy" = Some (NDir (new_perm (Z.lor ModeDir 493) w))
  /\ (forall x, under "/srv/copy" x = true ->
      fs r.2 !! x = flat_copy (fs w) "/srv/data" "/srv/copy" x)
  /\ (forall x, x <> "/srv/copy" -> under "/srv/copy" x = false ->
      fs r.2 !! x = fs w !! x)
  /\ fdtab r.2 = fdtab w.
Proof.
  apply (CopyDir_copies_flat_directory service "/srv/data" "/srv/copy" data_tree 493).
  - reflexivity.
  - split; [reflexivity|split; [discriminate|reflexivity]].
  - split; [reflexivity|split; [discriminate|reflexivity]].
  - reflexivity.
  - reflexivity.
  - apply (bool_decide_unpack _). vm_compute. exact I.
  - apply (bool_decide_unpack _). vm_compute. exact I.
Defined.

(** X15: no function of the package leaves a descriptor open, whatever
    the arguments, the world and the faults of the environment: after
    [CopyFile], [CopyDir], [Rename], [WriteAtomic] and [WriteAtomicTmp],
    and after the /hostname handler, the descriptor table is what it was
    before the call. *)
Theorem descriptors_are_closed cd p w :
  (forall src dst, fdtab (CopyFile p src dst w).2 = fdtab w)
  /\ (forall src dst, fdtab (CopyDir p src dst w).2 = fdtab w)
  /\ (forall src dst, fdtab (Rename p src dst w).2 = fdtab w)
  /\ (forall dir prefix file content perm,
        fdtab (WriteAtomic p dir prefix file content perm w).2 = fdtab w)
  /\ (forall prefix content, fdtab (WriteAtomicTmp p prefix content w).2 = fdtab w)
  /\ (forall g rw, fdtab (hostname cd p g rw w).2 = fdtab w).
Proof.
  repeat split; intros.
  - apply CopyFile_fdtab.
  - apply CopyDir_fdtab.
  - apply Rename_fdtab.
  - apply WriteAtomic_fdtab.
  - apply WriteAtomicTmp_fdtab.
  - apply hostname_fdtab.
Qed.

(** X16: without environment faults, with the first temporary name free
    and a target that is not a directory, [WriteAtomic] returns nil; the
    target then holds exactly [content] with exactly the permission bits
    asked for (whatever the umask and whatever file was there before),
    every other entry is as before (the temporary file is gone) and no
    descriptor stays open. *)
Theorem WriteAtomic_replaces_target p dir prefix file content perm w pre suf :
  script w = [] ->
  prefixAndSuffix (if negb (Contains prefix "*") then prefix ++ "_*" else prefix)
  = Ok (pre, suf) ->
  fs w !! joinPath (if String.eqb dir "" then os_TempDir p else dir)
            (pre ++ Itoa (Z.of_nat (rand w)) ++ suf) = None ->
  (forall dm, fs w !! file <> Some (NDir dm)) ->
  let r := WriteAtomic p dir prefix file content perm w in
  r.1 = None
  /\ fs r.2 = <[file := NFile content (Z.land perm ModePerm)]> (fs w)
  /\ fdtab r.2 = fdtab w.
Proof.
  intros Hs Hps Hfree Hdir.
  destruct (WriteAtomic_first p dir prefix file content perm w pre suf Hs Hps Hfree Hdir)
    as (w' & HR & Hfs & Hfd & _).
  cbn zeta. rewrite HR. done.
Qed.

Lemma WriteAtomic_replaces_target_witness :
  let w := machine (Some "7") [] in
  let r := WriteAtomic service "/var/tmp" "snap*.tmp" "counter.txt" (bytes "8")
             384 w in
  r.1 = None
  /\ fs r.2 = <["counter.txt" := NFile (bytes "8") (Z.land 384 ModePerm)]> (fs w)
  /\ fdtab r.2 = fdtab w.
Proof.
  apply (WriteAtomic_replaces_target service "/var/tmp" "snap*.tmp" "counter.txt"
           (bytes "8") 384 (machine (Some "7") []) "snap" ".tmp").
  - reflexivity.
  - reflexivity.
  - reflexivity.
  - intros dm H. vm_compute in H. discriminate H.
Defined.

(** X17: a prefix that contains a path separator is refused before any
    system call: [WriteAtomic] returns the error of [os.CreateTemp] about
    the pattern and the world, its fault script included, is untouched. *)
Theorem WriteAtomic_refuses_separator p dir prefix file content perm w :
  Contains prefix "/" = true ->
  WriteAtomic p dir prefix file content perm w
  = (Some (ErrPatternHasSeparator
             (if negb (Contains prefix "*") then prefix ++ "_*" else prefix)), w).
Proof.
  intros Hc. unfold WriteAtomic, mbind, M_bind, mret, M_ret.
  by rewrite (writeTmpFile_separator p dir prefix content w Hc).
Qed.

Lemma WriteAtomic_refuses_separator_witness :
  WriteAtomic service "/tmp" "a/b" "counter.txt" (bytes "8") 420
    (machine (Some "7") [Fail FEIO])
  = (Some (ErrPatternHasSeparator
             (if negb (Contains "a/b" "*") then "a/b" ++ "_*" else "a/b")),
     machine (Some "7") [Fail FEIO]).
Proof.
  apply (WriteAtomic_refuses_separator service "/tmp" "a/b" "counter.txt"
           (bytes "8") 420 (machine (Some "7") [Fail FEIO])).
  reflexivity.
Defined.

(** X18: [WriteAtomicTmp] never overwrites.  Under every fault: when it
    returns a name, that name did not exist before, lies in the temporary
    directory and now holds exactly [content] with mode 0600 less the
    umask, everything else being as before; when it returns an error,
    every entry that existed is as it was.  No descriptor stays open. *)
Theorem WriteAtomicTmp_creates_new_file p prefix content w :
  let r := WriteAtomicTmp p prefix content w in
  fdtab r.2 = fdtab w
  /\ match r.1 with
     | Ok tmp => fs w !! tmp = None /\ under (os_TempDir p) tmp = true
                 /\ fs r.2 = <[tmp := NFile content (new_perm 384 w)]> (fs w)
     | Err _ => forall x, is_Some (fs w !! x) -> fs r.2 !! x = fs w !! x
     end.
Proof.
  cbn zeta. destruct (WriteAtomicTmp p prefix content w) as [r w'] eqn:H.
  exact (WriteAtomicTmp_spec p prefix content w r w' H).
Qed.

End FhandlerBehaviour.

(* ===================================================================== *)
(** * package lockfile: what the handle does                              *)
(* ===================================================================== *)

Section LockfileBehaviour.
Open Scope string_scope.

(** X19: a lock call, an unlock call and [Owner] never change or remove
    an entry of the name space, whatever the handle, the arguments and the
    faults: in particular the content of an existing lock file is never
    touched (the file is opened without [O_TRUNC]). *)
Theorem locking_keeps_name_space p exclusive blocking offset whence len l w x :
  is_Some (fs w !! x) ->
  fs (lock p exclusive blocking offset whence len l w).2 !! x = fs w !! x
  /\ fs (unlock p offset whence len l w).2 !! x = fs w !! x
  /\ fs (Owner p l w).2 !! x = fs w !! x.
Proof.
  intros Hx. split; [|split].
  - by apply lock_extends.
  - by apply unlock_extends.
  - by apply Owner_extends.
Qed.

Lemma locking_keeps_name_space_witness :
  let l := NewFcntlLockfile "counter.txt" in
  let w := machine (Some "7") [] in
  fs (lock service true false 0 SeekStart 0 l w).2 !! "counter.txt"
  = fs w !! "counter.txt"
  /\ fs (unlock service 0 SeekStart 0 l w).2 !! "counter.txt"
     = fs w !! "counter.txt"
  /\ fs (Owner service l w).2 !! "counter.txt" = fs w !! "counter.txt".
Proof.
  apply (locking_keeps_name_space service true false 0 SeekStart 0
           (NewFcntlLockfile "counter.txt") (machine (Some "7") []) "counter.txt").
  vm_compute. eexists. reflexivity.
Defined.

(** X20: while another process holds a write lock on the whole of a
    regular file, no lock call on a new handle for that file obtains the
    lock, shared or exclusive, on whatever range and under whatever
    faults; a non-blocking call returns an error. *)
Theorem write_lock_excludes
    p path w r c pm exclusive blocking offset whence len :
  r ∈ locks w -> lk_path r = path -> lk_pid r <> pid p ->
  lk_excl r = true -> lk_lo r = 0%Z -> lk_hi r = None ->
  fs w !! path = Some (NFile c pm) ->
  let res :=
    (lock p exclusive blocking offset whence len (NewFcntlLockfile path) w).1.2 in
  res <> Returned None
  /\ (blocking = false -> exists e, res = Returned (Some e)).
Proof.
  intros Hin Hpath Hpid Hex Hlo Hhi Hfile. cbn zeta.
  pose proof (lock_excluded p path w r c pm exclusive blocking offset whence len
                Hin Hpath Hpid Hex Hlo Hhi Hfile) as Hne.
  split; [exact Hne|]. intros ->.
  pose proof (lock_returns p exclusive offset whence len (NewFcntlLockfile path) w)
    as Hret.
  destruct ((lock p exclusive false offset whence len (NewFcntlLockfile path) w).1.2)
    as [[e|]|]; [eauto|done|done].
Qed.

Lemma write_lock_excludes_witness :
  let w := (LockWrite service (NewFcntlLockfile "/tmp/counter.lock")
              (machine None [])).2 in
  let res :=
    (lock second_instance false false 10 SeekStart 5
       (NewFcntlLockfile "/tmp/counter.lock") w).1.2 in
  res <> Returned None
  /\ (false = false -> exists e, res = Returned (Some e)).
Proof.
  apply (write_lock_excludes second_instance "/tmp/counter.lock"
           ((LockWrite service (NewFcntlLockfile "/tmp/counter.lock")
               (machine None [])).2)
           (startup_lock service) [] 420 false false 10 SeekStart 5).
  - vm_compute. left.
  - reflexivity.
  - discriminate.
  - reflexivity.
  - reflexivity.
  - reflexivity.
  - reflexivity.
Defined.



(** X22: a handle is good for one lock.  After a lock call that obtained
    the lock on a handle that keeps its own file, [unlock] returns, and
    from then on every lock call on that handle fails with
    [ErrFailedToLock]: [unlock] closes [l.file] without setting it to nil,
    so the next call uses the closed file. *)
Theorem handle_single_use p l w exclusive blocking offset whence len :
  maintainFile l = true ->
  let a := lock p exclusive blocking offset whence len l w in
  a.1.2 = Returned None ->
  forall o' wh' len',
    let b := unlock p o' wh' len' a.1.1 a.2 in
    exists l2,
      b.1 = Normal l2
      /\ forall e2 b2 o2 wh2 len2 w3,
           fdtab w3 !! (pid p, (-1)%Z) = None ->
           (lock p e2 b2 o2 wh2 len2 l2 w3).1.2 = Returned (Some ErrFailedToLock).
Proof.
  intros Hm. cbn zeta.
  destruct (lock p exclusive blocking offset whence len l w) as [[l1 r] w1] eqn:Hl.
  cbn [fst snd]. intros ->. intros o' wh' len'.
  destruct (lock_success_open _ _ _ _ _ _ _ _ _ _ Hl) as (f & Hf & [d Hd] & Hm1 & Hft).
  destruct (unlock_closes p o' wh' len' l1 w1 f d Hf Hd) as (l2 & w2 & Hu & Hf2 & _);
    [congruence|done|].
  rewrite Hu. exists l2. split; [done|].
  intros e2 b2 o2 wh2 len2 w3 H3.
  by apply (lock_closed_file p e2 b2 o2 wh2 len2 l2 w3 _ Hf2).
Qed.

Lemma handle_single_use_witness :
  let l := NewFcntlLockfile "/tmp/counter.lock" in
  let a := lock service true false 0 SeekStart 0 l (machine None []) in
  let b := unlock service 0 SeekStart 0 a.1.1 a.2 in
  exists l2,
    b.1 = Normal l2
    /\ forall e2 b2 o2 wh2 len2 w3,
         fdtab w3 !! (pid service, (-1)%Z) = None ->
         (lock service e2 b2 o2 wh2 len2 l2 w3).1.2
         = Returned (Some ErrFailedToLock).
Proof.
  apply (handle_single_use service (NewFcntlLockfile "/tmp/counter.lock")
           (machine None []) true false 0 SeekStart 0).
  - reflexivity.
  - vm_compute. reflexivity.
Defined.

(** X23: [Unlock] releases whatever happens.  After a lock call that
    obtained the lock on a new handle, [Unlock] returns under every fault
    of the environment (an error of [fcntl] is only logged); afterwards
    the process holds no lock on the file, the locks of the other
    processes are as they were, and the descriptor is closed. *)
Theorem Unlock_releases p path w exclusive blocking offset whence len faults :
  (fs w !! path = None \/ exists c pm, fs w !! path = Some (NFile c pm)) ->
  let a := lock p exclusive blocking offset whence len (NewFcntlLockfile path) w in
  a.1.2 = Returned None ->
  let b := Unlock p a.1.1 (set_script faults a.2) in
  (exists l2, b.1 = Normal l2)
  /\ fdtab b.2 = fdtab w
  /\ Forall (fun rec => ¬ (lk_pid rec = pid p ∧ lk_path rec = path)) (locks b.2)
  /\ others p (locks b.2) = others p (locks w).
Proof.
  intros Hfile. cbn zeta.
  pose proof (lock_others p exclusive blocking offset whence len
                (NewFcntlLockfile path) w) as Ho1.
  destruct (lock p exclusive blocking offset whence len (NewFcntlLockfile path) w)
    as [[l1 r] w1] eqn:Hl.
  cbn [fst snd] in *. intros ->.
  destruct (lock_new_handle _ _ _ _ _ _ _ _ _ _ Hfile Hl)
    as (f & Hf & Hm & Hft & Hfree & Ht1).
  pose proof (unlock_others p 0 SeekStart 0 l1 (set_script faults w1)) as Ho2.
  destruct (unlock_closes p 0 SeekStart 0 l1 (set_script faults w1) f
              {| fd_path := path; fd_off := 0 |} Hf) as (l2 & w2 & Hu & _ & Ht2 & Hl2);
    [|done|done|].
  { cbn. rewrite Ht1. apply lookup_insert_eq. }
  unfold Unlock. rewrite Hu in Ho2 |- *. cbn [fst snd] in *.
  split; [eauto|]. split.
  { rewrite Ht2. cbn. rewrite Ht1, delete_insert_eq. by apply delete_id. }
  split; [exact Hl2|].
  unfold same_others in Ho1, Ho2. cbn [locks set_script] in Ho2.
  by rewrite Ho2, Ho1.
Qed.

Lemma Unlock_releases_witness :
  let a := lock service true false 0 SeekStart 0
             (NewFcntlLockfile "/tmp/counter.lock") (machine None []) in
  let b := Unlock service a.1.1 (set_script [Fail FEIO; Fail FEIO] a.2) in
  (exists l2, b.1 = Normal l2)
  /\ fdtab b.2 = fdtab (machine None [])
  /\ Forall (fun rec => ¬ (lk_pid rec = pid service
                           ∧ lk_path rec = "/tmp/counter.lock")) (locks b.2)
  /\ others service (locks b.2) = others service (locks (machine None [])).
Proof.
  apply (Unlock_releases service "/tmp/counter.lock" (machine None [])
           true false 0 SeekStart 0 [Fail FEIO; Fail FEIO]).
  - left. reflexivity.
  - vm_compute. reflexivity.
Defined.

(** X24: a handle made by [NewFcntlLockfileFromFile] never closes the
    file it was given: after a lock call, whatever its result, and after
    an unlock call, the descriptor table is as before and the handle still
    holds the same file. *)
Theorem given_file_stays_open p exclusive blocking offset whence len l w f :
  maintainFile l = false -> Lockfile.file l = Some f ->
  let a := lock p exclusive blocking offset whence len l w in
  let b := unlock p offset whence len l w in
  (fdtab a.2 = fdtab w /\ Lockfile.file a.1.1 = Some f
   /\ maintainFile a.1.1 = false)
  /\ fdtab b.2 = fdtab w
  /\ (forall l', b.1 = Normal l' ->
      Lockfile.file l' = Some f /\ maintainFile l' = false).
Proof.
  intros Hm Hf. cbn zeta. split.
  - exact (lock_keeps_given_file p exclusive blocking offset whence len l w f Hm Hf).
  - exact (unlock_keeps_given_file p offset whence len l w f Hm Hf).
Qed.

Lemma given_file_stays_open_witness :
  let f := {| f_name := "/tmp/counter.lock"; f_fd := 3 |} in
  let l := NewFcntlLockfileFromFile f in
  let w := (os_OpenFile service "/tmp/counter.lock" (Z.lor O_CREATE O_RDWR) 438
              (machine None [])).2 in
  let a := lock service true false 0 SeekStart 0 l w in
  let b := unlock service 0 SeekStart 0 l w in
  (fdtab a.2 = fdtab w /\ Lockfile.file a.1.1 = Some f
   /\ maintainFile a.1.1 = false)
  /\ fdtab b.2 = fdtab w
  /\ (forall l', b.1 = Normal l' ->
      Lockfile.file l' = Some f /\ maintainFile l' = false).
Proof.
  apply (given_file_stays_open service true false 0 SeekStart 0
           (NewFcntlLockfileFromFile
              {| f_name := "/tmp/counter.lock"; f_fd := 3 |})
           ((os_OpenFile service "/tmp/counter.lock" (Z.lor O_CREATE O_RDWR) 438
               (machine None [])).2)
           {| f_name := "/tmp/counter.lock"; f_fd := 3 |}).
  - reflexivity.
  - reflexivity.
Defined.

(** X25: [Owner] only reads.  It changes neither the name space, nor the
    locks, nor the descriptor table; and the number it returns is -1 or
    the process id of a lock that another process holds: never the id of
    the calling process. *)
Theorem Owner_reports_other_process p l w :
  let r := Owner p l w in
  fs r.2 = fs w /\ locks r.2 = locks w /\ fdtab r.2 = fdtab w
  /\ forall n, r.1 = Normal n ->
       n = (-1)%Z
       \/ exists rec, rec ∈ locks w /\ lk_pid rec = n /\ lk_pid rec <> pid p.
Proof.
  cbn zeta. destruct (Owner_reads_only p l w) as (H1 & H2 & H3).
  repeat (split; [done|]). intros n. apply Owner_result.
Qed.

(** X26: who holds the lock.  On a handle made from an open file, when
    another process holds a lock on the whole file, [LockWrite] fails with
    [ErrFailedToLock] and leaves the file open, and [Owner] then returns
    the process id of a process that holds a lock on the file. *)
Theorem Owner_after_failed_lock p f w path off r :
  fdtab w !! (pid p, f_fd f) = Some {| fd_path := path; fd_off := off |} ->
  script w = [] ->
  r ∈ locks w -> lk_path r = path -> lk_pid r <> pid p ->
  lk_lo r = 0%Z -> lk_hi r = None ->
  let a := LockWrite p (NewFcntlLockfileFromFile f) w in
  a.1.2 = Returned (Some ErrFailedToLock)
  /\ fdtab a.2 = fdtab w
  /\ exists r', r' ∈ locks w /\ lk_path r' = path /\ lk_pid r' <> pid p
                /\ (Owner p a.1.1 a.2).1 = Normal (lk_pid r').
Proof.
  intros Hfd Hs Hin Hpath Hpid Hlo Hhi. cbn zeta.
  destruct (Owner_after_failed_LockWrite p f w path off r Hfd Hs Hin Hpath Hpid
              Hlo Hhi) as (l' & r' & Hl & _ & Hin' & Hp' & Hpid' & Ho).
  rewrite Hl. cbn [fst snd]. split; [done|]. split; [done|].
  exists r'. rewrite Ho. done.
Qed.

Lemma Owner_after_failed_lock_witness :
  let held := (LockWrite service (NewFcntlLockfile "/tmp/counter.lock")
                 (machine None [])).2 in
  let opened := os_OpenFile second_instance "/tmp/counter.lock"
                  (Z.lor O_CREATE O_RDWR) 438 held in
  let f := {| f_name := "/tmp/counter.lock"; f_fd := 3 |} in
  let a := LockWrite second_instance (NewFcntlLockfileFromFile f) opened.2 in
  a.1.2 = Returned (Some ErrFailedToLock)
  /\ fdtab a.2 = fdtab opened.2
  /\ exists r', r' ∈ locks opened.2 /\ lk_path r' = "/tmp/counter.lock"
                /\ lk_pid r' <> pid second_instance
                /\ (Owner second_instance a.1.1 a.2).1 = Normal (lk_pid r').
Proof.
  apply (Owner_after_failed_lock second_instance
           {| f_name := "/tmp/counter.lock"; f_fd := 3 |}
           ((os_OpenFile second_instance "/tmp/counter.lock"
               (Z.lor O_CREATE O_RDWR) 438
               ((LockWrite service (NewFcntlLockfile "/tmp/counter.lock")
                   (machine None [])).2)).2)
           "/tmp/counter.lock" 0 (startup_lock service)).
  - reflexivity.
  - reflexivity.
  - vm_compute. left.
  - reflexivity.
  - discriminate.
  - reflexivity.
  - reflexivity.
Defined.

(** X27: [whence] is converted with [int16(whence)], so only its low 16
    bits count: a lock or unlock call with [whence + k * 65536] does what
    the call with [whence] does. *)
Theorem whence_wraps p exclusive blocking offset whence len l w k :
  lock p exclusive blocking offset (whence + k * 65536) len l w
  = lock p exclusive blocking offset whence len l w
  /\ unlock p offset (whence + k * 65536) len l w
     = unlock p offset whence len l w.
Proof.
  split; [apply lock_whence_int16|apply unlock_whence_int16].
Qed.

End LockfileBehaviour.
